(** * Terratest AWS helpers: the SQS long-poll waiter and the MFA enrollment flow

    A shallow embedding of [modules/aws/sqs.go] and [modules/aws/iam.go].

    The Go functions talk to AWS, to the wall clock and to the test logger.
    Every such interaction is a constructor of [Call]; a Go function becomes a
    value of the free monad [prog] over these calls, written in the order the
    source performs them.  [run] executes a program against an arbitrary
    environment [Env] with a handler for the calls, and records every call
    with its answer and the clock reading before and after it. *)

From Stdlib Require Import ZArith List String Bool Lia DecimalString.
Import ListNotations.

Local Open Scope string_scope.
Local Open Scope Z_scope.

(** ** Go values *)

(** A Go pointer [*T] is [option T]: [None] is [nil]. *)
Definition ptr (T : Type) : Type := option T.

(** Go's [error] values: the errors the SDK and the session provider hand
    back, and [ReceiveMessageTimeout], the one error type sqs.go declares
    (lines 354-357). *)
Inductive error : Type :=
| AwsError (code message : string)
| ReceiveMessageTimeout (QueueUrl : string) (TimeoutSec : Z).

(** Ways a goroutine stops without returning: the two run-time panics the
    code can raise, [t.Fatal], and the exhaustion of the recursion budget of
    the model's loop (never reached, see [WaitForQueueMessage_fuel]). *)
Inductive abort : Type :=
| IndexOutOfRange (index len : Z)
| NilDereference
| TestFatal (err : error)
| OutOfFuel.

(** How a call of a Go function ends. *)
Inductive outcome (A : Type) : Type :=
| Returned (a : A)
| Aborted (p : abort).

Arguments Returned {A} a.
Arguments Aborted {A} p.

(** Keep the images of the elements [f] is defined on. *)
Fixpoint filter_map {A B : Type} (f : A -> option B) (l : list A) : list B :=
  match l with
  | [] => []
  | a :: l' =>
    match f a with
    | Some b => b :: filter_map f l'
    | None => filter_map f l'
    end
  end.

(** The kinds of interaction with the outside. *)
Inductive kind : Type :=
| KSession | KReceive | KGetUser | KCreate | KEnable | KOtp | KSleep | KLog.

(** The steps of the enrollment that follow the creation of the device:
    resolving the caller's ARN (a session, then [GetUser]), the two one-time
    codes and the enable call. *)
Definition later_step (k : kind) : bool :=
  match k with
  | KSession | KGetUser | KOtp | KEnable => true
  | _ => false
  end.

(** [strconv.Itoa] *)
Definition Itoa (i : Z) : string := NilZero.string_of_int (Z.to_int i).

(** [time.Duration] counts nanoseconds. *)
Definition Second : Z := 1000000000.

(** ** SDK data (github.com/aws/aws-sdk-go), fields as the code reads them *)

Record Message : Type := {
  MessageId : ptr string;
  ReceiptHandle_ : ptr string;
  Body : ptr string
}.

Record ReceiveMessageInput : Type := {
  QueueUrl_ : ptr string;
  AttributeNames : list (ptr string);
  MaxNumberOfMessages : ptr Z;
  MessageAttributeNames : list (ptr string);
  WaitTimeSeconds : ptr Z
}.

Record ReceiveMessageOutput : Type := {
  Messages : list (ptr Message)
}.

Record User : Type := {
  Arn : ptr string;
  UserName_ : ptr string
}.

Record GetUserOutput : Type := {
  User_ : ptr User
}.

Record VirtualMFADevice : Type := {
  SerialNumber : ptr string;
  Base32StringSeed : string
}.

Record CreateVirtualMFADeviceInput : Type := {
  VirtualMFADeviceName : ptr string
}.

Record CreateVirtualMFADeviceOutput : Type := {
  VirtualMFADevice_ : ptr VirtualMFADevice
}.

Record EnableMFADeviceInput : Type := {
  AuthenticationCode1 : ptr string;
  AuthenticationCode2 : ptr string;
  SerialNumber_ : ptr string;
  UserName : ptr string
}.

(** [aws.String], [aws.Int64], [aws.StringSlice], [aws.StringValue] *)
Definition aws_String (s : string) : ptr string := Some s.
Definition aws_Int64 (i : Z) : ptr Z := Some i.
Definition aws_StringSlice (l : list string) : list (ptr string) := map aws_String l.
Definition aws_StringValue (p : ptr string) : string :=
  match p with Some s => s | None => "" end.

(** ** sqs.go: the waiter's result *)

Record QueueMessageResponse : Type := {
  ReceiptHandle : string;
  MessageBody : string;
  Error : option error
}.

(** [QueueMessageResponse{Error: err}]: the fields left out keep their zero
    value. *)
Definition failed (err : error) : QueueMessageResponse :=
  {| ReceiptHandle := ""; MessageBody := ""; Error := Some err |}.

(** [QueueMessageResponse{Error: ReceiveMessageTimeout{QueueUrl: queueURL,
    TimeoutSec: timeout}}] (line 331). *)
Definition timed_out (queueURL : string) (timeout : Z) : QueueMessageResponse :=
  failed (ReceiveMessageTimeout queueURL timeout).

(** Lines 304-309 of [WaitForQueueMessage]: [(cycles, cycleLength)].
    Go's [int] is read as [Z]: its [/] truncates toward zero, which is
    [Z.quot], and the values the function computes stay between 0 and
    [timeout] ([cycle_plan_in_range]), so that nothing wraps around. *)
Definition cycle_plan (timeout : Z) : Z * Z :=
  let cycles := timeout in
  let cycleLength := 1 in
  if 20 <=? timeout then
    let cycleLength := 20 in
    let cycles := Z.quot timeout cycleLength in
    (cycles, cycleLength)
  else (cycles, cycleLength).

Section Program.

(** [session.Session], [sqs.SQS] and [iam.IAM] are opaque SDK handles; a
    client remembers the session it was built from. *)
Context {Session : Type}.

Record SQS : Type := sqs_New { sqs_session : ptr Session }.
Record IAM : Type := iam_New { iam_session : ptr Session }.

(** ** Interactions with the outside *)

(** Everything the two files reach outside themselves.
    [NewAuthenticatedSession], [GetTimeBasedOneTimePassword] and
    [defaultRegion] belong to the package but are declared in other files of
    it: the first two are calls answered by the environment like those of the
    SDK, the third is a parameter. *)
Inductive Call : Type -> Type :=
| NewAuthenticatedSession (region : string) (sess : ptr Session)
    : Call (ptr Session * option error)
| sqs_ReceiveMessage (c : SQS) (input : ReceiveMessageInput)
    : Call (ReceiveMessageOutput * option error)
| iam_GetUser (c : IAM)
    : Call (GetUserOutput * option error)
| iam_CreateVirtualMFADevice (c : IAM) (input : CreateVirtualMFADeviceInput)
    : Call (CreateVirtualMFADeviceOutput * option error)
| iam_EnableMFADevice (c : IAM) (input : EnableMFADeviceInput)
    : Call (unit * option error)
| GetTimeBasedOneTimePassword (mfaDevice : ptr VirtualMFADevice)
    : Call (string * option error)
| time_Sleep (d : Z) : Call unit
| logger_Logf (format : string) (args : list string) : Call unit
| logger_Log (line : string) : Call unit.

Variable defaultRegion : string.

(** ** Programs *)

Inductive prog (A : Type) : Type :=
| Ret (a : A)
| Abort (p : abort)
| Do (R : Type) (c : Call R) (k : R -> prog A).

Arguments Ret {A} a.
Arguments Abort {A} p.
Arguments Do {A R} c k.

Fixpoint bind {A B : Type} (m : prog A) (f : A -> prog B) : prog B :=
  match m with
  | Ret a => f a
  | Abort p => Abort p
  | Do c k => Do c (fun r => bind (k r) f)
  end.

Definition call {R : Type} (c : Call R) : prog R := Do c Ret.

Notation "x <- m ;; k" := (bind m (fun x => k))
  (at level 61, m at next level, right associativity).
Notation "' pat <- m ;; k" := (bind m (fun x => match x with pat => k end))
  (at level 61, pat pattern, m at next level, right associativity).
Notation "m ;;; k" := (bind m (fun _ => k))
  (at level 61, right associativity).

(** [l[i]]: a run-time panic when [i] is out of range. *)
Definition index {A : Type} (l : list A) (i : nat) : prog A :=
  match nth_error l i with
  | Some a => Ret a
  | None => Abort (IndexOutOfRange (Z.of_nat i) (Z.of_nat (List.length l)))
  end.

(** [*p] and [p.f]: a run-time panic on [nil]. *)
Definition deref {A : Type} (p : ptr A) : prog A :=
  match p with
  | Some a => Ret a
  | None => Abort NilDereference
  end.

(** [t.Fatal(err)] *)
Definition t_Fatal {A : Type} (err : error) : prog A := Abort (TestFatal err).

(** ** sqs.go *)

(** The [*testing.T] argument only reaches the logger and [t.Fatal]; it is
    left out of the signatures.  A variadic [sessExists ...*session.Session]
    is the list of the arguments the caller passed. *)

Definition NewSqsClientE (region : string) (sessExists : list (ptr Session))
  : prog (ptr SQS * option error) :=
  s0 <- index sessExists 0 ;;
  '(sess, err) <- call (NewAuthenticatedSession region s0) ;;
  match err with
  | Some e => Ret (None, Some e)
  | None => Ret (Some (sqs_New sess), None)
  end.

Definition NewSqsClient (region : string) (sessExists : list (ptr Session))
  : prog (ptr SQS) :=
  s0 <- index sessExists 0 ;;
  '(client, err) <- NewSqsClientE region [s0] ;;
  match err with
  | Some e => t_Fatal e
  | None => Ret client
  end.

(** The request of lines 313-319. *)
Definition receive_input (queueURL : string) (cycleLength : Z) : ReceiveMessageInput :=
  {| QueueUrl_ := aws_String queueURL;
     AttributeNames := aws_StringSlice ["SentTimestamp"];
     MaxNumberOfMessages := aws_Int64 1;
     MessageAttributeNames := aws_StringSlice ["All"];
     WaitTimeSeconds := aws_Int64 cycleLength |}.

(** The progress line of line 312 and the receive call of lines 313-319. *)
Definition wait_log (queueURL : string) (i cycleLength : Z) : Call unit :=
  logger_Logf "Waiting for message on %s (%ss)" [queueURL; Itoa (i * cycleLength)].

Definition receive (client : SQS) (queueURL : string) (cycleLength : Z)
  : Call (ReceiveMessageOutput * option error) :=
  sqs_ReceiveMessage client (receive_input queueURL cycleLength).

(** Lines 326-327, the body of [if len(result.Messages) > 0]: log the
    message id, return the receipt handle and the body.  Each
    [*result.Messages[0].F] indexes the slice and follows two pointers. *)
Definition deliver_first (result : ReceiveMessageOutput) (queueURL : string)
  : prog QueueMessageResponse :=
  m0 <- index (Messages result) 0 ;;
  m <- deref m0 ;;
  id <- deref (MessageId m) ;;
  call (logger_Logf "Message %s received on %s" [id; queueURL]) ;;;
  m0 <- index (Messages result) 0 ;;
  m <- deref m0 ;;
  handle <- deref (ReceiptHandle_ m) ;;
  m0 <- index (Messages result) 0 ;;
  m <- deref m0 ;;
  body <- deref (Body m) ;;
  Ret {| ReceiptHandle := handle; MessageBody := body; Error := None |}.

(** The [for] loop of [WaitForQueueMessage] (lines 311-329) followed by the
    final [return] (line 331).  [fuel] bounds the number of iterations the
    model may unfold. *)
Fixpoint receive_loop (fuel : nat) (sqsClient : ptr SQS) (queueURL : string)
    (timeout cycles cycleLength i : Z) : prog QueueMessageResponse :=
  if i <? cycles then
    match fuel with
    | O => Abort OutOfFuel
    | S fuel' =>
      call (wait_log queueURL i cycleLength) ;;;
      client <- deref sqsClient ;;
      '(result, err) <- call (receive client queueURL cycleLength) ;;
      match err with
      | Some e => Ret (failed e)
      | None =>
        if 0 <? Z.of_nat (List.length (Messages result)) then
          deliver_first result queueURL
        else
          receive_loop fuel' sqsClient queueURL timeout cycles cycleLength (i + 1)
      end
    end
  else
    Ret (timed_out queueURL timeout).

Definition WaitForQueueMessage (awsRegion queueURL : string) (timeout : Z)
    (sessExists : list (ptr Session)) : prog QueueMessageResponse :=
  s0 <- index sessExists 0 ;;
  '(sqsClient, err) <- NewSqsClientE awsRegion [s0] ;;
  match err with
  | Some e => Ret (failed e)
  | None =>
    let '(cycles, cycleLength) := cycle_plan timeout in
    receive_loop (Z.to_nat cycles) sqsClient queueURL timeout cycles cycleLength 0
  end.

(** ** iam.go *)

Definition NewIamClientE (region : string) (sessExists : list (ptr Session))
  : prog (ptr IAM * option error) :=
  s0 <- index sessExists 0 ;;
  '(sess, err) <- call (NewAuthenticatedSession region s0) ;;
  match err with
  | Some e => Ret (None, Some e)
  | None => Ret (Some (iam_New sess), None)
  end.

Definition GetIamCurrentUserNameE (sessExists : list (ptr Session))
  : prog (string * option error) :=
  s0 <- index sessExists 0 ;;
  '(iamClient, err) <- NewIamClientE defaultRegion [s0] ;;
  match err with
  | Some e => Ret ("", Some e)
  | None =>
    client <- deref iamClient ;;
    '(resp, err) <- call (iam_GetUser client) ;;
    match err with
    | Some e => Ret ("", Some e)
    | None =>
      user <- deref (User_ resp) ;;
      name <- deref (UserName_ user) ;;
      Ret (name, None)
    end
  end.

Definition GetIamCurrentUserName (sessExists : list (ptr Session)) : prog string :=
  s0 <- index sessExists 0 ;;
  '(out, err) <- GetIamCurrentUserNameE [s0] ;;
  match err with
  | Some e => t_Fatal e
  | None => Ret out
  end.

Definition GetIamCurrentUserArnE (sessExists : list (ptr Session))
  : prog (string * option error) :=
  s0 <- index sessExists 0 ;;
  '(iamClient, err) <- NewIamClientE defaultRegion [s0] ;;
  match err with
  | Some e => Ret ("", Some e)
  | None =>
    client <- deref iamClient ;;
    '(resp, err) <- call (iam_GetUser client) ;;
    match err with
    | Some e => Ret ("", Some e)
    | None =>
      user <- deref (User_ resp) ;;
      arn <- deref (Arn user) ;;
      Ret (arn, None)
    end
  end.

Definition EnableMfaDeviceE (iamClient : ptr IAM) (mfaDevice : ptr VirtualMFADevice)
    (sessExists : list (ptr Session)) : prog (option error) :=
  dev <- deref mfaDevice ;;
  call (logger_Logf "Enabling MFA device %s" [aws_StringValue (SerialNumber dev)]) ;;;
  s0 <- index sessExists 0 ;;
  '(iamUserName, err) <- GetIamCurrentUserArnE [s0] ;;
  match err with
  | Some e => Ret (Some e)
  | None =>
    '(authCode1, err) <- call (GetTimeBasedOneTimePassword mfaDevice) ;;
    match err with
    | Some e => Ret (Some e)
    | None =>
      call (logger_Logf "Waiting 30 seconds for a new MFA Token to be generated..." []) ;;;
      call (time_Sleep (30 * Second)) ;;;
      '(authCode2, err) <- call (GetTimeBasedOneTimePassword mfaDevice) ;;
      match err with
      | Some e => Ret (Some e)
      | None =>
        dev <- deref mfaDevice ;;
        client <- deref iamClient ;;
        '(_, err) <- call (iam_EnableMFADevice client {|
            AuthenticationCode1 := aws_String authCode1;
            AuthenticationCode2 := aws_String authCode2;
            SerialNumber_ := SerialNumber dev;
            UserName := aws_String iamUserName |}) ;;
        match err with
        | Some e => Ret (Some e)
        | None =>
          call (logger_Log "Waiting for MFA Device enablement to propagate.") ;;;
          call (time_Sleep (10 * Second)) ;;;
          Ret None
        end
      end
    end
  end.

Definition CreateMfaDeviceE (iamClient : ptr IAM) (deviceName : string)
    (sessExists : list (ptr Session)) : prog (ptr VirtualMFADevice * option error) :=
  call (logger_Logf "Creating an MFA device called %s" [deviceName]) ;;;
  client <- deref iamClient ;;
  '(output, err) <- call (iam_CreateVirtualMFADevice client {|
      VirtualMFADeviceName := aws_String deviceName |}) ;;
  match err with
  | Some e => Ret (None, Some e)
  | None =>
    s0 <- index sessExists 0 ;;
    err <- EnableMfaDeviceE iamClient (VirtualMFADevice_ output) [s0] ;;
    match err with
    | Some e => Ret (None, Some e)
    | None => Ret (VirtualMFADevice_ output, None)
    end
  end.

Definition CreateMfaDevice (iamClient : ptr IAM) (deviceName : string)
    (sessExists : list (ptr Session)) : prog (ptr VirtualMFADevice) :=
  s0 <- index sessExists 0 ;;
  '(mfaDevice, err) <- CreateMfaDeviceE iamClient deviceName [s0] ;;
  match err with
  | Some e => t_Fatal e
  | None => Ret mfaDevice
  end.

(** ** Running a program *)

Section Run.

(** The outside world: AWS, the session provider, the clock.  [handle]
    answers a call and moves the world on; [now] reads the clock, in
    nanoseconds. *)
Context {Env : Type}.
Variable handle : forall R : Type, Call R -> Env -> Env * R.
Variable now : Env -> Z.

(** One performed call: the clock when it was issued, the call, its answer
    and the clock when it returned. *)
Inductive event : Type :=
| Ev (R : Type) (t0 : Z) (c : Call R) (r : R) (t1 : Z).

Arguments Ev {R} t0 c r t1.

Definition trace {A : Type} (x : list event * Env * outcome A) : list event := fst (fst x).
Definition final {A : Type} (x : list event * Env * outcome A) : Env := snd (fst x).
Definition result {A : Type} (x : list event * Env * outcome A) : outcome A := snd x.

(** The answer to call [c] in world [e], the world after it, and its record
    in the trace. *)
Definition answer {R : Type} (c : Call R) (e : Env) : R := snd (handle R c e).
Definition after {R : Type} (c : Call R) (e : Env) : Env := fst (handle R c e).
Definition perform {R : Type} (c : Call R) (e : Env) : event :=
  Ev (now e) c (answer c e) (now (after c e)).

(** A run yields the calls performed, the world it ends in and the way the
    program ended. *)
Fixpoint run {A : Type} (m : prog A) (e : Env) : list event * Env * outcome A :=
  match m with
  | Ret a => ([], e, Returned a)
  | Abort p => ([], e, Aborted p)
  | Do c k =>
    let rest := run (k (answer c e)) (after c e) in
    (perform c e :: trace rest, final rest, result rest)
  end.

(** *** Reading a trace *)

(** The answer of a receive call. *)
Definition receive_answer (ev : event) : option (ReceiveMessageOutput * option error) :=
  match ev with
  | Ev _ c r _ =>
    match c in Call R return R -> option (ReceiveMessageOutput * option error) with
    | sqs_ReceiveMessage _ _ => fun r => Some r
    | _ => fun _ => None
    end r
  end.

(** The [WaitTimeSeconds] of a receive call. *)
Definition receive_wait (ev : event) : option (ptr Z) :=
  match ev with
  | Ev _ c _ _ =>
    match c with
    | sqs_ReceiveMessage _ input => Some (WaitTimeSeconds input)
    | _ => None
    end
  end.

Definition receive_waits (tr : list event) : list (ptr Z) :=
  filter_map receive_wait tr.

(** The seconds the receive calls of a trace were allowed to wait, added up. *)
Definition total_wait (tr : list event) : Z :=
  fold_right (fun w acc => match w with Some n => n + acc | None => acc end)
             0 (receive_waits tr).

(** The session provider's answer. *)
Definition session_answer (ev : event) : option (ptr Session * option error) :=
  match ev with
  | Ev _ c r _ =>
    match c in Call R return R -> option (ptr Session * option error) with
    | NewAuthenticatedSession _ _ => fun r => Some r
    | _ => fun _ => None
    end r
  end.

(** No call to the session provider in the trace came back with an error. *)
Definition session_granted (tr : list event) : bool :=
  forallb (fun ev =>
    match session_answer ev with
    | Some (_, Some _) => false
    | _ => true
    end) tr.

(** Every receive call in the trace succeeded and brought no message. *)
Definition no_message_no_error (tr : list event) : bool :=
  forallb (fun ev =>
    match receive_answer ev with
    | Some (_, Some _) => false
    | Some (out, None) => match Messages out with [] => true | _ :: _ => false end
    | None => true
    end) tr.

(** One-time-password generations: start, code, error, end. *)
Definition otp_event (ev : event) : option (Z * (string * option error) * Z) :=
  match ev with
  | Ev t0 c r t1 =>
    match c in Call R return R -> option (Z * (string * option error) * Z) with
    | GetTimeBasedOneTimePassword _ => fun r => Some (t0, r, t1)
    | _ => fun _ => None
    end r
  end.

(** Enable calls: start, input, error, end. *)
Definition enable_event (ev : event) : option (Z * EnableMFADeviceInput * option error * Z) :=
  match ev with
  | Ev t0 c r t1 =>
    match c in Call R return R -> option (Z * EnableMFADeviceInput * option error * Z) with
    | iam_EnableMFADevice _ input => fun r => Some (t0, input, snd r, t1)
    | _ => fun _ => None
    end r
  end.

(** What kind of call an event records. *)
Definition kind_of (ev : event) : kind :=
  match ev with
  | Ev _ c _ _ =>
    match c with
    | NewAuthenticatedSession _ _ => KSession
    | sqs_ReceiveMessage _ _ => KReceive
    | iam_GetUser _ => KGetUser
    | iam_CreateVirtualMFADevice _ _ => KCreate
    | iam_EnableMFADevice _ _ => KEnable
    | GetTimeBasedOneTimePassword _ => KOtp
    | time_Sleep _ => KSleep
    | logger_Logf _ _ => KLog
    | logger_Log _ => KLog
    end
  end.

(** The error a fallible call came back with, if any. *)
Definition step_error (ev : event) : option error :=
  match ev with
  | Ev _ c r _ =>
    match c in Call R return R -> option error with
    | NewAuthenticatedSession _ _ => fun r => snd r
    | sqs_ReceiveMessage _ _ => fun r => snd r
    | iam_GetUser _ => fun r => snd r
    | iam_CreateVirtualMFADevice _ _ => fun r => snd r
    | iam_EnableMFADevice _ _ => fun r => snd r
    | GetTimeBasedOneTimePassword _ => fun r => snd r
    | time_Sleep _ => fun _ => None
    | logger_Logf _ _ => fun _ => None
    | logger_Log _ => fun _ => None
    end r
  end.

(** The answer of the device-creation call. *)
Definition create_answer (ev : event)
  : option (CreateVirtualMFADeviceOutput * option error) :=
  match ev with
  | Ev _ c r _ =>
    match c in Call R return R -> option (CreateVirtualMFADeviceOutput * option error) with
    | iam_CreateVirtualMFADevice _ _ => fun r => Some r
    | _ => fun _ => None
    end r
  end.

(** Sleeps: the requested duration. *)
Definition sleep_event (ev : event) : option Z :=
  match ev with
  | Ev _ c _ _ =>
    match c with
    | time_Sleep d => Some d
    | _ => None
    end
  end.

End Run.

End Program.

Arguments prog Session A : clear implicits.
Arguments Call Session R : clear implicits.
Arguments event Session : clear implicits.
Arguments SQS Session : clear implicits.
Arguments IAM Session : clear implicits.
Arguments Ret {Session A} a.
Arguments Abort {Session A} p.
Arguments Do {Session A R} c k.
Arguments Ev {Session R} t0 c r t1.

(** ** A scripted world

    A concrete environment to run the programs in: a virtual clock, a queue
    that answers the receive calls from a script (and with an empty answer
    once the script is used up), an identity service that can be told to
    refuse the creation or the enabling of a device, and a one-time-password
    generator whose code changes every 30 seconds. *)
Module Mock.

Record World : Type := {
  clock : Z;
  inbox : list (ReceiveMessageOutput * option error);
  create_error : option error;
  enable_error : option error
}.

Definition advance (d : Z) (w : World) : World :=
  {| clock := clock w + d; inbox := inbox w;
     create_error := create_error w; enable_error := enable_error w |}.

Definition pop (w : World) : World :=
  {| clock := clock w; inbox := tl (inbox w);
     create_error := create_error w; enable_error := enable_error w |}.

Definition now (w : World) : Z := clock w.

Definition device (name : ptr string) : VirtualMFADevice :=
  {| SerialNumber := Some ("arn:aws:iam::0:mfa/" ++ aws_StringValue name)%string;
     Base32StringSeed := "ONSWG4TFOQ" |}.

Definition current_user : User :=
  {| Arn := Some "arn:aws:iam::0:user/tester"; UserName_ := Some "tester" |}.

(** A receive call that finds nothing blocks for its whole wait; one that
    finds an answer in the script returns after a nanosecond. *)
Definition blocked (input : ReceiveMessageInput) : Z :=
  match WaitTimeSeconds input with
  | Some n => Z.max 0 (n * Second)
  | None => 0
  end.

Definition handle (R : Type) (c : Call unit R) (w : World) : World * R :=
  match c in Call _ R return World * R with
  | NewAuthenticatedSession region sess =>
    (advance 1 w, (match sess with Some s => Some s | None => Some tt end, None))
  | sqs_ReceiveMessage _ input =>
    match inbox w with
    | [] => (advance (blocked input) w, ({| Messages := [] |}, None))
    | (out, err) :: _ =>
      (advance (match Messages out, err with
                | [], None => blocked input
                | _, _ => 1
                end) (pop w), (out, err))
    end
  | iam_GetUser _ => (advance 1 w, ({| User_ := Some current_user |}, None))
  | iam_CreateVirtualMFADevice _ input =>
    (advance 1 w,
     match create_error w with
     | Some e => ({| VirtualMFADevice_ := None |}, Some e)
     | None => ({| VirtualMFADevice_ := Some (device (VirtualMFADeviceName input)) |}, None)
     end)
  | iam_EnableMFADevice _ input => (advance 1 w, (tt, enable_error w))
  | GetTimeBasedOneTimePassword mfaDevice =>
    (advance 1 w, (Itoa (Z.quot (clock w) (30 * Second)), None))
  | time_Sleep d => (advance (Z.max 0 d) w, tt)
  | logger_Logf _ _ => (w, tt)
  | logger_Log _ => (w, tt)
  end.

(** A world with an empty queue and a willing identity service. *)
Definition quiet : World :=
  {| clock := 0; inbox := []; create_error := None; enable_error := None |}.

Definition throttled : error := AwsError "RequestThrottled" "Rate exceeded".

(** The queue answers empty once, then the transport fails. *)
Definition failing_queue : World :=
  {| clock := 0;
     inbox := [({| Messages := [] |}, None); ({| Messages := [] |}, Some throttled)];
     create_error := None; enable_error := None |}.

Definition hello : Message :=
  {| MessageId := Some "m-1"; ReceiptHandle_ := Some "rh-1"; Body := Some "hello" |}.

(** The queue answers empty once, then delivers a message. *)
Definition busy_queue : World :=
  {| clock := 0;
     inbox := [({| Messages := [] |}, None); ({| Messages := [Some hello] |}, None)];
     create_error := None; enable_error := None |}.

(** A message that carries a receipt handle and a body, and no id. *)
Definition unlabelled : Message :=
  {| MessageId := None; ReceiptHandle_ := Some "rh-2"; Body := Some "hello" |}.

(** The queue answers empty once, then delivers the message without id. *)
Definition unlabelled_queue : World :=
  {| clock := 0;
     inbox := [({| Messages := [] |}, None); ({| Messages := [Some unlabelled] |}, None)];
     create_error := None; enable_error := None |}.

Definition limit_exceeded : error := AwsError "LimitExceeded" "Cannot exceed quota".

(** The identity service refuses to create devices. *)
Definition no_devices : World :=
  {| clock := 0; inbox := []; create_error := Some limit_exceeded; enable_error := None |}.

Definition invalid_code : error :=
  AwsError "InvalidAuthenticationCode" "Authentication code for device is not valid".

(** The identity service creates devices and refuses to enable them. *)
Definition no_enabling : World :=
  {| clock := 0; inbox := []; create_error := None; enable_error := Some invalid_code |}.

Definition exec {A : Type} (m : prog unit A) (w : World)
  : list (event unit) * World * outcome A :=
  run handle now m w.

(** Enabling a fresh device in the quiet world. *)
Definition enrollment : list (event unit) * World * outcome (option error) :=
  exec (EnableMfaDeviceE "eu-west-1" (Some (iam_New None))
          (Some (device (Some "otp"))) [None]) quiet.

End Mock.

(** * The rest of the package

    The functions of iam.go and sqs.go the waiter and the enrollment do not
    go through, and the EC2 helpers.  The wrappers of iam.go are programs of
    [prog]; the other functions are written over [ExtCall], which adds the
    remaining operations to those of [Call]. *)

From Stdlib Require Import Ascii.

(** ** Text *)

(** [fmt.Sprintf] on string arguments, for the verbs the package uses: [%s]
    and the escape [%%].  A verb without an argument prints [%!s(MISSING)] and
    arguments left over are listed after [%!(EXTRA ], as Go does; other verbs
    do not occur in the package and are copied as they stand. *)
Fixpoint extra_args (args : list string) : string :=
  match args with
  | [] => ""
  | [a] => "string=" ++ a
  | a :: rest => "string=" ++ a ++ ", " ++ extra_args rest
  end.

Fixpoint Sprintf (format : string) (args : list string) : string :=
  match format with
  | EmptyString =>
    match args with
    | [] => ""
    | _ :: _ => "%!(EXTRA " ++ extra_args args ++ ")"
    end
  | String "%"%char (String "s"%char rest) =>
    match args with
    | a :: args' => a ++ Sprintf rest args'
    | [] => "%!s(MISSING)" ++ Sprintf rest []
    end
  | String "%"%char (String "%"%char rest) => String "%"%char (Sprintf rest args)
  | String c rest => String c (Sprintf rest args)
  end.

(** [strings.Contains] *)
Fixpoint Contains (s substr : string) : bool :=
  if String.prefix substr s then true
  else
    match s with
    | EmptyString => false
    | String _ s' => Contains s' substr
    end.

(** The [Error()] method: of an SDK error without a cause, [code: message]
    ([awserr.SprintError]); of [ReceiveMessageTimeout], sqs.go lines 359-361. *)
Definition error_Error (err : error) : string :=
  match err with
  | AwsError code message => code ++ ": " ++ message
  | ReceiveMessageTimeout QueueUrl TimeoutSec =>
    Sprintf "Failed to receive messages on %s within %s seconds"
            [QueueUrl; Itoa TimeoutSec]
  end.

(** [if err != nil { t.Fatal(err) }; return out]: what a function that
    returns [(out, err)] becomes under its fatal wrapper. *)
Definition or_fatal {A : Type} (o : outcome (A * option error)) : outcome A :=
  match o with
  | Returned (a, None) => Returned a
  | Returned (_, Some e) => Aborted (TestFatal e)
  | Aborted p => Aborted p
  end.

Definition or_fatal_unit (o : outcome (option error)) : outcome unit :=
  match o with
  | Returned None => Returned tt
  | Returned (Some e) => Aborted (TestFatal e)
  | Aborted p => Aborted p
  end.

(** ** iam.go: the remaining wrappers *)

Section MoreIam.

Context {Session : Type}.
Variable defaultRegion : string.

#[local] Notation "x <- m ;; k" := (bind m (fun x => k))
  (at level 61, m at next level, right associativity).
#[local] Notation "' pat <- m ;; k" := (bind m (fun x => match x with pat => k end))
  (at level 61, pat pattern, m at next level, right associativity).

Definition GetIamCurrentUserArn (sessExists : list (ptr Session)) : prog Session string :=
  s0 <- index sessExists 0 ;;
  '(out, err) <- GetIamCurrentUserArnE defaultRegion [s0] ;;
  match err with
  | Some e => t_Fatal e
  | None => Ret out
  end.

Definition EnableMfaDevice (iamClient : ptr (IAM Session))
    (mfaDevice : ptr VirtualMFADevice) (sessExists : list (ptr Session))
  : prog Session unit :=
  s0 <- index sessExists 0 ;;
  err <- EnableMfaDeviceE defaultRegion iamClient mfaDevice [s0] ;;
  match err with
  | Some e => t_Fatal e
  | None => Ret tt
  end.

Definition NewIamClient (region : string) (sessExists : list (ptr Session))
  : prog Session (ptr (IAM Session)) :=
  s0 <- index sessExists 0 ;;
  '(client, err) <- NewIamClientE region [s0] ;;
  match err with
  | Some e => t_Fatal e
  | None => Ret client
  end.

(** The answer of a [GetUser] call, and the client it went through. *)
Definition getuser_event (ev : event Session)
  : option (IAM Session * (GetUserOutput * option error)) :=
  match ev with
  | Ev _ c r _ =>
    match c in Call _ R return R -> option (IAM Session * (GetUserOutput * option error)) with
    | iam_GetUser client => fun r => Some (client, r)
    | _ => fun _ => None
    end r
  end.

(** The session provider's call: region and session pointer passed, answer. *)
Definition session_event (ev : event Session)
  : option (string * ptr Session * (ptr Session * option error)) :=
  match ev with
  | Ev _ c r _ =>
    match c in Call _ R return R -> option (string * ptr Session * (ptr Session * option error)) with
    | NewAuthenticatedSession region sess => fun r => Some (region, sess, r)
    | _ => fun _ => None
    end r
  end.

(** The client an enable call went through. *)
Definition enable_client (ev : event Session) : option (IAM Session) :=
  match ev with
  | Ev _ c _ _ =>
    match c with
    | iam_EnableMFADevice client _ => Some client
    | _ => None
    end
  end.

(** The request of a receive call. *)
Definition receive_request (ev : event Session) : option ReceiveMessageInput :=
  match ev with
  | Ev _ c _ _ =>
    match c with
    | sqs_ReceiveMessage _ input => Some input
    | _ => None
    end
  end.

End MoreIam.

(** The arguments of a progress line of the waiter (sqs.go line 312). *)
Definition progress_event {Session : Type} (ev : event Session) : option (list string) :=
  match ev with
  | Ev _ c _ _ =>
    match c with
    | logger_Logf format args =>
      if String.eqb format "Waiting for message on %s (%ss)" then Some args else None
    | _ => None
    end
  end.

(** ** More SDK data

    One module per Go struct, so that the fields keep their names. *)

Module CreateQueueInput.
Record t : Type := { QueueName : ptr string }.
End CreateQueueInput.

Module CreateQueueOutput.
Record t : Type := { QueueUrl : ptr string }.
End CreateQueueOutput.

Module DeleteQueueInput.
Record t : Type := { QueueUrl : ptr string }.
End DeleteQueueInput.

Module DeleteMessageInput.
Record t : Type := { QueueUrl : ptr string; ReceiptHandle : ptr string }.
End DeleteMessageInput.

Module SendMessageInput.
Record t : Type := { MessageBody : ptr string; QueueUrl : ptr string }.
End SendMessageInput.

Module SendMessageOutput.
Record t : Type := { MessageId : ptr string }.
End SendMessageOutput.

Module Filter.
Record t : Type := { Name : ptr string; Values : list (ptr string) }.
End Filter.

Module DescribeInstancesInput.
Record t : Type := { InstanceIds : list (ptr string); Filters : list (ptr Filter.t) }.
End DescribeInstancesInput.

Module Instance.
Record t : Type := { InstanceId : ptr string; PublicIpAddress : ptr string }.
End Instance.

Module Reservation.
Record t : Type := { Instances : list (ptr Instance.t) }.
End Reservation.

Module DescribeInstancesOutput.
Record t : Type := { Reservations : list (ptr Reservation.t) }.
End DescribeInstancesOutput.

Module DescribeTagsInput.
Record t : Type := { Filters : list (ptr Filter.t) }.
End DescribeTagsInput.

Module TagDescription.
Record t : Type := { Key : ptr string; Value : ptr string }.
End TagDescription.

Module DescribeTagsOutput.
Record t : Type := { Tags : list (ptr TagDescription.t) }.
End DescribeTagsOutput.

(** [PublicKeyMaterial] is a [[]byte]: the string of its bytes. *)
Module ImportKeyPairInput.
Record t : Type := { KeyName : ptr string; PublicKeyMaterial : string }.
End ImportKeyPairInput.

Module DeleteKeyPairInput.
Record t : Type := { KeyName : ptr string }.
End DeleteKeyPairInput.

Module DeregisterImageInput.
Record t : Type := { ImageId : ptr string }.
End DeregisterImageInput.

Module TerminateInstancesInput.
Record t : Type := { InstanceIds : list (ptr string) }.
End TerminateInstancesInput.

(** [ssh.KeyPair], of the package's sibling module. *)
Module KeyPair.
Record t : Type := { PublicKey : string; PrivateKey : string }.
End KeyPair.

(** [Ec2Keypair] (ec2 key pair file, lines 14-18); the embedded
    [*ssh.KeyPair] is the field [KeyPair]. *)
Module Ec2Keypair.
Record t : Type := { KeyPair : ptr KeyPair.t; Name : string; Region : string }.
End Ec2Keypair.

(** Errors of the EC2 helpers: those of [error], and
    [IpForEc2InstanceNotFound] (lines 307-310). *)
Inductive ec2_error : Type :=
| Plain (err : error)
| IpForEc2InstanceNotFound (InstanceId AwsRegion : string).

Definition ec2_error_Error (err : ec2_error) : string :=
  match err with
  | Plain e => error_Error e
  | IpForEc2InstanceNotFound InstanceId AwsRegion =>
    Sprintf "Could not find a public IP address for EC2 Instance %s in %s"
            [InstanceId; AwsRegion]
  end.

(** ** Go maps from strings to strings

    A map is its list of bindings, one per key; [m[k] = v] drops the old
    binding of [k].  A [nil] map reads like the empty one and is written
    [[]], as is a [nil] slice. *)
Definition gomap : Type := list (string * string).

Fixpoint map_get (k : string) (m : gomap) : option string :=
  match m with
  | [] => None
  | (k', v) :: m' => if String.eqb k k' then Some v else map_get k m'
  end.

Fixpoint map_delete (k : string) (m : gomap) : gomap :=
  match m with
  | [] => []
  | (k', v) :: m' =>
    if String.eqb k k' then map_delete k m' else (k', v) :: map_delete k m'
  end.

Definition map_set (k v : string) (m : gomap) : gomap := (k, v) :: map_delete k m.

(** The kinds of call of the extended programs: the session provider, the
    logger, the UUID and key generators, an SDK operation of [ExtCall], any
    other call of [Call]. *)
Inductive xkind : Type :=
| XSession | XLog | XUuid | XKeygen | XAws | XOther.

(** ** The remaining operations *)

Section Extended.

Context {Session : Type}.

Record EC2 : Type := ec2_New { ec2_session : ptr Session }.

(** The calls of [Call], and the other operations the package reaches:
    [uuid.NewUUID] (answered with the UUID's text, [channel.String()]), the
    queue and EC2 operations of the SDK, and [ssh.GenerateRSAKeyPairE]. *)
Inductive ExtCall : Type -> Type :=
| core (R : Type) (c : Call Session R) : ExtCall R
| uuid_NewUUID : ExtCall (string * option error)
| sqs_CreateQueue (c : SQS Session) (input : CreateQueueInput.t)
    : ExtCall (CreateQueueOutput.t * option error)
| sqs_DeleteQueue (c : SQS Session) (input : DeleteQueueInput.t)
    : ExtCall (unit * option error)
| sqs_DeleteMessage (c : SQS Session) (input : DeleteMessageInput.t)
    : ExtCall (unit * option error)
| sqs_SendMessage (c : SQS Session) (input : SendMessageInput.t)
    : ExtCall (SendMessageOutput.t * option error)
| ssh_GenerateRSAKeyPairE (keySize : Z)
    : ExtCall (ptr KeyPair.t * option error)
| ec2_ImportKeyPair (c : EC2) (input : ImportKeyPairInput.t)
    : ExtCall (unit * option error)
| ec2_DeleteKeyPair (c : EC2) (input : DeleteKeyPairInput.t)
    : ExtCall (unit * option error)
| ec2_DescribeInstances (c : EC2) (input : DescribeInstancesInput.t)
    : ExtCall (DescribeInstancesOutput.t * option error)
| ec2_DescribeTags (c : EC2) (input : DescribeTagsInput.t)
    : ExtCall (DescribeTagsOutput.t * option error)
| ec2_DeregisterImage (c : EC2) (input : DeregisterImageInput.t)
    : ExtCall (unit * option error)
| ec2_TerminateInstances (c : EC2) (input : TerminateInstancesInput.t)
    : ExtCall (unit * option error).

Arguments core {R} c.

Inductive xprog (A : Type) : Type :=
| XRet (a : A)
| XAbort (p : abort)
| XDo (R : Type) (c : ExtCall R) (k : R -> xprog A).

Arguments XRet {A} a.
Arguments XAbort {A} p.
Arguments XDo {A R} c k.

Fixpoint xbind {A B : Type} (m : xprog A) (f : A -> xprog B) : xprog B :=
  match m with
  | XRet a => f a
  | XAbort p => XAbort p
  | XDo c k => XDo c (fun r => xbind (k r) f)
  end.

Definition xcall {R : Type} (c : ExtCall R) : xprog R := XDo c XRet.

(** A program of [prog] is a program of [xprog]. *)
Fixpoint lift {A : Type} (m : prog Session A) : xprog A :=
  match m with
  | Ret a => XRet a
  | Abort p => XAbort p
  | Do c k => XDo (core c) (fun r => lift (k r))
  end.

#[local] Notation "x <- m ;; k" := (xbind m (fun x => k))
  (at level 61, m at next level, right associativity).
#[local] Notation "' pat <- m ;; k" := (xbind m (fun x => match x with pat => k end))
  (at level 61, pat pattern, m at next level, right associativity).
#[local] Notation "m ;;; k" := (xbind m (fun _ => k))
  (at level 61, right associativity).

Definition Logf (format : string) (args : list string) : xprog unit :=
  lift (call (logger_Logf format args)).

(** *** sqs.go *)

Definition CreateRandomQueueE (awsRegion prefix : string) (sessExists : list (ptr Session))
  : xprog (string * option error) :=
  Logf "Creating randomly named SQS queue with prefix %s" [prefix] ;;;
  s0 <- lift (index sessExists 0) ;;
  '(sqsClient, err) <- lift (NewSqsClientE awsRegion [s0]) ;;
  match err with
  | Some e => XRet ("", Some e)
  | None =>
    '(channel, err) <- xcall uuid_NewUUID ;;
    match err with
    | Some e => XRet ("", Some e)
    | None =>
      let channelName := Sprintf "%s-%s" [prefix; channel] in
      client <- lift (deref sqsClient) ;;
      '(queue, err) <- xcall (sqs_CreateQueue client
                                {| CreateQueueInput.QueueName := aws_String channelName |}) ;;
      match err with
      | Some e => XRet ("", Some e)
      | None => XRet (aws_StringValue (CreateQueueOutput.QueueUrl queue), None)
      end
    end
  end.

Definition CreateRandomQueue (awsRegion prefix : string) (sessExists : list (ptr Session))
  : xprog string :=
  s0 <- lift (index sessExists 0) ;;
  '(url, err) <- CreateRandomQueueE awsRegion prefix [s0] ;;
  match err with
  | Some e => lift (t_Fatal e)
  | None => XRet url
  end.

Definition DeleteQueueE (awsRegion queueURL : string) (sessExists : list (ptr Session))
  : xprog (option error) :=
  Logf "Deleting SQS Queue %s" [queueURL] ;;;
  s0 <- lift (index sessExists 0) ;;
  '(sqsClient, err) <- lift (NewSqsClientE awsRegion [s0]) ;;
  match err with
  | Some e => XRet (Some e)
  | None =>
    client <- lift (deref sqsClient) ;;
    '(_, err) <- xcall (sqs_DeleteQueue client
                          {| DeleteQueueInput.QueueUrl := aws_String queueURL |}) ;;
    XRet err
  end.

Definition DeleteQueue (awsRegion queueURL : string) (sessExists : list (ptr Session))
  : xprog unit :=
  s0 <- lift (index sessExists 0) ;;
  err <- DeleteQueueE awsRegion queueURL [s0] ;;
  match err with
  | Some e => lift (t_Fatal e)
  | None => XRet tt
  end.

Definition DeleteMessageFromQueueE (awsRegion queueURL receipt : string)
    (sessExists : list (ptr Session)) : xprog (option error) :=
  Logf "Deleting message from queue %s (%s)" [queueURL; receipt] ;;;
  s0 <- lift (index sessExists 0) ;;
  '(sqsClient, err) <- lift (NewSqsClientE awsRegion [s0]) ;;
  match err with
  | Some e => XRet (Some e)
  | None =>
    client <- lift (deref sqsClient) ;;
    '(_, err) <- xcall (sqs_DeleteMessage client
                          {| DeleteMessageInput.ReceiptHandle := Some receipt;
                             DeleteMessageInput.QueueUrl := Some queueURL |}) ;;
    XRet err
  end.

Definition DeleteMessageFromQueue (awsRegion queueURL receipt : string)
    (sessExists : list (ptr Session)) : xprog unit :=
  s0 <- lift (index sessExists 0) ;;
  err <- DeleteMessageFromQueueE awsRegion queueURL receipt [s0] ;;
  match err with
  | Some e => lift (t_Fatal e)
  | None => XRet tt
  end.

(** The error code [SendMessageToQueueE] looks for (line 277). *)
Definition NonExistentQueue : string := "AWS.SimpleQueueService.NonExistentQueue".

Definition SendMessageToQueueE (awsRegion queueURL message : string)
    (sessExists : list (ptr Session)) : xprog (option error) :=
  Logf "Sending message %s to queue %s" [message; queueURL] ;;;
  s0 <- lift (index sessExists 0) ;;
  '(sqsClient, err) <- lift (NewSqsClientE awsRegion [s0]) ;;
  match err with
  | Some e => XRet (Some e)
  | None =>
    client <- lift (deref sqsClient) ;;
    '(res, err) <- xcall (sqs_SendMessage client
                            {| SendMessageInput.MessageBody := Some message;
                               SendMessageInput.QueueUrl := Some queueURL |}) ;;
    match err with
    | Some e =>
      if Contains (error_Error e) NonExistentQueue then
        Logf (Sprintf "WARN: Client has stopped listening on queue %s" [queueURL]) [] ;;;
        XRet None
      else XRet (Some e)
    | None =>
      Logf "Message id %s sent to queue %s"
           [aws_StringValue (SendMessageOutput.MessageId res); queueURL] ;;;
      XRet None
    end
  end.

Definition SendMessageToQueue (awsRegion queueURL message : string)
    (sessExists : list (ptr Session)) : xprog unit :=
  s0 <- lift (index sessExists 0) ;;
  err <- SendMessageToQueueE awsRegion queueURL message [s0] ;;
  match err with
  | Some e => lift (t_Fatal e)
  | None => XRet tt
  end.

(** *** The EC2 client *)

Definition NewEc2ClientE (region : string) (sessExists : list (ptr Session))
  : xprog (ptr EC2 * option error) :=
  s0 <- lift (index sessExists 0) ;;
  '(sess, err) <- xcall (core (NewAuthenticatedSession region s0)) ;;
  match err with
  | Some e => XRet (None, Some e)
  | None => XRet (Some (ec2_New sess), None)
  end.

Definition NewEc2Client (region : string) (sessExists : list (ptr Session))
  : xprog (ptr EC2) :=
  s0 <- lift (index sessExists 0) ;;
  '(client, err) <- NewEc2ClientE region [s0] ;;
  match err with
  | Some e => lift (t_Fatal e)
  | None => XRet client
  end.

(** *** EC2 key pairs

    [DeleteEC2KeyPair] refers to a [sessExists] it does not declare and is
    left out. *)

Definition ImportEC2KeyPairE (region name : string) (keyPair : ptr KeyPair.t)
    (sessExists : list (ptr Session)) : xprog (ptr Ec2Keypair.t * option error) :=
  Logf "Creating new Key Pair in EC2 region %s named %s" [region; name] ;;;
  s0 <- lift (index sessExists 0) ;;
  '(client, err) <- NewEc2ClientE region [s0] ;;
  match err with
  | Some e => XRet (None, Some e)
  | None =>
    kp <- lift (deref keyPair) ;;
    let params := {| ImportKeyPairInput.KeyName := aws_String name;
                     ImportKeyPairInput.PublicKeyMaterial := KeyPair.PublicKey kp |} in
    c <- lift (deref client) ;;
    '(_, err) <- xcall (ec2_ImportKeyPair c params) ;;
    match err with
    | Some e => XRet (None, Some e)
    | None =>
      XRet (Some {| Ec2Keypair.Name := name; Ec2Keypair.Region := region;
                    Ec2Keypair.KeyPair := keyPair |}, None)
    end
  end.

Definition ImportEC2KeyPair (region name : string) (keyPair : ptr KeyPair.t)
    (sessExists : list (ptr Session)) : xprog (ptr Ec2Keypair.t) :=
  s0 <- lift (index sessExists 0) ;;
  '(ec2KeyPair, err) <- ImportEC2KeyPairE region name keyPair [s0] ;;
  match err with
  | Some e => lift (t_Fatal e)
  | None => XRet ec2KeyPair
  end.

Definition CreateAndImportEC2KeyPairE (region name : string)
    (sessExists : list (ptr Session)) : xprog (ptr Ec2Keypair.t * option error) :=
  '(keyPair, err) <- xcall (ssh_GenerateRSAKeyPairE 2048) ;;
  match err with
  | Some e => XRet (None, Some e)
  | None =>
    s0 <- lift (index sessExists 0) ;;
    ImportEC2KeyPairE region name keyPair [s0]
  end.

Definition CreateAndImportEC2KeyPair (region name : string)
    (sessExists : list (ptr Session)) : xprog (ptr Ec2Keypair.t) :=
  s0 <- lift (index sessExists 0) ;;
  '(keyPair, err) <- CreateAndImportEC2KeyPairE region name [s0] ;;
  match err with
  | Some e => lift (t_Fatal e)
  | None => XRet keyPair
  end.

Definition DeleteEC2KeyPairE (keyPair : ptr Ec2Keypair.t)
    (sessExists : list (ptr Session)) : xprog (option error) :=
  kp <- lift (deref keyPair) ;;
  Logf "Deleting Key Pair in EC2 region %s named %s"
       [Ec2Keypair.Region kp; Ec2Keypair.Name kp] ;;;
  s0 <- lift (index sessExists 0) ;;
  '(client, err) <- NewEc2ClientE (Ec2Keypair.Region kp) [s0] ;;
  match err with
  | Some e => XRet (Some e)
  | None =>
    let params := {| DeleteKeyPairInput.KeyName := aws_String (Ec2Keypair.Name kp) |} in
    c <- lift (deref client) ;;
    '(_, err) <- xcall (ec2_DeleteKeyPair c params) ;;
    XRet err
  end.

(** *** EC2 instances *)

(** The loops of [GetPublicIpsOfEc2InstancesE] (lines 152-156). *)
Fixpoint ips_of_instances (instances : list (ptr Instance.t)) (ips : gomap)
  : xprog gomap :=
  match instances with
  | [] => XRet ips
  | instance :: more =>
    i <- lift (deref instance) ;;
    ips_of_instances more
      (map_set (aws_StringValue (Instance.InstanceId i))
               (aws_StringValue (Instance.PublicIpAddress i)) ips)
  end.

Fixpoint ips_of_reservations (reservations : list (ptr Reservation.t)) (ips : gomap)
  : xprog gomap :=
  match reservations with
  | [] => XRet ips
  | reserveration :: more =>
    r <- lift (deref reserveration) ;;
    ips' <- ips_of_instances (Reservation.Instances r) ips ;;
    ips_of_reservations more ips'
  end.

Definition GetPublicIpsOfEc2InstancesE (instanceIDs : list string) (awsRegion : string)
    (sessExists : list (ptr Session)) : xprog (gomap * option error) :=
  s0 <- lift (index sessExists 0) ;;
  ec2Client <- NewEc2Client awsRegion [s0] ;;
  let input := {| DescribeInstancesInput.InstanceIds := aws_StringSlice instanceIDs;
                  DescribeInstancesInput.Filters := [] |} in
  c <- lift (deref ec2Client) ;;
  '(output, err) <- xcall (ec2_DescribeInstances c input) ;;
  match err with
  | Some e => XRet ([], Some e)
  | None =>
    ips <- ips_of_reservations (DescribeInstancesOutput.Reservations output) [] ;;
    XRet (ips, None)
  end.

Definition GetPublicIpsOfEc2Instances (instanceIDs : list string) (awsRegion : string)
    (sessExists : list (ptr Session)) : xprog gomap :=
  s0 <- lift (index sessExists 0) ;;
  '(ips, err) <- GetPublicIpsOfEc2InstancesE instanceIDs awsRegion [s0] ;;
  match err with
  | Some e => lift (t_Fatal e)
  | None => XRet ips
  end.

Definition GetPublicIpOfEc2InstanceE (instanceID awsRegion : string)
    (sessExists : list (ptr Session)) : xprog (string * option ec2_error) :=
  s0 <- lift (index sessExists 0) ;;
  '(ips, err) <- GetPublicIpsOfEc2InstancesE [instanceID] awsRegion [s0] ;;
  match err with
  | Some e => XRet ("", Some (Plain e))
  | None =>
    match map_get instanceID ips with
    | None => XRet ("", Some (IpForEc2InstanceNotFound instanceID awsRegion))
    | Some ip => XRet (ip, None)
    end
  end.

(** The loops of [GetEc2InstanceIdsByTagE] (lines 188-192). *)
Fixpoint ids_of_instances (instances : list (ptr Instance.t)) (instanceIDs : list string)
  : xprog (list string) :=
  match instances with
  | [] => XRet instanceIDs
  | instance :: more =>
    i <- lift (deref instance) ;;
    id <- lift (deref (Instance.InstanceId i)) ;;
    ids_of_instances more (instanceIDs ++ [id])%list
  end.

Fixpoint ids_of_reservations (reservations : list (ptr Reservation.t))
    (instanceIDs : list string) : xprog (list string) :=
  match reservations with
  | [] => XRet instanceIDs
  | reservation :: more =>
    r <- lift (deref reservation) ;;
    instanceIDs' <- ids_of_instances (Reservation.Instances r) instanceIDs ;;
    ids_of_reservations more instanceIDs'
  end.

Definition GetEc2InstanceIdsByTagE (region tagName tagValue : string)
    (sessExists : list (ptr Session)) : xprog (list string * option error) :=
  s0 <- lift (index sessExists 0) ;;
  '(client, err) <- NewEc2ClientE region [s0] ;;
  match err with
  | Some e => XRet ([], Some e)
  | None =>
    let tagFilter := {| Filter.Name := aws_String (Sprintf "tag:%s" [tagName]);
                        Filter.Values := [aws_String tagValue] |} in
    c <- lift (deref client) ;;
    '(output, err) <- xcall (ec2_DescribeInstances c
                               {| DescribeInstancesInput.InstanceIds := [];
                                  DescribeInstancesInput.Filters := [Some tagFilter] |}) ;;
    match err with
    | Some e => XRet ([], Some e)
    | None =>
      instanceIDs <- ids_of_reservations (DescribeInstancesOutput.Reservations output) [] ;;
      XRet (instanceIDs, err)
    end
  end.

Definition GetEc2InstanceIdsByTag (region tagName tagValue : string)
    (sessExists : list (ptr Session)) : xprog (list string) :=
  s0 <- lift (index sessExists 0) ;;
  '(out, err) <- GetEc2InstanceIdsByTagE region tagName tagValue [s0] ;;
  match err with
  | Some e => lift (t_Fatal e)
  | None => XRet out
  end.

(** The loop of [GetTagsForEc2InstanceE] (lines 233-235). *)
Fixpoint tags_of (tagList : list (ptr TagDescription.t)) (tags : gomap) : xprog gomap :=
  match tagList with
  | [] => XRet tags
  | tag :: more =>
    t <- lift (deref tag) ;;
    tags_of more (map_set (aws_StringValue (TagDescription.Key t))
                          (aws_StringValue (TagDescription.Value t)) tags)
  end.

Definition GetTagsForEc2InstanceE (region instanceID : string)
    (sessExists : list (ptr Session)) : xprog (gomap * option error) :=
  s0 <- lift (index sessExists 0) ;;
  '(client, err) <- NewEc2ClientE region [s0] ;;
  match err with
  | Some e => XRet ([], Some e)
  | None =>
    let input := {| DescribeTagsInput.Filters := [
        Some {| Filter.Name := aws_String "resource-type";
                Filter.Values := aws_StringSlice ["instance"] |};
        Some {| Filter.Name := aws_String "resource-id";
                Filter.Values := aws_StringSlice [instanceID] |} ] |} in
    c <- lift (deref client) ;;
    '(out, err) <- xcall (ec2_DescribeTags c input) ;;
    match err with
    | Some e => XRet ([], Some e)
    | None =>
      tags <- tags_of (DescribeTagsOutput.Tags out) [] ;;
      XRet (tags, None)
    end
  end.

Definition GetTagsForEc2Instance (region instanceID : string)
    (sessExists : list (ptr Session)) : xprog gomap :=
  s0 <- lift (index sessExists 0) ;;
  '(tags, err) <- GetTagsForEc2InstanceE region instanceID [s0] ;;
  match err with
  | Some e => lift (t_Fatal e)
  | None => XRet tags
  end.

Definition DeleteAmiE (region imageID : string) (sessExists : list (ptr Session))
  : xprog (option error) :=
  Logf "Deregistering AMI %s" [imageID] ;;;
  s0 <- lift (index sessExists 0) ;;
  '(client, err) <- NewEc2ClientE region [s0] ;;
  match err with
  | Some e => XRet (Some e)
  | None =>
    c <- lift (deref client) ;;
    '(_, err) <- xcall (ec2_DeregisterImage c
                          {| DeregisterImageInput.ImageId := aws_String imageID |}) ;;
    XRet err
  end.

Definition DeleteAmi (region imageID : string) (sessExists : list (ptr Session))
  : xprog unit :=
  s0 <- lift (index sessExists 0) ;;
  err <- DeleteAmiE region imageID [s0] ;;
  match err with
  | Some e => lift (t_Fatal e)
  | None => XRet tt
  end.

Definition TerminateInstanceE (region instanceID : string)
    (sessExists : list (ptr Session)) : xprog (option error) :=
  Logf "Terminating Instance %s" [instanceID] ;;;
  s0 <- lift (index sessExists 0) ;;
  '(client, err) <- NewEc2ClientE region [s0] ;;
  match err with
  | Some e => XRet (Some e)
  | None =>
    c <- lift (deref client) ;;
    '(_, err) <- xcall (ec2_TerminateInstances c
                          {| TerminateInstancesInput.InstanceIds := [aws_String instanceID] |}) ;;
    XRet err
  end.

Definition TerminateInstance (region instanceID : string)
    (sessExists : list (ptr Session)) : xprog unit :=
  s0 <- lift (index sessExists 0) ;;
  err <- TerminateInstanceE region instanceID [s0] ;;
  match err with
  | Some e => lift (t_Fatal e)
  | None => XRet tt
  end.

(** *** Running an extended program *)

Section XRun.

Context {Env : Type}.
Variable xhandle : forall R : Type, ExtCall R -> Env -> Env * R.

(** One performed call and its answer. *)
Inductive xevent : Type :=
| XEv (R : Type) (c : ExtCall R) (r : R).

Arguments XEv {R} c r.

Definition xanswer {R : Type} (c : ExtCall R) (e : Env) : R := snd (xhandle R c e).
Definition xafter {R : Type} (c : ExtCall R) (e : Env) : Env := fst (xhandle R c e).

Definition xtrace {A : Type} (x : list xevent * Env * outcome A) : list xevent := fst (fst x).
Definition xfinal {A : Type} (x : list xevent * Env * outcome A) : Env := snd (fst x).
Definition xresult {A : Type} (x : list xevent * Env * outcome A) : outcome A := snd x.

Fixpoint xrun {A : Type} (m : xprog A) (e : Env) : list xevent * Env * outcome A :=
  match m with
  | XRet a => ([], e, Returned a)
  | XAbort p => ([], e, Aborted p)
  | XDo c k =>
    let rest := xrun (k (xanswer c e)) (xafter c e) in
    (XEv c (xanswer c e) :: xtrace rest, xfinal rest, xresult rest)
  end.

(** The kinds of call of the extended programs. *)
Definition xkind_of (ev : xevent) : xkind :=
  match ev with
  | XEv c _ =>
    match c with
    | core (NewAuthenticatedSession _ _) => XSession
    | core (logger_Logf _ _) => XLog
    | core (logger_Log _) => XLog
    | core _ => XOther
    | uuid_NewUUID => XUuid
    | ssh_GenerateRSAKeyPairE _ => XKeygen
    | _ => XAws
    end
  end.

(** The error a call came back with. *)
Definition xstep_error (ev : xevent) : option error :=
  match ev with
  | XEv c r =>
    match c in ExtCall R return R -> option error with
    | core c' =>
      match c' in Call _ R return R -> option error with
      | NewAuthenticatedSession _ _ => fun r => snd r
      | sqs_ReceiveMessage _ _ => fun r => snd r
      | iam_GetUser _ => fun r => snd r
      | iam_CreateVirtualMFADevice _ _ => fun r => snd r
      | iam_EnableMFADevice _ _ => fun r => snd r
      | GetTimeBasedOneTimePassword _ => fun r => snd r
      | _ => fun _ => None
      end
    | uuid_NewUUID => fun r => snd r
    | sqs_CreateQueue _ _ => fun r => snd r
    | sqs_DeleteQueue _ _ => fun r => snd r
    | sqs_DeleteMessage _ _ => fun r => snd r
    | sqs_SendMessage _ _ => fun r => snd r
    | ssh_GenerateRSAKeyPairE _ => fun r => snd r
    | ec2_ImportKeyPair _ _ => fun r => snd r
    | ec2_DeleteKeyPair _ _ => fun r => snd r
    | ec2_DescribeInstances _ _ => fun r => snd r
    | ec2_DescribeTags _ _ => fun r => snd r
    | ec2_DeregisterImage _ _ => fun r => snd r
    | ec2_TerminateInstances _ _ => fun r => snd r
    end r
  end.

(** What a log line says: format and arguments. *)
Definition xlog_event (ev : xevent) : option (string * list string) :=
  match ev with
  | XEv c _ =>
    match c with
    | core (logger_Logf format args) => Some (format, args)
    | _ => None
    end
  end.

(** The request of a [CreateQueue], [SendMessage] or [DescribeInstances]
    call. *)
Definition create_queue_request (ev : xevent) : option CreateQueueInput.t :=
  match ev with
  | XEv c _ => match c with sqs_CreateQueue _ input => Some input | _ => None end
  end.

Definition describe_instances_request (ev : xevent) : option DescribeInstancesInput.t :=
  match ev with
  | XEv c _ => match c with ec2_DescribeInstances _ input => Some input | _ => None end
  end.

End XRun.

End Extended.

Arguments xprog Session A : clear implicits.
Arguments ExtCall Session R : clear implicits.
Arguments EC2 Session : clear implicits.
Arguments xevent Session : clear implicits.
Arguments XRet {Session A} a.
Arguments XAbort {Session A} p.
Arguments XDo {Session A R} c k.
Arguments XEv {Session R} c r.
Arguments core {Session R} c.

(** The answer of a [SendMessage] call. *)
Definition send_answer {Session : Type} (ev : xevent Session)
  : option (SendMessageOutput.t * option error) :=
  match ev with
  | XEv c r =>
    match c in ExtCall _ R return R -> option (SendMessageOutput.t * option error) with
    | sqs_SendMessage _ _ => fun r => Some r
    | _ => fun _ => None
    end r
  end.

(** The answer of a [NewUUID] call. *)
Definition uuid_answer {Session : Type} (ev : xevent Session)
  : option (string * option error) :=
  match ev with
  | XEv c r =>
    match c in ExtCall _ R return R -> option (string * option error) with
    | uuid_NewUUID => fun r => Some r
    | _ => fun _ => None
    end r
  end.

(** The answer of a [CreateQueue] call. *)
Definition create_queue_answer {Session : Type} (ev : xevent Session)
  : option (CreateQueueOutput.t * option error) :=
  match ev with
  | XEv c r =>
    match c in ExtCall _ R return R -> option (CreateQueueOutput.t * option error) with
    | sqs_CreateQueue _ _ => fun r => Some r
    | _ => fun _ => None
    end r
  end.

(** No SDK operation of [ExtCall], no UUID, no key pair: only the session
    provider, the logger and calls of [Call]. *)
Definition no_operation {Session : Type} (tr : list (xevent Session)) : bool :=
  forallb (fun ev => match xkind_of ev with
                     | XAws | XUuid | XKeygen => false
                     | _ => true
                     end) tr.

(** The last event of a trace. *)
Definition last_event {Session : Type} (tr : list (xevent Session))
  : option (xevent Session) :=
  match rev tr with
  | [] => None
  | ev :: _ => Some ev
  end.

(** ** What the EC2 loops compute *)

(** The values behind a slice of pointers; [None] when one of them is
    [nil]. *)
Fixpoint collect {A : Type} (l : list (ptr A)) : option (list A) :=
  match l with
  | [] => Some []
  | None :: _ => None
  | Some a :: l' =>
    match collect l' with
    | Some rest => Some (a :: rest)
    | None => None
    end
  end.

(** The instances of all reservations, in the order of the answer. *)
Fixpoint instances_of (reservations : list (ptr Reservation.t)) : option (list Instance.t) :=
  match reservations with
  | [] => Some []
  | None :: _ => None
  | Some r :: more =>
    match collect (Reservation.Instances r), instances_of more with
    | Some instances, Some rest => Some (instances ++ rest)%list
    | _, _ => None
    end
  end.

(** The map built by writing [ips[id] = ip] for each instance in turn. *)
Definition ips_from (instances : list Instance.t) (ips : gomap) : gomap :=
  fold_left (fun m i => map_set (aws_StringValue (Instance.InstanceId i))
                                (aws_StringValue (Instance.PublicIpAddress i)) m)
            instances ips.

(** The map built by writing [tags[key] = value] for each tag in turn. *)
Definition tags_from (tagList : list TagDescription.t) (tags : gomap) : gomap :=
  fold_left (fun m t => map_set (aws_StringValue (TagDescription.Key t))
                                (aws_StringValue (TagDescription.Value t)) m)
            tagList tags.

(** The last element of a list that satisfies [f]. *)
Definition find_last {A : Type} (f : A -> bool) (l : list A) : option A :=
  find f (rev l).

(** The answer and the request of a [DescribeInstances] or [DescribeTags]
    call, the request of an [ImportKeyPair] call, the answer and the size
    asked of the key generator. *)
Definition describe_instances_event {Session : Type} (ev : xevent Session)
  : option (DescribeInstancesInput.t * (DescribeInstancesOutput.t * option error)) :=
  match ev with
  | XEv c r =>
    match c in ExtCall _ R
          return R -> option (DescribeInstancesInput.t
                              * (DescribeInstancesOutput.t * option error)) with
    | ec2_DescribeInstances _ input => fun r => Some (input, r)
    | _ => fun _ => None
    end r
  end.

Definition describe_tags_event {Session : Type} (ev : xevent Session)
  : option (DescribeTagsInput.t * (DescribeTagsOutput.t * option error)) :=
  match ev with
  | XEv c r =>
    match c in ExtCall _ R
          return R -> option (DescribeTagsInput.t * (DescribeTagsOutput.t * option error)) with
    | ec2_DescribeTags _ input => fun r => Some (input, r)
    | _ => fun _ => None
    end r
  end.

Definition import_request {Session : Type} (ev : xevent Session)
  : option ImportKeyPairInput.t :=
  match ev with
  | XEv c _ => match c with ec2_ImportKeyPair _ input => Some input | _ => None end
  end.

Definition keygen_event {Session : Type} (ev : xevent Session)
  : option (Z * (ptr KeyPair.t * option error)) :=
  match ev with
  | XEv c r =>
    match c in ExtCall _ R return R -> option (Z * (ptr KeyPair.t * option error)) with
    | ssh_GenerateRSAKeyPairE keySize => fun r => Some (keySize, r)
    | _ => fun _ => None
    end r
  end.

(** ** A scripted world for the extended programs

    The world of [Mock] for the calls of [Call], with a session provider that
    can be told to fail, and fixed answers for the other operations. *)
Module Lab.

Record World : Type := {
  base : Mock.World;
  session_error : option error;
  uuid : string * option error;
  queue : CreateQueueOutput.t * option error;
  delete_error : option error;
  send : SendMessageOutput.t * option error;
  keygen : ptr KeyPair.t * option error;
  instances : DescribeInstancesOutput.t * option error;
  tags : DescribeTagsOutput.t * option error
}.

Definition with_base (b : Mock.World) (w : World) : World :=
  {| base := b; session_error := session_error w; uuid := uuid w; queue := queue w;
     delete_error := delete_error w; send := send w; keygen := keygen w;
     instances := instances w; tags := tags w |}.

Definition core_handle (R : Type) (c : Call unit R) (w : World) : World * R :=
  match c in Call _ R return World * R -> World * R with
  | NewAuthenticatedSession _ _ =>
    fun granted =>
      match session_error w with
      | Some err => (w, (None, Some err))
      | None => granted
      end
  | _ => fun answered => answered
  end (with_base (fst (Mock.handle R c (base w))) w, snd (Mock.handle R c (base w))).

Definition handle (R : Type) (c : ExtCall unit R) (w : World) : World * R :=
  match c in ExtCall _ R return World * R with
  | core c' => core_handle _ c' w
  | uuid_NewUUID => (w, uuid w)
  | sqs_CreateQueue _ _ => (w, queue w)
  | sqs_DeleteQueue _ _ => (w, (tt, delete_error w))
  | sqs_DeleteMessage _ _ => (w, (tt, delete_error w))
  | sqs_SendMessage _ _ => (w, send w)
  | ssh_GenerateRSAKeyPairE _ => (w, keygen w)
  | ec2_ImportKeyPair _ _ => (w, (tt, None))
  | ec2_DeleteKeyPair _ _ => (w, (tt, delete_error w))
  | ec2_DescribeInstances _ _ => (w, instances w)
  | ec2_DescribeTags _ _ => (w, tags w)
  | ec2_DeregisterImage _ _ => (w, (tt, delete_error w))
  | ec2_TerminateInstances _ _ => (w, (tt, delete_error w))
  end.

Definition web : Instance.t :=
  {| Instance.InstanceId := Some "i-1"; Instance.PublicIpAddress := Some "198.51.100.7" |}.

Definition db : Instance.t :=
  {| Instance.InstanceId := Some "i-2"; Instance.PublicIpAddress := None |}.

Definition pair : KeyPair.t :=
  {| KeyPair.PublicKey := "ssh-rsa AAAA"; KeyPair.PrivateKey := "-----BEGIN RSA" |}.

(** Everything works: two instances in two reservations, two tags. *)
Definition fine : World :=
  {| base := Mock.quiet;
     session_error := None;
     uuid := ("0b1c", None);
     queue := ({| CreateQueueOutput.QueueUrl := Some "https://sqs/jobs-0b1c" |}, None);
     delete_error := None;
     send := ({| SendMessageOutput.MessageId := Some "m-7" |}, None);
     keygen := (Some pair, None);
     instances :=
       ({| DescribeInstancesOutput.Reservations :=
             [Some {| Reservation.Instances := [Some web] |};
              Some {| Reservation.Instances := [Some db] |}] |}, None);
     tags :=
       ({| DescribeTagsOutput.Tags :=
             [Some {| TagDescription.Key := Some "Name"; TagDescription.Value := Some "web" |};
              Some {| TagDescription.Key := Some "Name"; TagDescription.Value := Some "web-2" |}] |},
        None) |}.

Definition expired : error := AwsError "ExpiredToken" "The security token is expired".

(** No session to be had. *)
Definition locked_out : World :=
  {| base := Mock.quiet; session_error := Some expired; uuid := uuid fine;
     queue := queue fine; delete_error := None; send := send fine; keygen := keygen fine;
     instances := instances fine; tags := tags fine |}.

Definition gone : error :=
  AwsError "AWS.SimpleQueueService.NonExistentQueue" "The specified queue does not exist".

(** The queue has been deleted: sending fails. *)
Definition queue_gone : World :=
  {| base := Mock.quiet; session_error := None; uuid := uuid fine;
     queue := queue fine; delete_error := Some gone;
     send := ({| SendMessageOutput.MessageId := None |}, Some gone);
     keygen := keygen fine; instances := instances fine; tags := tags fine |}.

(** The [DescribeInstances] request for the given ids. *)
Definition asked (ids : list string) : DescribeInstancesInput.t :=
  {| DescribeInstancesInput.InstanceIds := map Some ids;
     DescribeInstancesInput.Filters := [] |}.

Definition exec {A : Type} (m : xprog unit A) (w : World)
  : list (xevent unit) * World * outcome A :=
  xrun handle m w.

(** The calls of [Call] in this world, with its clock. *)
Definition exec_core {A : Type} (m : prog unit A) (w : World)
  : list (event unit) * World * outcome A :=
  run (fun R c => handle R (core c)) (fun w => Mock.now (base w)) m w.

End Lab.

(** * Lists cut at an element *)

Lemma cons_split {A : Type} (a : A) (l pre : list A) (x : A) (post : list A) :
  a :: l = (pre ++ x :: post)%list ->
  (pre = [] /\ x = a /\ post = l) \/
  (exists pre', pre = a :: pre' /\ l = (pre' ++ x :: post)%list).
Proof.
  destruct pre as [| b pre']; simpl; intros H; inversion H; subst.
  - left. auto.
  - right. exists pre'. auto.
Qed.

Lemma nil_split {A : Type} (pre : list A) (x : A) (post : list A) :
  [] = (pre ++ x :: post)%list -> False.
Proof. destruct pre; discriminate. Qed.

(** * Properties

    What follows holds in every world: [handle] and [now] are arbitrary. *)

Ltac split_head H :=
  let pre' := fresh "pre" in
  apply cons_split in H as [(? & ? & ?) | (pre' & ? & H)]; subst.

Ltac find_event H :=
  repeat (destruct H as [H | H]; [subst; try discriminate |]); try contradiction.

Section Properties.

Context {Session Env : Type}.
Variable handle : forall R : Type, Call Session R -> Env -> Env * R.
Variable now : Env -> Z.

#[local] Notation "'exec'" := (run handle now) (only parsing).
#[local] Notation "c @ e" := (perform handle now c e) (at level 40, only parsing).
#[local] Notation "e |> c" := (after handle c e) (at level 41, left associativity, only parsing).

Lemma trace_mk {A : Type} (tr : list (event Session)) (e : Env) (o : outcome A) :
  trace (tr, e, o) = tr.
Proof. reflexivity. Qed.

Lemma result_mk {A : Type} (tr : list (event Session)) (e : Env) (o : outcome A) :
  result (tr, e, o) = o.
Proof. reflexivity. Qed.

Lemma no_message_no_error_cons (ev : event Session) tr :
  no_message_no_error (ev :: tr) =
  match receive_answer ev with
  | Some (_, Some _) => false
  | Some (out, None) => match Messages out with [] => true | _ :: _ => false end
  | None => true
  end && no_message_no_error tr.
Proof. reflexivity. Qed.

Lemma receive_waits_cons (ev : event Session) tr :
  receive_waits (ev :: tr) =
  match receive_wait ev with
  | Some w => w :: receive_waits tr
  | None => receive_waits tr
  end.
Proof. reflexivity. Qed.

Lemma receive_answer_perform_receive c input e :
  receive_answer (sqs_ReceiveMessage c input @ e)
  = Some (answer handle (sqs_ReceiveMessage c input) e).
Proof. reflexivity. Qed.

Lemma deliver_first_trace out queueURL e :
  trace (exec (deliver_first out queueURL) e) = [] \/
  exists id, trace (exec (deliver_first out queueURL) e)
             = [logger_Logf "Message %s received on %s" [id; queueURL] @ e].
Proof.
  unfold deliver_first.
  destruct (Messages out) as [| [m |] more]; simpl; auto.
  destruct (MessageId m) as [id |]; simpl; auto.
  right. exists id.
  destruct (ReceiptHandle_ m); simpl; auto.
  destruct (Body m); simpl; auto.
Qed.

Lemma deliver_first_fuel out queueURL e :
  result (exec (deliver_first out queueURL) e) <> Aborted OutOfFuel.
Proof.
  unfold deliver_first.
  destruct (Messages out) as [| [m |] more]; cbn; try discriminate.
  destruct (MessageId m); cbn; try discriminate.
  destruct (ReceiptHandle_ m); cbn; try discriminate.
  destruct (Body m); cbn; discriminate.
Qed.

Lemma sum_repeat (n : nat) (len : Z) :
  fold_right (fun (w : ptr Z) acc => match w with Some n => n + acc | None => acc end)
             0 (repeat (Some len) n)
  = len * Z.of_nat n.
Proof.
  induction n as [| n IH]; [simpl; lia |].
  cbn [repeat fold_right]. rewrite IH. lia.
Qed.

(** The integers of lines 304-312 ([cycles], [cycleLength], [i*cycleLength])
    stay between 0 and [timeout]. *)
Lemma cycle_plan_in_range timeout i :
  0 <= i < fst (cycle_plan timeout) ->
  0 <= fst (cycle_plan timeout) <= timeout /\
  1 <= snd (cycle_plan timeout) <= 20 /\
  0 <= i * snd (cycle_plan timeout) <= timeout.
Proof.
  unfold cycle_plan. destruct (Z.leb_spec 20 timeout) as [Hge | Hlt]; cbn [fst snd].
  - rewrite Z.quot_div_nonneg by lia. intros Hi.
    pose proof (Z.div_mod timeout 20 ltac:(lia)).
    pose proof (Z.mod_pos_bound timeout 20 ltac:(lia)). lia.
  - lia.
Qed.

Lemma cycle_plan_short timeout :
  timeout < 20 -> cycle_plan timeout = (timeout, 1).
Proof.
  intros H. unfold cycle_plan.
  destruct (Z.leb_spec 20 timeout); [lia | reflexivity].
Qed.

Lemma cycle_plan_long timeout :
  20 <= timeout -> cycle_plan timeout = (timeout / 20, 20).
Proof.
  intros H. unfold cycle_plan.
  destruct (Z.leb_spec 20 timeout); [| lia].
  rewrite Z.quot_div_nonneg by lia. reflexivity.
Qed.

Section Loop.

Variables (client : SQS Session) (queueURL : string) (timeout cycles cycleLength : Z).

#[local] Notation "'loop' fuel i" :=
  (receive_loop fuel (Some client) queueURL timeout cycles cycleLength i)
  (at level 10, fuel at level 9, i at level 9, only parsing).

Lemma receive_loop_done fuel i e :
  cycles <= i ->
  exec (loop fuel i) e = ([], e, Returned (timed_out queueURL timeout)).
Proof.
  intros H. destruct fuel; simpl; destruct (Z.ltb_spec i cycles); try lia; reflexivity.
Qed.

Lemma receive_loop_error fuel i e out err :
  i < cycles ->
  answer handle (receive client queueURL cycleLength) (e |> wait_log queueURL i cycleLength)
    = (out, Some err) ->
  exec (loop (S fuel) i) e =
  ([wait_log queueURL i cycleLength @ e;
    receive client queueURL cycleLength @ (e |> wait_log queueURL i cycleLength)],
   e |> wait_log queueURL i cycleLength |> receive client queueURL cycleLength,
   Returned (failed err)).
Proof.
  intros Hlt Hans. simpl. destruct (Z.ltb_spec i cycles); [| lia].
  cbn -[wait_log receive]. rewrite Hans. reflexivity.
Qed.

Lemma receive_loop_empty fuel i e out :
  i < cycles ->
  answer handle (receive client queueURL cycleLength) (e |> wait_log queueURL i cycleLength)
    = (out, None) ->
  Messages out = [] ->
  exec (loop (S fuel) i) e =
  let r := exec (loop fuel (i + 1))
             (e |> wait_log queueURL i cycleLength |> receive client queueURL cycleLength) in
  (wait_log queueURL i cycleLength @ e
   :: receive client queueURL cycleLength @ (e |> wait_log queueURL i cycleLength)
   :: trace r, final r, result r).
Proof.
  intros Hlt Hans Hmsg. simpl. destruct (Z.ltb_spec i cycles); [| lia].
  cbn -[wait_log receive receive_loop]. rewrite Hans, Hmsg. reflexivity.
Qed.

Lemma receive_loop_message fuel i e out m0 more :
  i < cycles ->
  answer handle (receive client queueURL cycleLength) (e |> wait_log queueURL i cycleLength)
    = (out, None) ->
  Messages out = m0 :: more ->
  exec (loop (S fuel) i) e =
  let r := exec (deliver_first out queueURL)
             (e |> wait_log queueURL i cycleLength |> receive client queueURL cycleLength) in
  (wait_log queueURL i cycleLength @ e
   :: receive client queueURL cycleLength @ (e |> wait_log queueURL i cycleLength)
   :: trace r, final r, result r).
Proof.
  intros Hlt Hans Hmsg. simpl. destruct (Z.ltb_spec i cycles); [| lia].
  cbn -[wait_log receive receive_loop deliver_first]. rewrite Hans, Hmsg. reflexivity.
Qed.

Lemma receive_loop_quiet fuel :
  forall i e,
    (Z.to_nat (cycles - i) <= fuel)%nat ->
    no_message_no_error (trace (exec (loop fuel i) e)) = true ->
    result (exec (loop fuel i) e) = Returned (timed_out queueURL timeout) /\
    receive_waits (trace (exec (loop fuel i) e))
    = repeat (Some cycleLength) (Z.to_nat (cycles - i)).
Proof.
  induction fuel as [| fuel IH]; intros i e Hfuel Hquiet.
  - rewrite receive_loop_done by lia.
    replace (Z.to_nat (cycles - i)) with 0%nat by lia. split; reflexivity.
  - destruct (Z.lt_ge_cases i cycles) as [Hlt | Hge].
    2:{ rewrite receive_loop_done by lia.
        replace (Z.to_nat (cycles - i)) with 0%nat by lia. split; reflexivity. }
    destruct (answer handle (receive client queueURL cycleLength)
                (e |> wait_log queueURL i cycleLength)) as [out [err |]] eqn:Hans.
    + rewrite (receive_loop_error fuel i e out err Hlt Hans), trace_mk in Hquiet.
      rewrite 2 no_message_no_error_cons in Hquiet. unfold receive in *.
      rewrite receive_answer_perform_receive, Hans in Hquiet. discriminate.
    + destruct (Messages out) as [| m0 more] eqn:Hmsg.
      * rewrite (receive_loop_empty fuel i e out Hlt Hans Hmsg) in *.
        cbv zeta in *. rewrite trace_mk, result_mk in *.
        rewrite 2 no_message_no_error_cons in Hquiet. unfold receive in *.
        rewrite receive_answer_perform_receive, Hans, Hmsg in Hquiet.
        destruct (IH (i + 1) _ ltac:(lia) Hquiet) as [Hres Hwaits].
        split; [exact Hres |].
        rewrite 2 receive_waits_cons, Hwaits.
        replace (Z.to_nat (cycles - i)) with (S (Z.to_nat (cycles - (i + 1)))) by lia.
        reflexivity.
      * rewrite (receive_loop_message fuel i e out m0 more Hlt Hans Hmsg) in Hquiet.
        cbv zeta in Hquiet. rewrite trace_mk in Hquiet.
        rewrite 2 no_message_no_error_cons in Hquiet. unfold receive in *.
        rewrite receive_answer_perform_receive, Hans, Hmsg in Hquiet. discriminate.
Qed.

(** The recursion budget [Z.to_nat cycles] is enough: the loop never stops
    for want of it. *)
Lemma receive_loop_fuel fuel :
  forall i e,
    (Z.to_nat (cycles - i) <= fuel)%nat ->
    result (exec (loop fuel i) e) <> Aborted OutOfFuel.
Proof.
  induction fuel as [| fuel IH]; intros i e Hfuel.
  - rewrite receive_loop_done by lia. discriminate.
  - destruct (Z.lt_ge_cases i cycles) as [Hlt | Hge].
    2:{ rewrite receive_loop_done by lia. discriminate. }
    destruct (answer handle (receive client queueURL cycleLength)
                (e |> wait_log queueURL i cycleLength)) as [out [err |]] eqn:Hans.
    + rewrite (receive_loop_error fuel i e out err Hlt Hans). discriminate.
    + destruct (Messages out) as [| m0 more] eqn:Hmsg.
      * rewrite (receive_loop_empty fuel i e out Hlt Hans Hmsg).
        cbv zeta. rewrite result_mk. apply IH. lia.
      * rewrite (receive_loop_message fuel i e out m0 more Hlt Hans Hmsg).
        cbv zeta. rewrite result_mk. apply deliver_first_fuel.
Qed.

Lemma receive_loop_after_error fuel :
  forall i e pre ev post out err,
    (Z.to_nat (cycles - i) <= fuel)%nat ->
    trace (exec (loop fuel i) e) = (pre ++ ev :: post)%list ->
    receive_answer ev = Some (out, Some err) ->
    post = [] /\ result (exec (loop fuel i) e) = Returned (failed err).
Proof.
  induction fuel as [| fuel IH]; intros i e pre ev post out err Hfuel Htr Hev.
  - rewrite receive_loop_done in Htr by lia. destruct (nil_split _ _ _ Htr).
  - destruct (Z.lt_ge_cases i cycles) as [Hlt | Hge].
    2:{ rewrite receive_loop_done in Htr by lia. destruct (nil_split _ _ _ Htr). }
    destruct (answer handle (receive client queueURL cycleLength)
                (e |> wait_log queueURL i cycleLength)) as [out' [err' |]] eqn:Hans.
    + rewrite (receive_loop_error fuel i e out' err' Hlt Hans) in *.
      cbv zeta in *. rewrite trace_mk, result_mk in *.
      split_head Htr; [discriminate |].
      split_head Htr.
      * unfold receive in *. rewrite receive_answer_perform_receive, Hans in Hev.
        inversion Hev; subst. auto.
      * destruct (nil_split _ _ _ Htr).
    + destruct (Messages out') as [| m0 more] eqn:Hmsg.
      * rewrite (receive_loop_empty fuel i e out' Hlt Hans Hmsg) in *.
        cbv zeta in *. rewrite trace_mk, result_mk in *.
        split_head Htr; [discriminate |].
        split_head Htr.
        -- unfold receive in *. rewrite receive_answer_perform_receive, Hans in Hev.
           discriminate.
        -- eapply IH; eauto. lia.
      * rewrite (receive_loop_message fuel i e out' m0 more Hlt Hans Hmsg) in *.
        cbv zeta in *. rewrite trace_mk, result_mk in *.
        split_head Htr; [discriminate |].
        split_head Htr.
        -- unfold receive in *. rewrite receive_answer_perform_receive, Hans in Hev.
           discriminate.
        -- exfalso.
           destruct (deliver_first_trace out' queueURL
                       (e |> wait_log queueURL i cycleLength
                          |> receive client queueURL cycleLength)) as [Hd | [id Hd]];
             rewrite Hd in Htr.
           ++ destruct (nil_split _ _ _ Htr).
           ++ split_head Htr;
                [discriminate | destruct (nil_split _ _ _ Htr)].
Qed.

Lemma receive_loop_after_message fuel :
  forall i e pre ev post out m0 more,
    (Z.to_nat (cycles - i) <= fuel)%nat ->
    trace (exec (loop fuel i) e) = (pre ++ ev :: post)%list ->
    receive_answer ev = Some (out, None) ->
    Messages out = m0 :: more ->
    exists e',
      post = trace (exec (deliver_first out queueURL) e') /\
      result (exec (loop fuel i) e) = result (exec (deliver_first out queueURL) e').
Proof.
  induction fuel as [| fuel IH]; intros i e pre ev post out m0 more Hfuel Htr Hev Hout.
  - rewrite receive_loop_done in Htr by lia. destruct (nil_split _ _ _ Htr).
  - destruct (Z.lt_ge_cases i cycles) as [Hlt | Hge].
    2:{ rewrite receive_loop_done in Htr by lia. destruct (nil_split _ _ _ Htr). }
    destruct (answer handle (receive client queueURL cycleLength)
                (e |> wait_log queueURL i cycleLength)) as [out' [err' |]] eqn:Hans.
    + rewrite (receive_loop_error fuel i e out' err' Hlt Hans) in *.
      cbv zeta in *. rewrite trace_mk, result_mk in *.
      split_head Htr; [discriminate |].
      split_head Htr.
      * unfold receive in *. rewrite receive_answer_perform_receive, Hans in Hev.
        discriminate.
      * destruct (nil_split _ _ _ Htr).
    + destruct (Messages out') as [| m0' more'] eqn:Hmsg.
      * rewrite (receive_loop_empty fuel i e out' Hlt Hans Hmsg) in *.
        cbv zeta in *. rewrite trace_mk, result_mk in *.
        split_head Htr; [discriminate |].
        split_head Htr.
        -- unfold receive in *. rewrite receive_answer_perform_receive, Hans in Hev.
           inversion Hev; subst. congruence.
        -- eapply IH; eauto. lia.
      * rewrite (receive_loop_message fuel i e out' m0' more' Hlt Hans Hmsg) in *.
        cbv zeta in *. rewrite trace_mk, result_mk in *.
        split_head Htr; [discriminate |].
        split_head Htr.
        -- unfold receive in *. rewrite receive_answer_perform_receive, Hans in Hev.
           inversion Hev; subst. eexists. split; reflexivity.
        -- exfalso.
           destruct (deliver_first_trace out' queueURL
                       (e |> wait_log queueURL i cycleLength
                          |> receive client queueURL cycleLength)) as [Hd | [id Hd]];
             rewrite Hd in Htr.
           ++ destruct (nil_split _ _ _ Htr).
           ++ split_head Htr; [discriminate | destruct (nil_split _ _ _ Htr)].
Qed.

End Loop.

Lemma WaitForQueueMessage_run awsRegion queueURL timeout s rest e :
  exec (WaitForQueueMessage awsRegion queueURL timeout (s :: rest)) e =
  match answer handle (NewAuthenticatedSession awsRegion s) e with
  | (_, Some err) =>
    ([NewAuthenticatedSession awsRegion s @ e],
     e |> NewAuthenticatedSession awsRegion s, Returned (failed err))
  | (sess, None) =>
    let r := exec (receive_loop (Z.to_nat (fst (cycle_plan timeout)))
                     (Some (sqs_New sess)) queueURL timeout
                     (fst (cycle_plan timeout)) (snd (cycle_plan timeout)) 0)
               (e |> NewAuthenticatedSession awsRegion s) in
    (NewAuthenticatedSession awsRegion s @ e :: trace r, final r, result r)
  end.
Proof.
  unfold WaitForQueueMessage. cbn -[cycle_plan receive_loop].
  destruct (answer handle (NewAuthenticatedSession awsRegion s) e) as [sess [err |]].
  - reflexivity.
  - cbn -[cycle_plan receive_loop]. destruct (cycle_plan timeout) as [cycles cycleLength].
    reflexivity.
Qed.

Lemma WaitForQueueMessage_fuel awsRegion queueURL timeout sessExists e :
  result (exec (WaitForQueueMessage awsRegion queueURL timeout sessExists) e)
  <> Aborted OutOfFuel.
Proof.
  destruct sessExists as [| s rest]; [discriminate |].
  rewrite WaitForQueueMessage_run.
  destruct (answer handle (NewAuthenticatedSession awsRegion s) e) as [sess [err |]].
  - discriminate.
  - cbv zeta. rewrite result_mk. apply receive_loop_fuel. lia.
Qed.

Lemma session_granted_cons (ev : event Session) tr :
  session_granted (ev :: tr) =
  match session_answer ev with
  | Some (_, Some _) => false
  | _ => true
  end && session_granted tr.
Proof. reflexivity. Qed.

(** Without an early exit the loop runs [cycles] times, each receive call
    waiting [cycleLength] seconds, and the waiter reports the timeout. *)
Lemma WaitForQueueMessage_quiet awsRegion queueURL timeout s rest e :
  let r := exec (WaitForQueueMessage awsRegion queueURL timeout (s :: rest)) e in
  session_granted (trace r) = true ->
  no_message_no_error (trace r) = true ->
  result r = Returned (timed_out queueURL timeout) /\
  receive_waits (trace r)
  = repeat (Some (snd (cycle_plan timeout))) (Z.to_nat (fst (cycle_plan timeout))).
Proof.
  cbv zeta. rewrite WaitForQueueMessage_run.
  destruct (answer handle (NewAuthenticatedSession awsRegion s) e) as [sess [err |]] eqn:Hans.
  - rewrite trace_mk, session_granted_cons.
    change (session_answer (NewAuthenticatedSession awsRegion s @ e))
      with (Some (answer handle (NewAuthenticatedSession awsRegion s) e)).
    rewrite Hans. discriminate.
  - cbv zeta. rewrite trace_mk, result_mk. intros _ Hquiet.
    rewrite no_message_no_error_cons in Hquiet.
    change (receive_answer (NewAuthenticatedSession awsRegion s @ e)) with
      (@None (ReceiveMessageOutput * option error)) in Hquiet.
    apply receive_loop_quiet in Hquiet; [| lia].
    rewrite Z.sub_0_r in Hquiet. exact Hquiet.
Qed.

(** C1 (as the code has it): for 1 <= timeout <= 20 the waiter plans
    [timeout] cycles of one second when [timeout < 20], and one cycle of 20
    seconds when [timeout = 20]; once the client is there and no receive call
    brings a message or an error, it performs exactly that many receive calls,
    each with that wait bound, so that the bounds add up to [timeout]. *)
Theorem WaitForQueueMessage_short_timeout awsRegion queueURL timeout s rest e :
  1 <= timeout <= 20 ->
  let r := exec (WaitForQueueMessage awsRegion queueURL timeout (s :: rest)) e in
  session_granted (trace r) = true ->
  no_message_no_error (trace r) = true ->
  cycle_plan timeout = (if timeout =? 20 then (1, 20) else (timeout, 1)) /\
  receive_waits (trace r)
  = (if timeout =? 20 then [Some 20] else repeat (Some 1) (Z.to_nat timeout)) /\
  total_wait (trace r) = timeout.
Proof.
  intros Hrange r Hsess Hquiet.
  destruct (WaitForQueueMessage_quiet awsRegion queueURL timeout s rest e Hsess Hquiet)
    as [_ Hwaits].
  fold r in Hwaits. unfold total_wait.
  destruct (Z.eqb_spec timeout 20) as [-> | Hne].
  - rewrite Hwaits. repeat split; reflexivity.
  - rewrite cycle_plan_short in * by lia. cbn [fst snd] in Hwaits.
    rewrite Hwaits, sum_repeat. repeat split; lia.
Qed.

(** C2: for timeout > 20 the waiter, once the client is there and no receive
    call brings a message or an error, performs exactly floor(timeout / 20)
    receive calls, each with a wait bound of 20 seconds; the remainder of the
    division is not waited for, and the timeout is reported: the response
    has no handle, no body, and the error [ReceiveMessageTimeout] with the
    queue URL and the timeout asked for.  With timeout = 25 that is one call
    of 20 seconds. *)
Theorem WaitForQueueMessage_long_timeout awsRegion queueURL timeout s rest e :
  20 < timeout ->
  let r := exec (WaitForQueueMessage awsRegion queueURL timeout (s :: rest)) e in
  session_granted (trace r) = true ->
  no_message_no_error (trace r) = true ->
  cycle_plan timeout = (timeout / 20, 20) /\
  receive_waits (trace r) = repeat (Some 20) (Z.to_nat (timeout / 20)) /\
  total_wait (trace r) = timeout - timeout mod 20 /\
  result r = Returned {| ReceiptHandle := ""; MessageBody := "";
                         Error := Some (ReceiveMessageTimeout queueURL timeout) |} /\
  (timeout = 25 -> receive_waits (trace r) = [Some 20]).
Proof.
  intros Hrange r Hsess Hquiet.
  destruct (WaitForQueueMessage_quiet awsRegion queueURL timeout s rest e Hsess Hquiet)
    as [Hres Hwaits].
  fold r in Hwaits, Hres. rewrite cycle_plan_long in * by lia.
  cbn [fst snd] in Hwaits.
  repeat split; auto.
  - unfold total_wait. rewrite Hwaits, sum_repeat.
    pose proof (Z.div_mod timeout 20 ltac:(lia)).
    pose proof (Z.div_pos timeout 20). lia.
  - intros ->. rewrite Hwaits. reflexivity.
Qed.

(** C3: when a receive call of the run comes back with an error, nothing is
    performed after that call (no further attempt, no retry) and the waiter
    returns the response whose [Error] is this very error, with no handle and
    no body, whatever the calls before it brought. *)
Theorem WaitForQueueMessage_transport_error awsRegion queueURL timeout sessExists e
    pre ev post out err :
  let r := exec (WaitForQueueMessage awsRegion queueURL timeout sessExists) e in
  trace r = (pre ++ ev :: post)%list ->
  receive_answer ev = Some (out, Some err) ->
  post = [] /\
  result r = Returned {| ReceiptHandle := ""; MessageBody := ""; Error := Some err |}.
Proof.
  cbv zeta. destruct sessExists as [| s rest]; [intros H; destruct (nil_split _ _ _ H) |].
  rewrite WaitForQueueMessage_run.
  destruct (answer handle (NewAuthenticatedSession awsRegion s) e) as [sess [err' |]];
    cbv zeta; rewrite trace_mk, result_mk; intros Htr Hev.
  - split_head Htr; [discriminate | destruct (nil_split _ _ _ Htr)].
  - split_head Htr; [discriminate |].
    eapply receive_loop_after_error; eauto. lia.
Qed.


(** What lines 326-327 do with the first message of an answer: a [nil]
    message or a [nil] id stops the run before the log line, a [nil] handle
    or body after it. *)
Lemma deliver_first_cases out queueURL e m0 more :
  Messages out = m0 :: more ->
  let r := exec (deliver_first out queueURL) e in
  match m0 with
  | None => trace r = [] /\ result r = Aborted NilDereference
  | Some m =>
    match MessageId m with
    | None => trace r = [] /\ result r = Aborted NilDereference
    | Some id =>
      trace r = [logger_Logf "Message %s received on %s" [id; queueURL] @ e] /\
      result r = match ReceiptHandle_ m, Body m with
                 | Some handle', Some body =>
                   Returned {| ReceiptHandle := handle'; MessageBody := body; Error := None |}
                 | _, _ => Aborted NilDereference
                 end
    end
  end.
Proof.
  intros Hm. cbv zeta. unfold deliver_first. rewrite Hm.
  destruct m0 as [m |]; [| split; reflexivity]. cbn.
  destruct (MessageId m) as [id |]; [| split; reflexivity]. cbn.
  destruct (ReceiptHandle_ m); cbn; [| split; reflexivity].
  destruct (Body m); split; reflexivity.
Qed.

Lemma perform_log format args e :
  exists t0 t1,
    logger_Logf format args @ e = Ev t0 (logger_Logf format args) tt t1.
Proof.
  unfold perform. destruct (answer handle (logger_Logf format args) e).
  do 2 eexists. reflexivity.
Qed.

(** C4 (what the code does): when a receive call of the run comes back with a
    message, the first of the answer, no attempt follows.  If that message
    and its id, receipt handle and body are all present, the one call that
    follows is the log line that names the id, and the waiter returns the
    handle and the body.  If the message or its id is [nil], the waiter
    returns nothing: the run stops right after the receive call with a nil
    dereference, raised by the log line; if the handle or the body is [nil],
    it stops with a nil dereference after the log line. *)
Theorem WaitForQueueMessage_message awsRegion queueURL timeout sessExists e
    pre ev post out m0 more :
  let r := exec (WaitForQueueMessage awsRegion queueURL timeout sessExists) e in
  let logged id :=
    exists t0 t1,
      post = [Ev t0 (logger_Logf "Message %s received on %s" [id; queueURL]) tt t1] in
  trace r = (pre ++ ev :: post)%list ->
  receive_answer ev = Some (out, None) ->
  Messages out = m0 :: more ->
  (forall m id handle' body,
      m0 = Some m -> MessageId m = Some id ->
      ReceiptHandle_ m = Some handle' -> Body m = Some body ->
      result r = Returned {| ReceiptHandle := handle'; MessageBody := body; Error := None |} /\
      logged id) /\
  (m0 = None -> result r = Aborted NilDereference /\ post = []) /\
  (forall m, m0 = Some m -> MessageId m = None ->
      result r = Aborted NilDereference /\ post = []) /\
  (forall m id, m0 = Some m -> MessageId m = Some id ->
      ReceiptHandle_ m = None \/ Body m = None ->
      result r = Aborted NilDereference /\ logged id).
Proof.
  cbv zeta. intros Htr Hev Hout.
  assert (exists e',
             post = trace (exec (deliver_first out queueURL) e') /\
             result (exec (WaitForQueueMessage awsRegion queueURL timeout sessExists) e)
             = result (exec (deliver_first out queueURL) e')) as (e' & Hpost & Hres).
  { destruct sessExists as [| s rest]; [destruct (nil_split _ _ _ Htr) |].
    rewrite WaitForQueueMessage_run in *.
    destruct (answer handle (NewAuthenticatedSession awsRegion s) e) as [sess [err' |]];
      cbv zeta in *; rewrite trace_mk, result_mk in *.
    - split_head Htr; [discriminate | destruct (nil_split _ _ _ Htr)].
    - split_head Htr; [discriminate |].
      eapply receive_loop_after_message; eauto. lia. }
  pose proof (deliver_first_cases out queueURL e' m0 more Hout) as Hcases.
  cbv zeta in Hcases. rewrite Hres, Hpost.
  repeat apply conj.
  - intros m id handle' body -> Hid Hh Hb. rewrite Hid, Hh, Hb in Hcases.
    destruct Hcases as [Ht Hr]. split; [exact Hr |]. rewrite Ht.
    destruct (perform_log "Message %s received on %s" [id; queueURL] e') as (t0 & t1 & ->).
    exists t0, t1. reflexivity.
  - intros ->. destruct Hcases as [Ht Hr]. split; assumption.
  - intros m -> Hid. rewrite Hid in Hcases. destruct Hcases as [Ht Hr]. split; assumption.
  - intros m id -> Hid Hnil. rewrite Hid in Hcases. destruct Hcases as [Ht Hr].
    split.
    2:{ rewrite Ht.
        destruct (perform_log "Message %s received on %s" [id; queueURL] e') as (t0 & t1 & ->).
        exists t0, t1. reflexivity. }
    rewrite Hr. destruct Hnil as [-> | ->]; [reflexivity |].
    destruct (ReceiptHandle_ m); reflexivity.
Qed.

(** C5: when the client is there and every receive call of the run succeeds
    without a message, the waiter returns a response whose error is the
    structured [ReceiveMessageTimeout] with the queue URL and the timeout the
    caller asked for, which is no SDK error; handle and body are empty. *)
Theorem WaitForQueueMessage_timeout awsRegion queueURL timeout s rest e :
  let r := exec (WaitForQueueMessage awsRegion queueURL timeout (s :: rest)) e in
  session_granted (trace r) = true ->
  no_message_no_error (trace r) = true ->
  exists resp,
    result r = Returned resp /\
    ReceiptHandle resp = "" /\ MessageBody resp = "" /\
    Error resp = Some (ReceiveMessageTimeout queueURL timeout) /\
    (forall code message, Error resp <> Some (AwsError code message)).
Proof.
  intros r Hsess Hquiet.
  destruct (WaitForQueueMessage_quiet awsRegion queueURL timeout s rest e Hsess Hquiet)
    as [Hres _].
  exists (timed_out queueURL timeout). repeat split; auto.
  intros code message. discriminate.
Qed.

(** C6 (what the code does): called without a session argument, the
    operations stop with the run-time panic of [sessExists[0]] on an empty
    slice; the waiter and the client constructors do so before any call
    to the outside, and no session is ever requested. *)
Theorem omitted_session_aborts awsRegion queueURL timeout region iamClient dev e :
  exec (WaitForQueueMessage awsRegion queueURL timeout []) e
  = ([], e, Aborted (IndexOutOfRange 0 0)) /\
  exec (NewSqsClientE region []) e = ([], e, Aborted (IndexOutOfRange 0 0)) /\
  exec (NewIamClientE region []) e = ([], e, Aborted (IndexOutOfRange 0 0)) /\
  exec (GetIamCurrentUserName region []) e = ([], e, Aborted (IndexOutOfRange 0 0)) /\
  exec (GetIamCurrentUserArnE region []) e = ([], e, Aborted (IndexOutOfRange 0 0)) /\
  result (exec (EnableMfaDeviceE region iamClient (Some dev) []) e)
  = Aborted (IndexOutOfRange 0 0) /\
  filter_map session_answer
    (trace (exec (EnableMfaDeviceE region iamClient (Some dev) []) e)) = [].
Proof. repeat split; reflexivity. Qed.

(** Follow the program through every answer the world may give. *)
Ltac case_steps :=
  repeat (match goal with
  | |- context [match answer handle ?c ?e with _ => _ end] =>
    let err := fresh "err" in
    destruct (answer handle c e) as [? [err |]] eqn:?
  | |- context [deref ?p] => destruct p eqn:?
  | |- context [index ?l _] => destruct l eqn:?
  end; cbn -[Z.mul Second]).

(** A run of [EnableMfaDeviceE] that returns [nil] sleeps twice: 30 seconds,
    then 10 seconds. *)
Lemma EnableMfaDeviceE_sleeps region iamClient mfaDevice sessExists e :
  let r := exec (EnableMfaDeviceE region iamClient mfaDevice sessExists) e in
  result r = Returned None ->
  filter_map sleep_event (trace r) = [30 * Second; 10 * Second].
Proof.
  cbv zeta. unfold EnableMfaDeviceE, GetIamCurrentUserArnE, NewIamClientE.
  cbn -[Z.mul Second]. case_steps; try discriminate.
  reflexivity.
Qed.

Section Clock.

Hypothesis clock_monotone :
  forall (R : Type) (c : Call Session R) (e : Env), now e <= now (after handle c e).
Hypothesis sleep_elapses :
  forall (d : Z) (e : Env), now e + d <= now (after handle (time_Sleep d) e).

Ltac clock_facts :=
  repeat match goal with
  | |- context [after handle (time_Sleep ?d) ?e] =>
    lazymatch goal with
    | _ : now e + d <= now (after handle (time_Sleep d) e) |- _ => fail
    | _ => pose proof (sleep_elapses d e)
    end
  | |- context [@after _ _ handle ?R ?c ?e] =>
    lazymatch goal with
    | _ : now e <= now (after handle c e) |- _ => fail
    | _ => pose proof (clock_monotone R c e)
    end
  end.

(** C7: in a run of [EnableMfaDeviceE] that returns [nil], exactly two codes
    are generated and submitted in one enable call; the second generation
    starts, and the enable call is issued, at least 30 seconds after the first
    generation has returned. *)
Theorem EnableMfaDeviceE_settle_delay region iamClient mfaDevice sessExists e :
  let r := exec (EnableMfaDeviceE region iamClient mfaDevice sessExists) e in
  result r = Returned None ->
  exists t1s code1 t1e t2s code2 t2e tes input tee,
    filter_map otp_event (trace r)
    = [(t1s, (code1, None), t1e); (t2s, (code2, None), t2e)] /\
    filter_map enable_event (trace r) = [(tes, input, None, tee)] /\
    AuthenticationCode1 input = Some code1 /\
    AuthenticationCode2 input = Some code2 /\
    t1e + 30 * Second <= t2s /\
    t1e + 30 * Second <= tes.
Proof.
  cbv zeta. unfold EnableMfaDeviceE, GetIamCurrentUserArnE, NewIamClientE.
  cbn -[Z.mul Second]. case_steps; try discriminate.
  intros _. do 9 eexists.
  split; [reflexivity |]. split; [reflexivity |].
  split; [reflexivity |]. split; [reflexivity |].
  clock_facts. lia.
Qed.

(** C8: in a run of [EnableMfaDeviceE] that returns [nil], the function
    returns at least 10 seconds after the enable call has returned. *)
Theorem EnableMfaDeviceE_propagation_delay region iamClient mfaDevice sessExists e :
  let r := exec (EnableMfaDeviceE region iamClient mfaDevice sessExists) e in
  result r = Returned None ->
  exists tes input tee,
    filter_map enable_event (trace r) = [(tes, input, None, tee)] /\
    tee + 10 * Second <= now (final r).
Proof.
  cbv zeta. unfold EnableMfaDeviceE, GetIamCurrentUserArnE, NewIamClientE.
  cbn -[Z.mul Second]. case_steps; try discriminate.
  intros _. do 3 eexists.
  split; [reflexivity |].
  clock_facts. lia.
Qed.

End Clock.

Ltac use_answers H :=
  cbn -[Z.mul Second] in H;
  repeat match goal with
  | Heq : answer handle _ _ = _ |- _ => rewrite Heq in H
  end;
  cbn -[Z.mul Second] in H.

(** C9: when the creation call of the run comes back with an error,
    [CreateMfaDeviceE] returns [nil] and that error, and the run consists of
    the log line and the creation call: no session, no [GetUser], no code
    generation, no sleep. *)
Theorem CreateMfaDeviceE_creation_error region iamClient deviceName sessExists e
    ev out err :
  let r := exec (CreateMfaDeviceE region iamClient deviceName sessExists) e in
  In ev (trace r) ->
  create_answer ev = Some (out, Some err) ->
  result r = Returned (None, Some err) /\
  map kind_of (trace r) = [KLog; KCreate].
Proof.
  cbv zeta. unfold CreateMfaDeviceE, EnableMfaDeviceE, GetIamCurrentUserArnE, NewIamClientE.
  cbn -[Z.mul Second]. case_steps; intros Hin Hev; find_event Hin.
  all: use_answers Hev; try discriminate.
  all: inversion Hev; subst; auto.
Qed.

(** C10: when a step after the creation fails (the session or [GetUser] of
    the ARN resolution, a code generation, the enable call), the device has
    been created and [CreateMfaDeviceE] returns [nil] with that error: the
    descriptor, and with it the serial number, is not handed to the caller. *)
Theorem CreateMfaDeviceE_later_error region iamClient deviceName sessExists e ev err :
  let r := exec (CreateMfaDeviceE region iamClient deviceName sessExists) e in
  In ev (trace r) ->
  later_step (kind_of ev) = true ->
  step_error ev = Some err ->
  result r = Returned (None, Some err) /\
  exists ev0 out, In ev0 (trace r) /\ create_answer ev0 = Some (out, None).
Proof.
  cbv zeta. unfold CreateMfaDeviceE, EnableMfaDeviceE, GetIamCurrentUserArnE, NewIamClientE.
  cbn -[Z.mul Second]. case_steps; intros Hin Hkind Hev; find_event Hin.
  all: use_answers Hev; try discriminate.
  all: inversion Hev; subst; split; [reflexivity |].
  all: eexists; eexists; split; [right; left; reflexivity |].
  all: cbn; match goal with
            | Heq : answer handle (iam_CreateVirtualMFADevice _ _) _ = _ |- _ => rewrite Heq
            end; reflexivity.
Qed.

End Properties.

(** * The scripted world at work *)

Lemma Mock_clock_monotone (R : Type) (c : Call unit R) (w : Mock.World) :
  Mock.now w <= Mock.now (after Mock.handle c w).
Proof.
  unfold after, Mock.now.
  destruct c; cbn; try lia.
  unfold Mock.blocked.
  destruct (Mock.inbox w) as [| [out [err |]] more]; cbn;
    [| destruct (Messages out) | destruct (Messages out)]; cbn;
    destruct (WaitTimeSeconds input); lia.
Qed.

Lemma Mock_sleep_elapses (d : Z) (w : Mock.World) :
  Mock.now w + d <= Mock.now (after Mock.handle (time_Sleep d) w).
Proof. unfold after, Mock.now. cbn. lia. Qed.

(** Asked for 3 seconds on an empty queue, the waiter makes three receive
    calls of one second. *)
Lemma WaitForQueueMessage_short_timeout_witness :
  let r := Mock.exec (WaitForQueueMessage "eu-west-1" "jobs" 3 [None]) Mock.quiet in
  cycle_plan 3 = (3, 1) /\
  receive_waits (trace r) = [Some 1; Some 1; Some 1] /\
  total_wait (trace r) = 3.
Proof.
  apply (WaitForQueueMessage_short_timeout Mock.handle Mock.now
           "eu-west-1" "jobs" 3 None [] Mock.quiet).
  - lia.
  - reflexivity.
  - reflexivity.
Defined.

(** Asked for 5 seconds on an empty queue, the waiter does not make one
    receive call of 5 seconds: it makes five calls of one second. *)
Lemma WaitForQueueMessage_short_timeout_counterexample :
  let r := Mock.exec (WaitForQueueMessage "eu-west-1" "jobs" 5 [None]) Mock.quiet in
  (1 <= 5 <= 20 /\
   session_granted (trace r) = true /\
   no_message_no_error (trace r) = true) /\
  snd (cycle_plan 5) = 1 /\
  Z.min 5 20 = 5 /\
  receive_waits (trace r) = [Some 1; Some 1; Some 1; Some 1; Some 1] /\
  ~ (snd (cycle_plan 5) = Z.min 5 20 /\ receive_waits (trace r) = [Some 5]).
Proof.
  cbv zeta. repeat split; try reflexivity; try lia.
  intros [Hchunk _]. vm_compute in Hchunk. discriminate.
Qed.

(** Asked for 25 seconds on an empty queue, the waiter makes one receive
    call of 20 seconds and gives up. *)
Lemma WaitForQueueMessage_long_timeout_witness :
  let r := Mock.exec (WaitForQueueMessage "eu-west-1" "jobs" 25 [None]) Mock.quiet in
  cycle_plan 25 = (1, 20) /\
  receive_waits (trace r) = [Some 20] /\
  total_wait (trace r) = 20 /\
  result r = Returned {| ReceiptHandle := ""; MessageBody := "";
                         Error := Some (ReceiveMessageTimeout "jobs" 25) |} /\
  (25 = 25 -> receive_waits (trace r) = [Some 20]).
Proof.
  apply (WaitForQueueMessage_long_timeout Mock.handle Mock.now
           "eu-west-1" "jobs" 25 None [] Mock.quiet).
  - lia.
  - reflexivity.
  - reflexivity.
Defined.

(** An empty answer, then a throttled request: the second receive call is
    the last event of the run and its error is what the caller gets. *)
Lemma WaitForQueueMessage_transport_error_witness :
  let r := Mock.exec (WaitForQueueMessage "eu-west-1" "jobs" 3 [None]) Mock.failing_queue in
  skipn 5 (trace r) = [] /\
  result r = Returned {| ReceiptHandle := ""; MessageBody := "";
                         Error := Some (AwsError "RequestThrottled" "Rate exceeded") |}.
Proof.
  cbv zeta.
  pose (r := Mock.exec (WaitForQueueMessage "eu-west-1" "jobs" 3 [None]) Mock.failing_queue).
  apply (WaitForQueueMessage_transport_error Mock.handle Mock.now
           "eu-west-1" "jobs" 3 [None] Mock.failing_queue
           (firstn 4 (trace r))
           (Ev 1000000001 (receive (sqs_New (Some tt)) "jobs" 1)
               ({| Messages := [] |}, Some Mock.throttled) 1000000002)
           (skipn 5 (trace r))
           {| Messages := [] |} Mock.throttled).
  - reflexivity.
  - reflexivity.
Defined.

(** An empty answer, then a message.  With its id, handle and body the
    message is logged and its handle and body come back; without id the run
    ends in a nil dereference right after the receive call, although handle
    and body are there. *)
Lemma WaitForQueueMessage_message_witness :
  (let r := Mock.exec (WaitForQueueMessage "eu-west-1" "jobs" 3 [None]) Mock.busy_queue in
   result r = Returned {| ReceiptHandle := "rh-1"; MessageBody := "hello"; Error := None |} /\
   exists t0 t1,
     skipn 5 (trace r)
     = [Ev t0 (logger_Logf "Message %s received on %s" ["m-1"; "jobs"]) tt t1]) /\
  (let r := Mock.exec (WaitForQueueMessage "eu-west-1" "jobs" 3 [None])
              Mock.unlabelled_queue in
   result r = Aborted NilDereference /\ skipn 5 (trace r) = []).
Proof.
  cbv zeta. split.
  - pose (r := Mock.exec (WaitForQueueMessage "eu-west-1" "jobs" 3 [None]) Mock.busy_queue).
    exact (proj1 (WaitForQueueMessage_message Mock.handle Mock.now
                    "eu-west-1" "jobs" 3 [None] Mock.busy_queue
                    (firstn 4 (trace r))
                    (Ev 1000000001 (receive (sqs_New (Some tt)) "jobs" 1)
                        ({| Messages := [Some Mock.hello] |}, None) 1000000002)
                    (skipn 5 (trace r))
                    {| Messages := [Some Mock.hello] |} (Some Mock.hello) []
                    eq_refl eq_refl eq_refl)
             Mock.hello "m-1" "rh-1" "hello" eq_refl eq_refl eq_refl eq_refl).
  - pose (r := Mock.exec (WaitForQueueMessage "eu-west-1" "jobs" 3 [None])
                 Mock.unlabelled_queue).
    exact (proj1 (proj2 (proj2 (WaitForQueueMessage_message Mock.handle Mock.now
                    "eu-west-1" "jobs" 3 [None] Mock.unlabelled_queue
                    (firstn 4 (trace r))
                    (Ev 1000000001 (receive (sqs_New (Some tt)) "jobs" 1)
                        ({| Messages := [Some Mock.unlabelled] |}, None) 1000000002)
                    (skipn 5 (trace r))
                    {| Messages := [Some Mock.unlabelled] |} (Some Mock.unlabelled) []
                    eq_refl eq_refl eq_refl)))
             Mock.unlabelled eq_refl eq_refl).
Defined.

(** Five seconds on an empty queue end in the structured timeout. *)
Lemma WaitForQueueMessage_timeout_witness :
  let r := Mock.exec (WaitForQueueMessage "eu-west-1" "jobs" 5 [None]) Mock.quiet in
  exists resp,
    result r = Returned resp /\
    ReceiptHandle resp = "" /\ MessageBody resp = "" /\
    Error resp = Some (ReceiveMessageTimeout "jobs" 5) /\
    (forall code message, Error resp <> Some (AwsError code message)).
Proof.
  apply (WaitForQueueMessage_timeout Mock.handle Mock.now
           "eu-west-1" "jobs" 5 None [] Mock.quiet).
  - reflexivity.
  - reflexivity.
Defined.

(** On the virtual clock the two codes are taken 30 seconds apart. *)
Lemma EnableMfaDeviceE_settle_delay_witness :
  exists t1s code1 t1e t2s code2 t2e tes input tee,
    filter_map otp_event (trace Mock.enrollment)
    = [(t1s, (code1, None), t1e); (t2s, (code2, None), t2e)] /\
    filter_map enable_event (trace Mock.enrollment) = [(tes, input, None, tee)] /\
    AuthenticationCode1 input = Some code1 /\
    AuthenticationCode2 input = Some code2 /\
    t1e + 30 * Second <= t2s /\
    t1e + 30 * Second <= tes.
Proof.
  apply (EnableMfaDeviceE_settle_delay Mock.handle Mock.now
           Mock_clock_monotone Mock_sleep_elapses
           "eu-west-1" (Some (iam_New None)) (Some (Mock.device (Some "otp")))
           [None] Mock.quiet).
  reflexivity.
Defined.

(** On the virtual clock the flow returns 10 seconds after the enable call. *)
Lemma EnableMfaDeviceE_propagation_delay_witness :
  exists tes input tee,
    filter_map enable_event (trace Mock.enrollment) = [(tes, input, None, tee)] /\
    tee + 10 * Second <= Mock.now (final Mock.enrollment).
Proof.
  apply (EnableMfaDeviceE_propagation_delay Mock.handle Mock.now
           Mock_clock_monotone Mock_sleep_elapses
           "eu-west-1" (Some (iam_New None)) (Some (Mock.device (Some "otp")))
           [None] Mock.quiet).
  reflexivity.
Defined.

(** The identity service refuses the device: two events and the error. *)
Lemma CreateMfaDeviceE_creation_error_witness :
  let r := Mock.exec (CreateMfaDeviceE "eu-west-1" (Some (iam_New None)) "otp" [None])
             Mock.no_devices in
  result r = Returned (None, Some Mock.limit_exceeded) /\
  map kind_of (trace r) = [KLog; KCreate].
Proof.
  apply (CreateMfaDeviceE_creation_error Mock.handle Mock.now
           "eu-west-1" (Some (iam_New None)) "otp" [None] Mock.no_devices
           (Ev 0 (iam_CreateVirtualMFADevice (iam_New None)
                    {| VirtualMFADeviceName := Some "otp" |})
               ({| VirtualMFADevice_ := None |}, Some Mock.limit_exceeded) 1)
           {| VirtualMFADevice_ := None |} Mock.limit_exceeded).
  - right. left. reflexivity.
  - reflexivity.
Defined.

(** The identity service creates the device and refuses the codes: the
    caller gets the error and no descriptor. *)
Lemma CreateMfaDeviceE_later_error_witness :
  let r := Mock.exec (CreateMfaDeviceE "eu-west-1" (Some (iam_New None)) "otp" [None])
             Mock.no_enabling in
  result r = Returned (None, Some Mock.invalid_code) /\
  exists ev0 out, In ev0 (trace r) /\ create_answer ev0 = Some (out, None).
Proof.
  apply (CreateMfaDeviceE_later_error Mock.handle Mock.now
           "eu-west-1" (Some (iam_New None)) "otp" [None] Mock.no_enabling
           (nth 9 (trace (Mock.exec (CreateMfaDeviceE "eu-west-1" (Some (iam_New None))
                                        "otp" [None]) Mock.no_enabling))
                (Ev 0 (time_Sleep 0) tt 0))
           Mock.invalid_code).
  - do 9 right. left. reflexivity.
  - reflexivity.
  - reflexivity.
Defined.

(** * More of iam.go and sqs.go *)

Section MoreProperties.

Context {Session Env : Type}.
Variable handle : forall R : Type, Call Session R -> Env -> Env * R.
Variable now : Env -> Z.
Variable defaultRegion : string.

#[local] Notation "'exec'" := (run handle now) (only parsing).
#[local] Notation "c @ e" := (perform handle now c e) (at level 40, only parsing).
#[local] Notation "e |> c" := (after handle c e) (at level 41, left associativity, only parsing).

(** Follow a program through every answer the world may give. *)
Ltac follow :=
  repeat (match goal with
  | |- context [match answer handle ?c ?e with _ => _ end] =>
    let err := fresh "err" in
    destruct (answer handle c e) as [? [err |]] eqn:?
  | |- context [deref ?p] => destruct p eqn:?
  | |- context [index ?l _] => destruct l eqn:?
  end; cbn -[Z.mul Second]).

Ltac recall H :=
  cbn -[Z.mul Second] in H;
  repeat match goal with
  | Heq : answer handle _ _ = _ |- _ => rewrite Heq in H
  end;
  cbn -[Z.mul Second] in H.

Ltac recall_goal :=
  repeat match goal with
  | Heq : answer handle _ _ = _ |- _ => rewrite Heq
  end.

(** Running [bind m f]: run [m], then [f] on its value in the world it
    left. *)
Lemma run_bind {A B : Type} (m : prog Session A) (f : A -> prog Session B) :
  forall e,
    exec (bind m f) e =
    match result (exec m e) with
    | Returned a =>
      let r2 := exec (f a) (final (exec m e)) in
      ((trace (exec m e) ++ trace r2)%list, final r2, result r2)
    | Aborted p => (trace (exec m e), final (exec m e), Aborted p)
    end.
Proof.
  induction m as [a | p | R c k IH]; intros e; simpl.
  - unfold trace, final, result; simpl.
    destruct (exec (f a) e) as [[tr e'] o]. reflexivity.
  - reflexivity.
  - rewrite IH. unfold result, trace, final; simpl.
    destruct (snd (exec (k (answer handle c e)) (after handle c e))); reflexivity.
Qed.

Lemma fatal_wrapper {A : Type}
    (f : list (ptr Session) -> prog Session (A * option error)) s rest e :
  exec (bind (index (s :: rest) 0)
          (fun s0 => bind (f [s0])
             (fun x => let (out, err) := x in
                       match err with Some e => t_Fatal e | None => Ret out end))) e
  = (trace (exec (f [s]) e), final (exec (f [s]) e), or_fatal (result (exec (f [s]) e))).
Proof.
  cbn [index nth_error bind]. rewrite run_bind.
  destruct (exec (f [s]) e) as [[tr e'] [[a [err |]] | p]];
    unfold trace, final, result; cbn; rewrite ?app_nil_r; reflexivity.
Qed.

(** X1: the fatal wrappers of iam.go (and [NewSqsClient]) perform the calls
    of the function they wrap, on the first session argument; they return its
    value when it reports no error and stop the test with its error
    otherwise. *)
Theorem iam_wrappers_fatal region iamClient mfaDevice deviceName s rest e :
  exec (GetIamCurrentUserName defaultRegion (s :: rest)) e
  = (let r := exec (GetIamCurrentUserNameE defaultRegion [s]) e in
     (trace r, final r, or_fatal (result r))) /\
  exec (GetIamCurrentUserArn defaultRegion (s :: rest)) e
  = (let r := exec (GetIamCurrentUserArnE defaultRegion [s]) e in
     (trace r, final r, or_fatal (result r))) /\
  exec (CreateMfaDevice defaultRegion iamClient deviceName (s :: rest)) e
  = (let r := exec (CreateMfaDeviceE defaultRegion iamClient deviceName [s]) e in
     (trace r, final r, or_fatal (result r))) /\
  exec (EnableMfaDevice defaultRegion iamClient mfaDevice (s :: rest)) e
  = (let r := exec (EnableMfaDeviceE defaultRegion iamClient mfaDevice [s]) e in
     (trace r, final r, or_fatal_unit (result r))) /\
  exec (NewIamClient region (s :: rest)) e
  = (let r := exec (NewIamClientE region [s]) e in
     (trace r, final r, or_fatal (result r))) /\
  exec (NewSqsClient region (s :: rest)) e
  = (let r := exec (NewSqsClientE region [s]) e in
     (trace r, final r, or_fatal (result r))).
Proof.
  cbv zeta. repeat split.
  - apply (fatal_wrapper (GetIamCurrentUserNameE defaultRegion)).
  - apply (fatal_wrapper (GetIamCurrentUserArnE defaultRegion)).
  - apply (fatal_wrapper (CreateMfaDeviceE defaultRegion iamClient deviceName)).
  - unfold EnableMfaDevice. cbn [index nth_error bind]. rewrite run_bind.
    destruct (exec (EnableMfaDeviceE defaultRegion iamClient mfaDevice [s]) e)
      as [[tr e'] [[err |] | p]];
      unfold trace, final, result; cbn; rewrite ?app_nil_r; reflexivity.
  - apply (fatal_wrapper (NewIamClientE region)).
  - apply (fatal_wrapper (NewSqsClientE region)).
Qed.

(** X2: [GetIamCurrentUserArnE] asks for a session in [defaultRegion] with
    the caller's session pointer.  With an error it returns the empty string,
    and the error is that of the last call it made; without, it returns the
    [Arn] of the user that [GetUser], called through a client of that session,
    answered. *)
Theorem GetIamCurrentUserArnE_returns s rest e v oerr :
  let r := exec (GetIamCurrentUserArnE defaultRegion (s :: rest)) e in
  result r = Returned (v, oerr) ->
  match oerr with
  | Some err =>
    v = "" /\ exists pre ev, trace r = (pre ++ [ev])%list /\ step_error ev = Some err
  | None =>
    exists sess out user,
      filter_map session_event (trace r) = [(defaultRegion, s, (sess, None))] /\
      filter_map getuser_event (trace r) = [(iam_New sess, (out, None))] /\
      User_ out = Some user /\ Arn user = Some v
  end.
Proof.
  cbv zeta. unfold GetIamCurrentUserArnE, NewIamClientE.
  cbn -[Z.mul Second]. follow; intros Hres; inversion Hres; subst.
  - split; [reflexivity |]. eexists []. eexists. split; [reflexivity |].
    cbn -[answer]. rewrite Heqp. reflexivity.
  - split; [reflexivity |]. eexists [_]. eexists. split; [reflexivity |].
    cbn -[answer]. rewrite Heqp0. reflexivity.
  - do 3 eexists. cbn -[answer]. repeat split; eauto.
Qed.

(** X3: [GetIamCurrentUserNameE] performs the same calls as
    [GetIamCurrentUserArnE] and fails with the same errors; where it
    succeeds it returns the [UserName] of the user [GetUser] answered. *)
Theorem GetIamCurrentUserNameE_like_ArnE sessExists e :
  let rn := exec (GetIamCurrentUserNameE defaultRegion sessExists) e in
  let ra := exec (GetIamCurrentUserArnE defaultRegion sessExists) e in
  trace rn = trace ra /\ final rn = final ra /\
  (forall err, result rn = Returned ("", Some err) <-> result ra = Returned ("", Some err)) /\
  (forall v, result rn = Returned (v, None) ->
     exists client out user,
       filter_map getuser_event (trace rn) = [(client, (out, None))] /\
       User_ out = Some user /\ UserName_ user = Some v).
Proof.
  cbv zeta. unfold GetIamCurrentUserNameE, GetIamCurrentUserArnE, NewIamClientE.
  cbn -[Z.mul Second].
  destruct sessExists as [| s rest]; cbn.
  { repeat split; intros; discriminate. }
  destruct (answer handle (NewAuthenticatedSession defaultRegion s) e)
    as [sess [err |]] eqn:Hs; cbn.
  { repeat split; intros; try discriminate; auto. }
  destruct (answer handle (iam_GetUser (iam_New sess))
              (e |> NewAuthenticatedSession defaultRegion s)) as [out [err |]] eqn:Hg; cbn.
  { repeat split; intros; try discriminate; auto. }
  destruct (User_ out) as [user |] eqn:Hu; cbn.
  2:{ repeat split; intros; discriminate. }
  repeat split.
  - destruct (UserName_ user), (Arn user); reflexivity.
  - destruct (UserName_ user), (Arn user); reflexivity.
  - destruct (UserName_ user), (Arn user); cbn; discriminate.
  - destruct (UserName_ user), (Arn user); cbn; discriminate.
  - intros v Hv. destruct (UserName_ user) as [name |] eqn:Hn; cbn in Hv; [| discriminate].
    inversion Hv; subst. exists (iam_New sess), out, user.
    destruct (Arn user); cbn -[answer]; rewrite ?Hs, ?Hg; repeat split; auto.
Qed.

Ltac pick_event H :=
  repeat (destruct H as [H | H]; [subst; try discriminate |]); try contradiction.

(** X4: whenever [EnableMfaDeviceE] issues the enable call, it does so
    through the client the caller passed, for the serial number of the
    caller's device, and gives as user name the ARN of the current user, which
    it has fetched through a client of its own, built from a session requested
    for [defaultRegion] with the caller's first session pointer. *)
Theorem EnableMfaDeviceE_request iamClient mfaDevice sessExists e ev t0 input oerr t1 :
  let r := exec (EnableMfaDeviceE defaultRegion iamClient mfaDevice sessExists) e in
  In ev (trace r) ->
  enable_event ev = Some (t0, input, oerr, t1) ->
  exists client dev s rest sess out user,
    iamClient = Some client /\ enable_client ev = Some client /\
    mfaDevice = Some dev /\ SerialNumber_ input = SerialNumber dev /\
    sessExists = s :: rest /\
    filter_map session_event (trace r) = [(defaultRegion, s, (sess, None))] /\
    filter_map getuser_event (trace r) = [(iam_New sess, (out, None))] /\
    User_ out = Some user /\ UserName input = Arn user.
Proof.
  cbv zeta. unfold EnableMfaDeviceE, GetIamCurrentUserArnE, NewIamClientE.
  cbn -[Z.mul Second]. follow; intros Hin Hev; pick_event Hin.
  all: cbn -[answer] in Hev; inversion Hev; subst.
  all: do 7 eexists; cbn -[answer]; repeat split; eauto.
Qed.

(** X5: [EnableMfaDeviceE] fails fast.  A call that comes back with an error
    is the last thing the run does, and its error is what the function
    returns; and an error the function returns is always that of the last
    call it made. *)
Theorem EnableMfaDeviceE_fail_fast iamClient mfaDevice sessExists e err :
  let r := exec (EnableMfaDeviceE defaultRegion iamClient mfaDevice sessExists) e in
  (forall ev, In ev (trace r) -> step_error ev = Some err ->
     result r = Returned (Some err) /\ trace r = (removelast (trace r) ++ [ev])%list) /\
  (result r = Returned (Some err) ->
     exists ev, trace r = (removelast (trace r) ++ [ev])%list /\ step_error ev = Some err).
Proof.
  cbv zeta. unfold EnableMfaDeviceE, GetIamCurrentUserArnE, NewIamClientE.
  cbn -[Z.mul Second]. follow; (split; [intros ev Hin Hev | intros Hres]).
  all: try (pick_event Hin; recall Hev; try discriminate;
            inversion Hev; subst; split; reflexivity).
  all: try discriminate.
  all: inversion Hres; subst; eexists; (split; [reflexivity |]).
  all: cbn -[answer Z.mul Second]; recall_goal; reflexivity.
Qed.

(** X6: once the device is created, [CreateMfaDeviceE] is
    [EnableMfaDeviceE] on the created descriptor, with the caller's client
    and first session pointer, in the world the creation left: the calls are
    those of the enrollment after the log line and the creation, and the
    descriptor is returned exactly when the enrollment returns [nil]. *)
Theorem CreateMfaDeviceE_then_enable client deviceName s rest e out :
  let log := logger_Logf "Creating an MFA device called %s" [deviceName] in
  let create := iam_CreateVirtualMFADevice client
                  {| VirtualMFADeviceName := aws_String deviceName |} in
  answer handle create (e |> log) = (out, None) ->
  let r := exec (CreateMfaDeviceE defaultRegion (Some client) deviceName (s :: rest)) e in
  let r' := exec (EnableMfaDeviceE defaultRegion (Some client) (VirtualMFADevice_ out) [s])
              (e |> log |> create) in
  trace r = log @ e :: create @ (e |> log) :: trace r' /\
  final r = final r' /\
  result r = match result r' with
             | Returned None => Returned (VirtualMFADevice_ out, None)
             | Returned (Some err) => Returned (None, Some err)
             | Aborted p => Aborted p
             end.
Proof.
  intros log create Hans r r'. subst r r'.
  unfold CreateMfaDeviceE. cbn -[EnableMfaDeviceE].
  fold log. fold create. rewrite Hans. cbn -[EnableMfaDeviceE].
  rewrite run_bind.
  destruct (exec (EnableMfaDeviceE defaultRegion (Some client) (VirtualMFADevice_ out) [s])
              (e |> log |> create)) as [[tr e'] [[err |] | p]];
    unfold trace, final, result; cbn; rewrite ?app_nil_r; auto.
Qed.

Section MoreClock.

Hypothesis clock_monotone :
  forall (R : Type) (c : Call Session R) (e : Env), now e <= now (after handle c e).
Hypothesis sleep_elapses :
  forall (d : Z) (e : Env), now e + d <= now (after handle (time_Sleep d) e).

Ltac clock_facts :=
  repeat match goal with
  | |- context [after handle (time_Sleep ?d) ?e] =>
    lazymatch goal with
    | _ : now e + d <= now (after handle (time_Sleep d) e) |- _ => fail
    | _ => pose proof (sleep_elapses d e)
    end
  | |- context [@after _ _ handle ?R ?c ?e] =>
    lazymatch goal with
    | _ : now e <= now (after handle c e) |- _ => fail
    | _ => pose proof (clock_monotone R c e)
    end
  end.

(** X7: a call of [CreateMfaDeviceE] that returns without error has taken
    at least 40 seconds, and returns the descriptor the creation call
    answered. *)
Theorem CreateMfaDeviceE_takes_40_seconds iamClient deviceName sessExists e dev :
  let r := exec (CreateMfaDeviceE defaultRegion iamClient deviceName sessExists) e in
  result r = Returned (dev, None) ->
  now e + 40 * Second <= now (final r) /\
  exists out, filter_map create_answer (trace r) = [(out, None)] /\
              dev = VirtualMFADevice_ out.
Proof.
  cbv zeta. unfold CreateMfaDeviceE, EnableMfaDeviceE, GetIamCurrentUserArnE, NewIamClientE.
  cbn -[Z.mul Second]. follow; try discriminate.
  intros Hres. inversion Hres; subst. split.
  - unfold final. cbn -[Z.mul Second]. clock_facts. lia.
  - eexists. cbn -[answer]. recall_goal. split; [reflexivity | congruence].
Qed.

End MoreClock.

(** X8: with a timeout of zero or less the waiter makes no receive call at
    all: once the client is there it reports the timeout at once, in a
    response with no handle, no body and the error [ReceiveMessageTimeout]
    of the queue URL and the timeout asked for; the session request is the
    only call it has made. *)
Theorem WaitForQueueMessage_nonpositive_timeout awsRegion queueURL timeout sessExists e :
  timeout <= 0 ->
  let r := exec (WaitForQueueMessage awsRegion queueURL timeout sessExists) e in
  filter_map receive_request (trace r) = [] /\
  (forall s rest, sessExists = s :: rest -> session_granted (trace r) = true ->
     result r = Returned {| ReceiptHandle := ""; MessageBody := "";
                            Error := Some (ReceiveMessageTimeout queueURL timeout) |} /\
     trace r = [NewAuthenticatedSession awsRegion s @ e]).
Proof.
  intros Hle. cbv zeta.
  destruct sessExists as [| s rest]; [split; [reflexivity | intros; discriminate] |].
  rewrite WaitForQueueMessage_run.
  destruct (answer handle (NewAuthenticatedSession awsRegion s) e) as [sess [err |]] eqn:Hs.
  - split; [reflexivity |]. intros s' rest' _. rewrite trace_mk.
    cbn -[answer]. rewrite Hs. discriminate.
  - cbv zeta. rewrite cycle_plan_short by lia. cbn [fst snd].
    rewrite receive_loop_done by lia. split; [reflexivity |].
    intros s' rest' Heq _. inversion Heq; subst. split; reflexivity.
Qed.

(** The loop only logs and receives. *)
Lemma receive_loop_kinds fuel client queueURL timeout cycles cycleLength :
  forall i e,
    Forall (fun ev => kind_of ev = KLog \/ kind_of ev = KReceive)
           (trace (exec (receive_loop fuel (Some client) queueURL timeout
                           cycles cycleLength i) e)).
Proof.
  induction fuel as [| fuel IH]; intros i e;
    (destruct (Z.lt_ge_cases i cycles) as [Hlt | Hge];
     [| rewrite receive_loop_done by lia; constructor]).
  - simpl. destruct (Z.ltb_spec i cycles); [constructor | lia].
  - destruct (answer handle (receive client queueURL cycleLength)
                (e |> wait_log queueURL i cycleLength)) as [out [err |]] eqn:Hans.
    + rewrite (receive_loop_error handle now client queueURL timeout cycles cycleLength
                 fuel i e out err Hlt Hans), trace_mk.
      constructor; [left; reflexivity |]. constructor; [right; reflexivity |]. constructor.
    + destruct (Messages out) as [| m0 more] eqn:Hmsg.
      * rewrite (receive_loop_empty handle now client queueURL timeout cycles cycleLength
                   fuel i e out Hlt Hans Hmsg).
        cbv zeta. rewrite trace_mk.
        constructor; [left; reflexivity |]. constructor; [right; reflexivity |]. apply IH.
      * rewrite (receive_loop_message handle now client queueURL timeout cycles cycleLength
                   fuel i e out m0 more Hlt Hans Hmsg).
        cbv zeta. rewrite trace_mk.
        constructor; [left; reflexivity |]. constructor; [right; reflexivity |].
        destruct (deliver_first_trace handle now out queueURL
                    (e |> wait_log queueURL i cycleLength
                       |> receive client queueURL cycleLength)) as [Hd | [id Hd]];
          rewrite Hd; repeat constructor.
Qed.

(** X9: the waiter asks for one session, then only logs and receives; and
    when the session provider fails, it returns a response whose [Error] is
    that error, with no handle and no body, and has made no other call. *)
Theorem WaitForQueueMessage_calls awsRegion queueURL timeout sessExists e :
  let r := exec (WaitForQueueMessage awsRegion queueURL timeout sessExists) e in
  (forall ev rest, trace r = ev :: rest ->
     kind_of ev = KSession /\
     Forall (fun ev' => kind_of ev' = KLog \/ kind_of ev' = KReceive) rest) /\
  (forall ev sess err, In ev (trace r) -> session_answer ev = Some (sess, Some err) ->
     result r = Returned {| ReceiptHandle := ""; MessageBody := ""; Error := Some err |} /\
     trace r = [ev]).
Proof.
  cbv zeta.
  destruct sessExists as [| s rest]; [split; [intros; discriminate | intros ? ? ? []] |].
  rewrite WaitForQueueMessage_run.
  destruct (answer handle (NewAuthenticatedSession awsRegion s) e) as [sess' [err' |]] eqn:Hs;
    cbv zeta; rewrite trace_mk, result_mk.
  - split.
    + intros ev tl Heq. inversion Heq; subst. split; [reflexivity | constructor].
    + intros ev sess err [<- | []] Hev.
      cbn -[answer] in Hev. rewrite Hs in Hev. inversion Hev; subst. split; reflexivity.
  - split.
    + intros ev tl Heq. inversion Heq; subst. split; [reflexivity |].
      apply receive_loop_kinds.
    + intros ev sess err [<- | Hin] Hev.
      * cbn -[answer] in Hev. rewrite Hs in Hev. discriminate.
      * exfalso.
        pose proof (receive_loop_kinds (Z.to_nat (fst (cycle_plan timeout)))
                      (sqs_New sess') queueURL timeout
                      (fst (cycle_plan timeout)) (snd (cycle_plan timeout)) 0
                      (e |> NewAuthenticatedSession awsRegion s)) as Hk.
        rewrite Forall_forall in Hk. specialize (Hk ev Hin).
        destruct ev as [R t0 c a t1]. destruct c; cbn in Hk, Hev; destruct Hk; discriminate.
Qed.


Lemma receive_waits_requests (tr : list (event Session)) :
  receive_waits tr = map WaitTimeSeconds (filter_map receive_request tr).
Proof.
  induction tr as [| [R t0 c a t1] tr IH]; [reflexivity |].
  destruct c; cbn; rewrite <- ?IH; reflexivity.
Qed.

Lemma deliver_first_silent out queueURL e :
  filter_map receive_request (trace (exec (deliver_first out queueURL) e)) = [] /\
  filter_map progress_event (trace (exec (deliver_first out queueURL) e)) = [].
Proof.
  destruct (deliver_first_trace handle now out queueURL e) as [Hd | [id Hd]];
    rewrite Hd; split; reflexivity.
Qed.

(** Every turn of the loop logs the seconds planned so far and sends the
    same request; there are at most [cycles - i] turns. *)
Lemma receive_loop_turns fuel client queueURL timeout cycles cycleLength :
  forall i e,
    exists n,
      (n <= Z.to_nat (cycles - i))%nat /\
      filter_map receive_request
        (trace (exec (receive_loop fuel (Some client) queueURL timeout
                        cycles cycleLength i) e))
      = repeat (receive_input queueURL cycleLength) n /\
      filter_map progress_event
        (trace (exec (receive_loop fuel (Some client) queueURL timeout
                        cycles cycleLength i) e))
      = map (fun k => [queueURL; Itoa ((i + Z.of_nat k) * cycleLength)]) (seq 0 n).
Proof.
  induction fuel as [| fuel IH]; intros i e;
    (destruct (Z.lt_ge_cases i cycles) as [Hlt | Hge];
     [| rewrite receive_loop_done by lia; exists 0%nat; repeat split; lia]).
  - exists 0%nat. simpl. destruct (Z.ltb_spec i cycles); [| lia].
    repeat split; lia.
  - destruct (answer handle (receive client queueURL cycleLength)
                (e |> wait_log queueURL i cycleLength)) as [out [err |]] eqn:Hans.
    + rewrite (receive_loop_error handle now client queueURL timeout cycles cycleLength
                 fuel i e out err Hlt Hans), trace_mk.
      exists 1%nat. split; [lia |]. cbn -[Z.mul Itoa]. rewrite Z.add_0_r. split; reflexivity.
    + destruct (Messages out) as [| m0 more] eqn:Hmsg.
      * rewrite (receive_loop_empty handle now client queueURL timeout cycles cycleLength
                   fuel i e out Hlt Hans Hmsg).
        cbv zeta. rewrite trace_mk.
        destruct (IH (i + 1) (e |> wait_log queueURL i cycleLength
                                |> receive client queueURL cycleLength))
          as (n & Hn & Hreq & Hlog).
        exists (S n). split; [lia |].
        cbn -[Z.mul Itoa receive_loop seq]. rewrite Hreq, Hlog. split; [reflexivity |].
        cbn [seq map]. rewrite Z.add_0_r. f_equal.
        rewrite <- seq_shift, map_map. apply map_ext. intros k.
        do 3 f_equal. lia.
      * rewrite (receive_loop_message handle now client queueURL timeout cycles cycleLength
                   fuel i e out m0 more Hlt Hans Hmsg).
        cbv zeta. rewrite trace_mk.
        destruct (deliver_first_silent out queueURL
                    (e |> wait_log queueURL i cycleLength
                       |> receive client queueURL cycleLength)) as [Hreq Hlog].
        exists 1%nat. split; [lia |].
        cbn -[Z.mul Itoa deliver_first]. rewrite Hreq, Hlog, Z.add_0_r. split; reflexivity.
Qed.

(** X10: in every run, whatever the queue answers, the receive calls of the
    waiter all carry the same request (the queue URL, the attribute
    [SentTimestamp], all message attributes, one message at most, a wait of
    [cycleLength] seconds, which is at most 20); there are at most
    [cycles] of them, their wait bounds add up to no more than the timeout
    asked for, and the k-th is announced by a progress line that shows
    [k * cycleLength] seconds. *)
Theorem WaitForQueueMessage_bounded awsRegion queueURL timeout sessExists e :
  let r := exec (WaitForQueueMessage awsRegion queueURL timeout sessExists) e in
  let cycles := fst (cycle_plan timeout) in
  let cycleLength := snd (cycle_plan timeout) in
  exists n,
    (n <= Z.to_nat cycles)%nat /\
    filter_map receive_request (trace r)
    = repeat {| QueueUrl_ := Some queueURL;
                AttributeNames := [Some "SentTimestamp"];
                MaxNumberOfMessages := Some 1;
                MessageAttributeNames := [Some "All"];
                WaitTimeSeconds := Some cycleLength |} n /\
    filter_map progress_event (trace r)
    = map (fun k => [queueURL; Itoa (Z.of_nat k * cycleLength)]) (seq 0 n) /\
    total_wait (trace r) = cycleLength * Z.of_nat n /\
    total_wait (trace r) <= Z.max 0 timeout /\
    1 <= cycleLength <= 20.
Proof.
  cbv zeta.
  assert (Hlen : 1 <= snd (cycle_plan timeout) <= 20).
  { unfold cycle_plan. destruct (20 <=? timeout); cbn; lia. }
  assert (Hplan : forall n, (n <= Z.to_nat (fst (cycle_plan timeout)))%nat ->
                            snd (cycle_plan timeout) * Z.of_nat n <= Z.max 0 timeout).
  { intros n. unfold cycle_plan. destruct (Z.leb_spec 20 timeout); cbn [fst snd].
    - rewrite Z.quot_div_nonneg by lia. intros Hn.
      pose proof (Z.div_mod timeout 20 ltac:(lia)).
      pose proof (Z.mod_pos_bound timeout 20 ltac:(lia)).
      pose proof (Z.div_pos timeout 20). lia.
    - lia. }
  assert (Hzero : exists n : nat,
             (n <= Z.to_nat (fst (cycle_plan timeout)))%nat /\
             @nil ReceiveMessageInput = repeat (receive_input queueURL (snd (cycle_plan timeout))) n /\
             @nil (list string)
             = map (fun k => [queueURL; Itoa (Z.of_nat k * snd (cycle_plan timeout))]) (seq 0 n) /\
             0 = snd (cycle_plan timeout) * Z.of_nat n /\
             0 <= Z.max 0 timeout /\ 1 <= snd (cycle_plan timeout) <= 20).
  { exists 0%nat. repeat split; try reflexivity; lia. }
  destruct sessExists as [| s rest]; [exact Hzero |].
  rewrite WaitForQueueMessage_run.
  destruct (answer handle (NewAuthenticatedSession awsRegion s) e) as [sess [err |]];
    [exact Hzero |].
  cbv zeta. rewrite trace_mk.
  destruct (receive_loop_turns (Z.to_nat (fst (cycle_plan timeout))) (sqs_New sess)
              queueURL timeout (fst (cycle_plan timeout)) (snd (cycle_plan timeout)) 0
              (e |> NewAuthenticatedSession awsRegion s)) as (n & Hn & Hreq & Hlog).
  exists n. rewrite Z.sub_0_r in Hn.
  assert (Htotal : total_wait
                     (NewAuthenticatedSession awsRegion s @ e
                      :: trace (exec (receive_loop (Z.to_nat (fst (cycle_plan timeout)))
                                        (Some (sqs_New sess)) queueURL timeout
                                        (fst (cycle_plan timeout))
                                        (snd (cycle_plan timeout)) 0)
                                  (e |> NewAuthenticatedSession awsRegion s)))
                   = snd (cycle_plan timeout) * Z.of_nat n).
  { unfold total_wait. rewrite receive_waits_requests.
    change (filter_map receive_request (NewAuthenticatedSession awsRegion s @ e :: ?tr))
      with (filter_map receive_request tr).
    rewrite Hreq, map_repeat. apply sum_repeat. }
  split; [exact Hn |]. split; [exact Hreq |].
  split.
  { etransitivity; [exact Hlog |]. apply map_ext. intros k. rewrite Z.add_0_l. reflexivity. }
  split; [exact Htotal |].
  split; [rewrite Htotal; auto | exact Hlen].
Qed.

(** X26: when its time is up the waiter returns a response whose [Error] is
    set, and the text of that error reads
    [Failed to receive messages on <queue URL> within <timeout> seconds],
    with the timeout the caller asked for. *)
Theorem WaitForQueueMessage_timeout_text awsRegion queueURL timeout s rest e :
  let r := exec (WaitForQueueMessage awsRegion queueURL timeout (s :: rest)) e in
  session_granted (trace r) = true ->
  no_message_no_error (trace r) = true ->
  exists resp err,
    result r = Returned resp /\
    Error resp = Some err /\
    error_Error err
    = "Failed to receive messages on " ++ queueURL ++ " within " ++ Itoa timeout ++ " seconds".
Proof.
  intros r Hsess Hquiet.
  destruct (WaitForQueueMessage_quiet handle now awsRegion queueURL timeout s rest e
              Hsess Hquiet) as [Hres _].
  exists (timed_out queueURL timeout), (ReceiveMessageTimeout queueURL timeout).
  split; [exact Hres |]. split; reflexivity.
Qed.

End MoreProperties.

(** * The rest of sqs.go *)

Lemma prefix_app (p s : string) : String.prefix p (p ++ s) = true.
Proof.
  induction p as [| a p IH]; [destruct s; reflexivity |].
  cbn. destruct (Ascii.ascii_dec a a); [exact IH | congruence].
Qed.

Lemma prefix_split (p s : string) :
  String.prefix p s = true -> exists post, s = p ++ post.
Proof.
  revert s. induction p as [| a p IH]; intros s H.
  - exists s. reflexivity.
  - destruct s as [| b s]; [discriminate |]. cbn in H.
    destruct (Ascii.ascii_dec a b) as [-> |]; [| discriminate].
    destruct (IH s H) as [post ->]. exists post. reflexivity.
Qed.

(** [Contains s substr] holds exactly when [substr] occurs in [s]. *)
Lemma Contains_spec (s substr : string) :
  Contains s substr = true <-> exists pre post, s = pre ++ substr ++ post.
Proof.
  split.
  - induction s as [| a s IH]; cbn [Contains].
    + destruct (String.prefix substr "") eqn:Hp; [| discriminate].
      intros _. destruct (prefix_split _ _ Hp) as [post Heq].
      exists "", post. exact Heq.
    + destruct (String.prefix substr (String a s)) eqn:Hp.
      * intros _. destruct (prefix_split _ _ Hp) as [post Heq].
        exists "", post. exact Heq.
      * intros H. destruct (IH H) as (pre & post & ->).
        exists (String a pre), post. reflexivity.
  - intros (pre & post & ->). induction pre as [| a pre IH].
    + cbn [append]. destruct (substr ++ post) eqn:Heq; cbn [Contains];
        rewrite <- Heq, prefix_app; reflexivity.
    + cbn [append Contains].
      destruct (String.prefix substr (String a (pre ++ substr ++ post))); [reflexivity |].
      exact IH.
Qed.

Section ExtendedProperties.

Context {Session Env : Type}.
Variable xhandle : forall R : Type, ExtCall Session R -> Env -> Env * R.

#[local] Notation "'xexec'" := (xrun xhandle) (only parsing).

Ltac xfollow :=
  repeat (match goal with
  | |- context [match xanswer xhandle ?c ?e with _ => _ end] =>
    let err := fresh "err" in
    destruct (xanswer xhandle c e) as [? [err |]] eqn:?
  | |- context [deref ?p] => destruct p eqn:?
  | |- context [index ?l _] => destruct l eqn:?
  end; cbn -[Sprintf Contains NonExistentQueue append]).

Ltac xpick H :=
  repeat (destruct H as [H | H]; [subst; try discriminate |]); try contradiction.

Ltac xrecall H :=
  cbn -[Sprintf Contains NonExistentQueue append xanswer] in H;
  repeat match goal with
  | Heq : xanswer xhandle _ _ = _ |- _ => rewrite Heq in H
  end;
  cbn -[Sprintf Contains NonExistentQueue append xanswer] in H.

Ltac xrecall_goal :=
  cbn -[Sprintf Contains NonExistentQueue append xanswer];
  repeat match goal with
  | Heq : xanswer xhandle _ _ = _ |- _ => rewrite Heq
  end;
  cbn -[Sprintf Contains NonExistentQueue append xanswer].

Lemma append_nil_r (s : string) : s ++ "" = s.
Proof. induction s as [| a s IH]; cbn; [| rewrite IH]; reflexivity. Qed.

(** X11: when [SendMessage] fails, what [SendMessageToQueueE] returns depends
    on the text of the error.  If [AWS.SimpleQueueService.NonExistentQueue]
    occurs in it, the error is swallowed: the function logs the warning that
    the client has stopped listening on the queue and returns [nil].  If it
    does not occur, the error is returned as it is and nothing is logged
    after the failed call.  In particular an SDK error with that very code
    is swallowed, whatever its message. *)
Theorem SendMessageToQueueE_send_error awsRegion queueURL message sessExists e ev res err :
  let r := xexec (SendMessageToQueueE awsRegion queueURL message sessExists) e in
  let named :=
    exists pre post,
      error_Error err = pre ++ "AWS.SimpleQueueService.NonExistentQueue" ++ post in
  In ev (xtrace r) ->
  send_answer ev = Some (res, Some err) ->
  (named ->
   xresult r = Returned None /\
   last_event (xtrace r)
   = Some (XEv (core (logger_Logf ("WARN: Client has stopped listening on queue " ++ queueURL)
                                  [])) tt)) /\
  (~ named -> xresult r = Returned (Some err) /\ last_event (xtrace r) = Some ev) /\
  (forall text, err = AwsError "AWS.SimpleQueueService.NonExistentQueue" text ->
                xresult r = Returned None).
Proof.
  cbv zeta. unfold SendMessageToQueueE, NewSqsClientE.
  cbn -[Sprintf Contains NonExistentQueue append]. xfollow.
  all: try (intros Hin Hev; xpick Hin; xrecall Hev; discriminate).
  all: destruct (Contains (error_Error err0) NonExistentQueue) eqn:Hc;
    cbn -[Sprintf Contains NonExistentQueue append]; intros Hin Hev; xpick Hin; xrecall Hev; try discriminate.
  all: inversion Hev; subst.
  - split; [| split].
    + intros _. split; [reflexivity |].
      unfold last_event. cbn -[append]. rewrite append_nil_r.
      match goal with
      | |- Some (XEv _ ?a) = _ => destruct a
      end.
      reflexivity.
    + intros Hn. exfalso. apply Hn. apply Contains_spec. exact Hc.
    + reflexivity.
  - split; [| split].
    + intros Hocc. apply Contains_spec in Hocc. unfold NonExistentQueue in Hc. congruence.
    + intros _. split; [reflexivity |]. unfold last_event. cbn. xrecall_goal. reflexivity.
    + intros text ->. exfalso.
      assert (Contains (error_Error (AwsError "AWS.SimpleQueueService.NonExistentQueue" text))
                       NonExistentQueue = true) as Ht.
      { apply Contains_spec. exists "", (": " ++ text). reflexivity. }
      congruence.
Qed.

(** X12: the queue [CreateRandomQueueE] asks for is named by the prefix, a
    dash and the text of the UUID it has just drawn; the name starts with the
    prefix. *)
Theorem CreateRandomQueueE_name awsRegion prefix sessExists e ev input :
  let r := xexec (CreateRandomQueueE awsRegion prefix sessExists) e in
  In ev (xtrace r) ->
  create_queue_request ev = Some input ->
  exists channel,
    filter_map uuid_answer (xtrace r) = [(channel, None)] /\
    CreateQueueInput.QueueName input = Some (prefix ++ "-" ++ channel) /\
    String.prefix prefix (prefix ++ "-" ++ channel) = true.
Proof.
  cbv zeta. unfold CreateRandomQueueE, NewSqsClientE.
  cbn -[Sprintf Contains NonExistentQueue append]. xfollow.
  all: intros Hin Hev; xpick Hin.
  all: cbn in Hev; inversion Hev; subst.
  all: eexists; xrecall_goal; rewrite append_nil_r;
    repeat split; try reflexivity; apply prefix_app.
Qed.

(** X13: [CreateRandomQueueE] returns the empty string with every error,
    the error being that of the last call it made (session, UUID or
    [CreateQueue]); without error it returns the URL [CreateQueue] answered,
    or the empty string if that URL is [nil]. *)
Theorem CreateRandomQueueE_returns awsRegion prefix sessExists e url oerr :
  let r := xexec (CreateRandomQueueE awsRegion prefix sessExists) e in
  xresult r = Returned (url, oerr) ->
  match oerr with
  | Some err =>
    url = "" /\ exists ev, last_event (xtrace r) = Some ev /\ xstep_error ev = Some err
  | None =>
    exists queue,
      filter_map create_queue_answer (xtrace r) = [(queue, None)] /\
      url = aws_StringValue (CreateQueueOutput.QueueUrl queue)
  end.
Proof.
  cbv zeta. unfold CreateRandomQueueE, NewSqsClientE.
  cbn -[Sprintf Contains NonExistentQueue append]. xfollow.
  all: intros Hres; try discriminate; inversion Hres; subst.
  all: try (split; [reflexivity |]; eexists; split; [reflexivity |];
            xrecall_goal; reflexivity).
  eexists. xrecall_goal. split; reflexivity.
Qed.

(** X14: when the session provider fails, [CreateRandomQueueE],
    [DeleteQueueE], [DeleteMessageFromQueueE] and [SendMessageToQueueE]
    return its error, and the calls they have made are their first log line
    and the session request, nothing else: no call to SQS, no UUID drawn. *)
Theorem sqs_no_session awsRegion queueURL prefix receipt message sessExists e err :
  let failing tr :=
    exists ev, In ev tr /\ xkind_of ev = XSession /\ xstep_error ev = Some err in
  (let r := xexec (CreateRandomQueueE awsRegion prefix sessExists) e in
   failing (xtrace r) ->
   xresult r = Returned ("", Some err) /\ map xkind_of (xtrace r) = [XLog; XSession]) /\
  (let r := xexec (DeleteQueueE awsRegion queueURL sessExists) e in
   failing (xtrace r) ->
   xresult r = Returned (Some err) /\ map xkind_of (xtrace r) = [XLog; XSession]) /\
  (let r := xexec (DeleteMessageFromQueueE awsRegion queueURL receipt sessExists) e in
   failing (xtrace r) ->
   xresult r = Returned (Some err) /\ map xkind_of (xtrace r) = [XLog; XSession]) /\
  (let r := xexec (SendMessageToQueueE awsRegion queueURL message sessExists) e in
   failing (xtrace r) ->
   xresult r = Returned (Some err) /\ map xkind_of (xtrace r) = [XLog; XSession]).
Proof.
  cbv zeta.
  assert (Hcase : forall (tr : list (xevent Session)) (P : Prop),
             (forall ev, In ev tr -> xkind_of ev = XSession ->
                         xstep_error ev = Some err -> P) ->
             (exists ev, In ev tr /\ xkind_of ev = XSession /\ xstep_error ev = Some err) -> P).
  { intros tr P HP (ev & Hin & Hkind & Hev). eauto. }
  unfold CreateRandomQueueE, DeleteQueueE, DeleteMessageFromQueueE, SendMessageToQueueE,
    NewSqsClientE.
  repeat apply conj; apply Hcase.
  all: cbn -[Sprintf Contains NonExistentQueue append]; xfollow;
    try match goal with
        | |- context [Contains ?a ?b] => destruct (Contains a b)
        end;
    cbn -[Sprintf Contains NonExistentQueue append];
    intros ev Hin Hkind Hev; xpick Hin; xrecall Hev; try discriminate;
    inversion Hev; subst; split; reflexivity.
Qed.

(** X15: [DeleteQueueE] and [DeleteMessageFromQueueE] return what their last
    call reported: the error of the session provider, or else the error of
    the delete call, [nil] when it succeeded; the delete call names the queue
    (and the receipt) they were given. *)
Theorem sqs_delete_returns awsRegion queueURL receipt sessExists e oerr :
  (let r := xexec (DeleteQueueE awsRegion queueURL sessExists) e in
   xresult r = Returned oerr ->
   exists ev, last_event (xtrace r) = Some ev /\ xstep_error ev = oerr /\
     (xkind_of ev = XSession \/
      exists c, ev = XEv (sqs_DeleteQueue c {| DeleteQueueInput.QueueUrl := Some queueURL |})
                         (tt, oerr))) /\
  (let r := xexec (DeleteMessageFromQueueE awsRegion queueURL receipt sessExists) e in
   xresult r = Returned oerr ->
   exists ev, last_event (xtrace r) = Some ev /\ xstep_error ev = oerr /\
     (xkind_of ev = XSession \/
      exists c, ev = XEv (sqs_DeleteMessage c
                            {| DeleteMessageInput.QueueUrl := Some queueURL;
                               DeleteMessageInput.ReceiptHandle := Some receipt |})
                         (tt, oerr))).
Proof.
  cbv zeta. unfold DeleteQueueE, DeleteMessageFromQueueE, NewSqsClientE.
  split.
  all: cbn -[Sprintf Contains NonExistentQueue append]; xfollow.
  all: intros Hres; try discriminate; inversion Hres; subst.
  all: eexists; (split; [reflexivity |]); xrecall_goal.
  all: try (split; [reflexivity |]; left; reflexivity).
  all: split; [reflexivity |]; right; eexists;
    match goal with u : unit |- _ => destruct u end; reflexivity.
Qed.

Lemma xrun_bind {A B : Type} (m : xprog Session A) (f : A -> xprog Session B) :
  forall e,
    xexec (xbind m f) e =
    match xresult (xexec m e) with
    | Returned a =>
      let r2 := xexec (f a) (xfinal (xexec m e)) in
      ((xtrace (xexec m e) ++ xtrace r2)%list, xfinal r2, xresult r2)
    | Aborted p => (xtrace (xexec m e), xfinal (xexec m e), Aborted p)
    end.
Proof.
  induction m as [a | p | R c k IH]; intros e; simpl.
  - unfold xtrace, xfinal, xresult; simpl.
    destruct (xexec (f a) e) as [[tr e'] o]. reflexivity.
  - reflexivity.
  - rewrite IH. unfold xresult, xtrace, xfinal; simpl.
    destruct (snd (xexec (k (xanswer xhandle c e)) (xafter xhandle c e))); reflexivity.
Qed.

Lemma xfatal_wrapper {A : Type}
    (f : list (ptr Session) -> xprog Session (A * option error)) s rest e :
  xexec (xbind (lift (index (s :: rest) 0))
           (fun s0 => xbind (f [s0])
              (fun x => let (out, err) := x in
                        match err with Some e => lift (t_Fatal e) | None => XRet out end))) e
  = (xtrace (xexec (f [s]) e), xfinal (xexec (f [s]) e),
     or_fatal (xresult (xexec (f [s]) e))).
Proof.
  cbn [index nth_error lift xbind]. rewrite xrun_bind.
  destruct (xexec (f [s]) e) as [[tr e'] [[a [err |]] | p]];
    unfold xtrace, xfinal, xresult; cbn; rewrite ?app_nil_r; reflexivity.
Qed.

Lemma xfatal_wrapper_unit
    (f : list (ptr Session) -> xprog Session (option error)) s rest e :
  xexec (xbind (lift (index (s :: rest) 0))
           (fun s0 => xbind (f [s0])
              (fun err => match err with
                          | Some e => lift (t_Fatal e)
                          | None => XRet tt
                          end))) e
  = (xtrace (xexec (f [s]) e), xfinal (xexec (f [s]) e),
     or_fatal_unit (xresult (xexec (f [s]) e))).
Proof.
  cbn [index nth_error lift xbind]. rewrite xrun_bind.
  destruct (xexec (f [s]) e) as [[tr e'] [[err |] | p]];
    unfold xtrace, xfinal, xresult; cbn; rewrite ?app_nil_r; reflexivity.
Qed.

(** X16: the fatal wrappers of sqs.go perform the calls of the function they
    wrap, on the first session argument; they return when it reports no
    error and stop the test with its error otherwise.  As
    [SendMessageToQueueE] swallows the error of a missing queue,
    [SendMessageToQueue] does not stop the test on it. *)
Theorem sqs_wrappers_fatal awsRegion queueURL prefix receipt message s rest e :
  xexec (CreateRandomQueue awsRegion prefix (s :: rest)) e
  = (let r := xexec (CreateRandomQueueE awsRegion prefix [s]) e in
     (xtrace r, xfinal r, or_fatal (xresult r))) /\
  xexec (DeleteQueue awsRegion queueURL (s :: rest)) e
  = (let r := xexec (DeleteQueueE awsRegion queueURL [s]) e in
     (xtrace r, xfinal r, or_fatal_unit (xresult r))) /\
  xexec (DeleteMessageFromQueue awsRegion queueURL receipt (s :: rest)) e
  = (let r := xexec (DeleteMessageFromQueueE awsRegion queueURL receipt [s]) e in
     (xtrace r, xfinal r, or_fatal_unit (xresult r))) /\
  xexec (SendMessageToQueue awsRegion queueURL message (s :: rest)) e
  = (let r := xexec (SendMessageToQueueE awsRegion queueURL message [s]) e in
     (xtrace r, xfinal r, or_fatal_unit (xresult r))).
Proof.
  cbv zeta. repeat split.
  - apply (xfatal_wrapper (CreateRandomQueueE awsRegion prefix)).
  - apply (xfatal_wrapper_unit (DeleteQueueE awsRegion queueURL)).
  - apply (xfatal_wrapper_unit (DeleteMessageFromQueueE awsRegion queueURL receipt)).
  - apply (xfatal_wrapper_unit (SendMessageToQueueE awsRegion queueURL message)).
Qed.

(** * The EC2 helpers *)

Lemma ips_of_instances_run instances :
  forall ips e,
    xexec (ips_of_instances instances ips) e
    = ([], e, match collect instances with
              | Some l => Returned (ips_from l ips)
              | None => Aborted NilDereference
              end).
Proof.
  induction instances as [| [i |] more IH]; intros ips e; cbn; try reflexivity.
  rewrite IH. destruct (collect more); reflexivity.
Qed.

Lemma ips_from_app l1 l2 ips : ips_from (l1 ++ l2) ips = ips_from l2 (ips_from l1 ips).
Proof. apply fold_left_app. Qed.

Lemma ips_of_reservations_run reservations :
  forall ips e,
    xexec (ips_of_reservations reservations ips) e
    = ([], e, match instances_of reservations with
              | Some l => Returned (ips_from l ips)
              | None => Aborted NilDereference
              end).
Proof.
  induction reservations as [| [r |] more IH]; intros ips e; cbn -[ips_of_instances];
    try reflexivity.
  rewrite xrun_bind, ips_of_instances_run. unfold xresult, xtrace, xfinal. cbn.
  destruct (collect (Reservation.Instances r)) as [l1 |]; [| reflexivity].
  rewrite IH. cbn. destruct (instances_of more) as [l2 |]; [| reflexivity].
  rewrite ips_from_app. reflexivity.
Qed.

Lemma map_get_delete k k' m :
  map_get k (map_delete k' m) = if String.eqb k k' then None else map_get k m.
Proof.
  induction m as [| [k0 v] m IH]; cbn.
  - destruct (String.eqb k k'); reflexivity.
  - destruct (String.eqb_spec k' k0) as [-> | Hne]; cbn.
    + rewrite IH. destruct (String.eqb k k0); reflexivity.
    + rewrite IH. destruct (String.eqb_spec k k0) as [-> | Hne'].
      * destruct (String.eqb_spec k0 k'); [congruence | reflexivity].
      * reflexivity.
Qed.

(** Writing then reading a Go map. *)
Lemma map_get_set k k' v m :
  map_get k (map_set k' v m) = if String.eqb k k' then Some v else map_get k m.
Proof.
  unfold map_set. cbn. rewrite map_get_delete.
  destruct (String.eqb k k'); reflexivity.
Qed.

Lemma map_get_fold {A : Type} (key value : A -> string) (l : list A) :
  forall k m,
    map_get k (fold_left (fun m a => map_set (key a) (value a) m) l m)
    = match find_last (fun a => String.eqb (key a) k) l with
      | Some a => Some (value a)
      | None => map_get k m
      end.
Proof.
  unfold find_last.
  induction l as [| a l IH] using rev_ind; intros k m; [reflexivity |].
  rewrite fold_left_app, rev_app_distr. cbn [fold_left rev app find].
  rewrite map_get_set, String.eqb_sym.
  destruct (String.eqb (key a) k); [reflexivity | apply IH].
Qed.

Lemma GetPublicIpsOfEc2InstancesE_run instanceIDs awsRegion s rest e :
  let session := core (NewAuthenticatedSession awsRegion s) in
  xexec (GetPublicIpsOfEc2InstancesE instanceIDs awsRegion (s :: rest)) e =
  match xanswer xhandle session e with
  | (_, Some err) => ([XEv session (xanswer xhandle session e)],
                      xafter xhandle session e, Aborted (TestFatal err))
  | (sess, None) =>
    let describe := ec2_DescribeInstances (ec2_New sess)
                      {| DescribeInstancesInput.InstanceIds := aws_StringSlice instanceIDs;
                         DescribeInstancesInput.Filters := [] |} in
    ([XEv session (xanswer xhandle session e);
      XEv describe (xanswer xhandle describe (xafter xhandle session e))],
     xafter xhandle describe (xafter xhandle session e),
     match xanswer xhandle describe (xafter xhandle session e) with
     | (_, Some err) => Returned ([], Some err)
     | (output, None) =>
       match instances_of (DescribeInstancesOutput.Reservations output) with
       | Some l => Returned (ips_from l [], None)
       | None => Aborted NilDereference
       end
     end)
  end.
Proof.
  cbv zeta. unfold GetPublicIpsOfEc2InstancesE, NewEc2Client, NewEc2ClientE.
  cbn -[ips_of_reservations].
  destruct (xanswer xhandle (core (NewAuthenticatedSession awsRegion s)) e)
    as [sess [err |]]; cbn -[ips_of_reservations]; [reflexivity |].
  destruct (xanswer xhandle _ _) as [output [err |]]; cbn -[ips_of_reservations];
    [reflexivity |].
  rewrite xrun_bind, ips_of_reservations_run. unfold xresult, xtrace, xfinal. cbn.
  destruct (instances_of (DescribeInstancesOutput.Reservations output)); reflexivity.
Qed.

(** X17: [GetPublicIpsOfEc2InstancesE] does not return the error of the
    session provider: it builds its client with [NewEc2Client], so that the
    test is stopped, and no call to EC2 is made. *)
Theorem GetPublicIpsOfEc2InstancesE_session_fatal instanceIDs awsRegion sessExists e ev err :
  let r := xexec (GetPublicIpsOfEc2InstancesE instanceIDs awsRegion sessExists) e in
  In ev (xtrace r) ->
  xkind_of ev = XSession ->
  xstep_error ev = Some err ->
  xresult r = Aborted (TestFatal err) /\ no_operation (xtrace r) = true.
Proof.
  cbv zeta. destruct sessExists as [| s rest]; [intros [] |].
  rewrite GetPublicIpsOfEc2InstancesE_run. cbv zeta.
  destruct (xanswer xhandle (core (NewAuthenticatedSession awsRegion s)) e)
    as [sess [err' |]] eqn:Hs; unfold xtrace, xresult; cbn -[xanswer];
    intros Hin Hkind Hev; xpick Hin; xrecall Hev; try discriminate.
  inversion Hev; subst. split; reflexivity.
Qed.

(** X18: when [DescribeInstances] succeeds, [GetPublicIpsOfEc2InstancesE]
    has asked for the instance ids it was given and returns the map in which
    an instance id is bound to the public IP of the last instance of the
    answer that bears it (the empty string where id or IP is [nil]) and other
    keys are unbound; a [nil] reservation or instance in the answer makes it
    panic. *)
Theorem GetPublicIpsOfEc2InstancesE_map instanceIDs awsRegion sessExists e ev input output :
  let r := xexec (GetPublicIpsOfEc2InstancesE instanceIDs awsRegion sessExists) e in
  In ev (xtrace r) ->
  describe_instances_event ev = Some (input, (output, None)) ->
  DescribeInstancesInput.InstanceIds input = map Some instanceIDs /\
  match instances_of (DescribeInstancesOutput.Reservations output) with
  | None => xresult r = Aborted NilDereference
  | Some l =>
    exists ips,
      xresult r = Returned (ips, None) /\
      forall k,
        map_get k ips
        = match find_last (fun i => String.eqb (aws_StringValue (Instance.InstanceId i)) k) l with
          | Some i => Some (aws_StringValue (Instance.PublicIpAddress i))
          | None => None
          end
  end.
Proof.
  cbv zeta. destruct sessExists as [| s rest]; [intros [] |].
  rewrite GetPublicIpsOfEc2InstancesE_run. cbv zeta.
  destruct (xanswer xhandle (core (NewAuthenticatedSession awsRegion s)) e)
    as [sess [err' |]] eqn:Hs; unfold xtrace, xresult; cbn -[xanswer instances_of];
    intros Hin Hev; xpick Hin.
  cbn -[xanswer] in Hev. inversion Hev; subst. rewrite H1.
  split; [reflexivity |].
  destruct (instances_of (DescribeInstancesOutput.Reservations output)) as [l |];
    [| reflexivity].
  eexists. split; [reflexivity |]. intros k.
  unfold ips_from.
  rewrite (map_get_fold (fun i => aws_StringValue (Instance.InstanceId i))
                        (fun i => aws_StringValue (Instance.PublicIpAddress i))).
  reflexivity.
Qed.

(** X19: when [DescribeInstances] succeeds (with no [nil] in its answer),
    [GetPublicIpOfEc2InstanceE] has asked for the one instance id it was
    given; it returns the public IP of the last instance of the answer that
    bears this id (the empty string if that IP is [nil]), and the structured
    error [IpForEc2InstanceNotFound], with the id and the region, exactly
    when no instance of the answer bears it. *)
Theorem GetPublicIpOfEc2InstanceE_lookup instanceID awsRegion sessExists e ev input output l :
  let r := xexec (GetPublicIpOfEc2InstanceE instanceID awsRegion sessExists) e in
  In ev (xtrace r) ->
  describe_instances_event ev = Some (input, (output, None)) ->
  instances_of (DescribeInstancesOutput.Reservations output) = Some l ->
  DescribeInstancesInput.InstanceIds input = [Some instanceID] /\
  xresult r
  = match find_last (fun i => String.eqb (aws_StringValue (Instance.InstanceId i)) instanceID) l with
    | Some i => Returned (aws_StringValue (Instance.PublicIpAddress i), None)
    | None => Returned ("", Some (IpForEc2InstanceNotFound instanceID awsRegion))
    end.
Proof.
  cbv zeta. destruct sessExists as [| s rest]; [intros [] |].
  unfold GetPublicIpOfEc2InstanceE. cbn [index nth_error lift xbind].
  rewrite xrun_bind, GetPublicIpsOfEc2InstancesE_run. cbv zeta.
  destruct (xanswer xhandle (core (NewAuthenticatedSession awsRegion s)) e)
    as [sess [err' |]] eqn:Hs; unfold xtrace, xresult, xfinal; cbn -[xanswer instances_of].
  { intros Hin Hev; xpick Hin. }
  destruct (xanswer xhandle _ (xafter xhandle _ e)) as [output' [err' |]] eqn:Hd;
    cbn -[xanswer instances_of].
  { intros Hin Hev; xpick Hin; xrecall Hev; discriminate. }
  destruct (instances_of (DescribeInstancesOutput.Reservations output')) as [l' |] eqn:Hl;
    cbn -[xanswer instances_of].
  2:{ intros Hin Hev Hsome; xpick Hin; xrecall Hev; inversion Hev; subst; congruence. }
  pose proof (map_get_fold (fun i => aws_StringValue (Instance.InstanceId i))
                (fun i => aws_StringValue (Instance.PublicIpAddress i)) l' instanceID [])
    as Hget.
  fold (ips_from l' []) in Hget. cbn [map_get] in Hget.
  destruct (map_get instanceID (ips_from l' [])) as [ip |] eqn:Hip;
    cbn -[xanswer instances_of]; intros Hin Hev Hsome; xpick Hin;
    xrecall Hev; inversion Hev; subst;
    rewrite Hl in Hsome; inversion Hsome; subst;
    (split; [reflexivity |]);
    unfold ips_from in Hip; rewrite Hget in Hip;
    destruct (find_last _ l); congruence.
Qed.

Lemma ids_of_instances_run instances :
  forall acc e,
    xexec (ids_of_instances instances acc) e
    = ([], e, match collect instances with
              | None => Aborted NilDereference
              | Some l =>
                match collect (map Instance.InstanceId l) with
                | Some ids => Returned (acc ++ ids)%list
                | None => Aborted NilDereference
                end
              end).
Proof.
  induction instances as [| [i |] more IH]; intros acc e; cbn.
  - rewrite app_nil_r. reflexivity.
  - destruct (Instance.InstanceId i) as [id |] eqn:Hid; cbn.
    + rewrite IH. destruct (collect more) as [l |]; [| reflexivity]. cbn.
      rewrite Hid.
      destruct (collect (map Instance.InstanceId l)); [| reflexivity].
      rewrite <- app_assoc. reflexivity.
    + destruct (collect more); [| reflexivity]. cbn. rewrite Hid. reflexivity.
  - reflexivity.
Qed.

Lemma collect_app {A : Type} (l1 l2 : list (ptr A)) :
  collect (l1 ++ l2)
  = match collect l1, collect l2 with
    | Some a, Some b => Some (a ++ b)%list
    | _, _ => None
    end.
Proof.
  induction l1 as [| [a |] l1 IH]; cbn.
  - destruct (collect l2); reflexivity.
  - rewrite IH. destruct (collect l1), (collect l2); reflexivity.
  - reflexivity.
Qed.

Lemma ids_of_reservations_run reservations :
  forall acc e,
    xexec (ids_of_reservations reservations acc) e
    = ([], e, match instances_of reservations with
              | None => Aborted NilDereference
              | Some l =>
                match collect (map Instance.InstanceId l) with
                | Some ids => Returned (acc ++ ids)%list
                | None => Aborted NilDereference
                end
              end).
Proof.
  induction reservations as [| [r |] more IH]; intros acc e; cbn -[ids_of_instances].
  - rewrite app_nil_r. reflexivity.
  - rewrite xrun_bind, ids_of_instances_run. unfold xresult, xtrace, xfinal. cbn.
    destruct (collect (Reservation.Instances r)) as [l1 |]; [| reflexivity].
    destruct (collect (map Instance.InstanceId l1)) as [ids1 |] eqn:H1; cbn.
    + rewrite IH. cbn. destruct (instances_of more) as [l2 |]; [| reflexivity].
      rewrite map_app, collect_app, H1.
      destruct (collect (map Instance.InstanceId l2)); [| reflexivity].
      rewrite app_assoc. reflexivity.
    + destruct (instances_of more) as [l2 |]; [| reflexivity].
      rewrite map_app, collect_app, H1. reflexivity.
  - reflexivity.
Qed.

(** X20: [GetEc2InstanceIdsByTagE] asks [DescribeInstances] for the one
    filter [tag:<tagName>] with the one value [tagValue]; when the call
    succeeds it returns the ids of all instances of the answer, reservation
    by reservation, in the order of the answer, and panics if a reservation,
    an instance or an id of the answer is [nil]. *)
Theorem GetEc2InstanceIdsByTagE_ids region tagName tagValue sessExists e ev input output :
  let r := xexec (GetEc2InstanceIdsByTagE region tagName tagValue sessExists) e in
  In ev (xtrace r) ->
  describe_instances_event ev = Some (input, (output, None)) ->
  input = {| DescribeInstancesInput.InstanceIds := [];
             DescribeInstancesInput.Filters :=
               [Some {| Filter.Name := Some ("tag:" ++ tagName);
                        Filter.Values := [Some tagValue] |}] |} /\
  xresult r
  = match instances_of (DescribeInstancesOutput.Reservations output) with
    | None => Aborted NilDereference
    | Some l =>
      match collect (map Instance.InstanceId l) with
      | Some ids => Returned (ids, None)
      | None => Aborted NilDereference
      end
    end.
Proof.
  cbv zeta. unfold GetEc2InstanceIdsByTagE, NewEc2ClientE.
  destruct sessExists as [| s rest]; [intros [] |].
  cbn -[ids_of_reservations Sprintf].
  destruct (xanswer xhandle (core (NewAuthenticatedSession region s)) e)
    as [sess [err' |]] eqn:Hs; cbn -[ids_of_reservations Sprintf xanswer].
  { intros Hin Hev; xpick Hin. }
  destruct (xanswer xhandle _ (xafter xhandle _ e)) as [output' [err' |]] eqn:Hd;
    cbn -[ids_of_reservations Sprintf xanswer].
  { intros Hin Hev; xpick Hin. }
  rewrite xrun_bind, ids_of_reservations_run. unfold xresult, xtrace, xfinal.
  cbn -[Sprintf xanswer instances_of].
  intros Hin Hev.
  assert (Hev' : input = {| DescribeInstancesInput.InstanceIds := [];
                            DescribeInstancesInput.Filters :=
                              [Some {| Filter.Name := Some ("tag:" ++ tagName);
                                       Filter.Values := [Some tagValue] |}] |}
                 /\ output = output').
  { destruct (instances_of (DescribeInstancesOutput.Reservations output')) as [l |];
      [destruct (collect (map Instance.InstanceId l)) |];
      cbn in Hin; xpick Hin; cbn in Hev; inversion Hev; subst;
      rewrite append_nil_r; split; reflexivity. }
  destruct Hev' as [-> ->]. split; [reflexivity |].
  destruct (instances_of (DescribeInstancesOutput.Reservations output')) as [l |];
    [destruct (collect (map Instance.InstanceId l)) |]; reflexivity.
Qed.

Lemma tags_of_run tagList :
  forall tags e,
    xexec (tags_of tagList tags) e
    = ([], e, match collect tagList with
              | Some l => Returned (tags_from l tags)
              | None => Aborted NilDereference
              end).
Proof.
  induction tagList as [| [t |] more IH]; intros tags e; cbn; try reflexivity.
  rewrite IH. destruct (collect more); reflexivity.
Qed.

(** X21: [GetTagsForEc2InstanceE] asks [DescribeTags] for the resources of
    type [instance] with the id it was given; when the call succeeds it
    returns the map in which a key is bound to the value of the last tag of
    the answer that bears it (the empty string where key or value is [nil]),
    and panics if a tag of the answer is [nil]. *)
Theorem GetTagsForEc2InstanceE_map region instanceID sessExists e ev input out :
  let r := xexec (GetTagsForEc2InstanceE region instanceID sessExists) e in
  In ev (xtrace r) ->
  describe_tags_event ev = Some (input, (out, None)) ->
  input = {| DescribeTagsInput.Filters :=
               [Some {| Filter.Name := Some "resource-type";
                        Filter.Values := [Some "instance"] |};
                Some {| Filter.Name := Some "resource-id";
                        Filter.Values := [Some instanceID] |}] |} /\
  match collect (DescribeTagsOutput.Tags out) with
  | None => xresult r = Aborted NilDereference
  | Some l =>
    exists tags,
      xresult r = Returned (tags, None) /\
      forall k,
        map_get k tags
        = match find_last (fun t => String.eqb (aws_StringValue (TagDescription.Key t)) k) l with
          | Some t => Some (aws_StringValue (TagDescription.Value t))
          | None => None
          end
  end.
Proof.
  cbv zeta. unfold GetTagsForEc2InstanceE, NewEc2ClientE.
  destruct sessExists as [| s rest]; [intros [] |].
  cbn -[tags_of].
  destruct (xanswer xhandle (core (NewAuthenticatedSession region s)) e)
    as [sess [err' |]] eqn:Hs; cbn -[tags_of xanswer].
  { intros Hin Hev; xpick Hin. }
  destruct (xanswer xhandle _ (xafter xhandle _ e)) as [out' [err' |]] eqn:Hd;
    cbn -[tags_of xanswer].
  { intros Hin Hev; xpick Hin. }
  rewrite xrun_bind, tags_of_run. unfold xresult, xtrace, xfinal.
  cbn -[xanswer collect].
  intros Hin Hev.
  assert (Hev' : input = {| DescribeTagsInput.Filters :=
                              [Some {| Filter.Name := Some "resource-type";
                                       Filter.Values := [Some "instance"] |};
                               Some {| Filter.Name := Some "resource-id";
                                       Filter.Values := [Some instanceID] |}] |}
                 /\ out = out').
  { destruct (collect (DescribeTagsOutput.Tags out'));
      cbn in Hin; xpick Hin; cbn in Hev; inversion Hev; subst; split; reflexivity. }
  destruct Hev' as [-> ->]. split; [reflexivity |].
  destruct (collect (DescribeTagsOutput.Tags out')) as [l |]; [| reflexivity].
  eexists. split; [reflexivity |]. intros k. unfold tags_from.
  rewrite (map_get_fold (fun t => aws_StringValue (TagDescription.Key t))
                        (fun t => aws_StringValue (TagDescription.Value t))).
  reflexivity.
Qed.

(** X22: when [ImportEC2KeyPairE] returns without error, it has imported the
    public key of the pair it was given under the name it was given, and the
    descriptor it returns holds that name, the region and that very pair;
    with an error the descriptor is [nil]. *)
Theorem ImportEC2KeyPairE_returns region name keyPair sessExists e d oerr :
  let r := xexec (ImportEC2KeyPairE region name keyPair sessExists) e in
  xresult r = Returned (d, oerr) ->
  match oerr with
  | Some err =>
    d = None /\ exists ev, last_event (xtrace r) = Some ev /\ xstep_error ev = Some err
  | None =>
    exists kp,
      keyPair = Some kp /\
      filter_map import_request (xtrace r)
      = [{| ImportKeyPairInput.KeyName := Some name;
            ImportKeyPairInput.PublicKeyMaterial := KeyPair.PublicKey kp |}] /\
      d = Some {| Ec2Keypair.KeyPair := keyPair; Ec2Keypair.Name := name;
                  Ec2Keypair.Region := region |}
  end.
Proof.
  cbv zeta. unfold ImportEC2KeyPairE, NewEc2ClientE.
  cbn -[Sprintf Contains NonExistentQueue append]. xfollow.
  all: intros Hres; try discriminate; inversion Hres; subst.
  all: try (split; [reflexivity |]; eexists; split; [reflexivity |];
            xrecall_goal; reflexivity).
  eexists. repeat split.
Qed.

(** X23: [CreateAndImportEC2KeyPairE] asks for one key pair, of 2048 bits.
    If the generation fails it returns that error with a [nil] descriptor and
    has made no other call; when it returns without error, it has imported
    the public key of the generated pair under the name it was given, and the
    descriptor holds that name, the region and the generated pair. *)
Theorem CreateAndImportEC2KeyPairE_returns region name sessExists e :
  let r := xexec (CreateAndImportEC2KeyPairE region name sessExists) e in
  (forall ev size keyPair err,
      In ev (xtrace r) -> keygen_event ev = Some (size, (keyPair, Some err)) ->
      xresult r = Returned (None, Some err) /\ xtrace r = [ev]) /\
  (forall d,
      xresult r = Returned (d, None) ->
      exists kp,
        filter_map keygen_event (xtrace r) = [(2048, (Some kp, None))] /\
        filter_map import_request (xtrace r)
        = [{| ImportKeyPairInput.KeyName := Some name;
              ImportKeyPairInput.PublicKeyMaterial := KeyPair.PublicKey kp |}] /\
        d = Some {| Ec2Keypair.KeyPair := Some kp; Ec2Keypair.Name := name;
                    Ec2Keypair.Region := region |}).
Proof.
  cbv zeta. unfold CreateAndImportEC2KeyPairE, ImportEC2KeyPairE, NewEc2ClientE.
  cbn -[Sprintf Contains NonExistentQueue append]. xfollow; split.
  all: try (intros ev size keyPair err' Hin Hev; xpick Hin; xrecall Hev;
            try discriminate; inversion Hev; subst; split; reflexivity).
  all: intros d Hres; try discriminate; inversion Hres; subst.
  eexists. xrecall_goal. repeat split.
Qed.

(** X24: when the session provider fails, the EC2 operations that build
    their client with [NewEc2ClientE] return its error and have made no call
    to EC2. *)
Theorem ec2_no_session region name keyPair kp tagName tagValue instanceID imageID
    sessExists e err :
  let failing tr :=
    exists ev, In ev tr /\ xkind_of ev = XSession /\ xstep_error ev = Some err in
  (let r := xexec (ImportEC2KeyPairE region name keyPair sessExists) e in
   failing (xtrace r) ->
   xresult r = Returned (None, Some err) /\ no_operation (xtrace r) = true) /\
  (let r := xexec (DeleteEC2KeyPairE (Some kp) sessExists) e in
   failing (xtrace r) ->
   xresult r = Returned (Some err) /\ no_operation (xtrace r) = true) /\
  (let r := xexec (GetEc2InstanceIdsByTagE region tagName tagValue sessExists) e in
   failing (xtrace r) ->
   xresult r = Returned ([], Some err) /\ no_operation (xtrace r) = true) /\
  (let r := xexec (GetTagsForEc2InstanceE region instanceID sessExists) e in
   failing (xtrace r) ->
   xresult r = Returned ([], Some err) /\ no_operation (xtrace r) = true) /\
  (let r := xexec (DeleteAmiE region imageID sessExists) e in
   failing (xtrace r) ->
   xresult r = Returned (Some err) /\ no_operation (xtrace r) = true) /\
  (let r := xexec (TerminateInstanceE region instanceID sessExists) e in
   failing (xtrace r) ->
   xresult r = Returned (Some err) /\ no_operation (xtrace r) = true).
Proof.
  cbv zeta.
  assert (Hcase : forall (tr : list (xevent Session)) (P : Prop),
             (forall ev, In ev tr -> xkind_of ev = XSession ->
                         xstep_error ev = Some err -> P) ->
             (exists ev, In ev tr /\ xkind_of ev = XSession /\ xstep_error ev = Some err) -> P).
  { intros tr P HP (ev & Hin & Hkind & Hev). eauto. }
  unfold ImportEC2KeyPairE, DeleteEC2KeyPairE, GetEc2InstanceIdsByTagE,
    GetTagsForEc2InstanceE, DeleteAmiE, TerminateInstanceE, NewEc2ClientE.
  repeat apply conj; apply Hcase.
  - cbn -[Sprintf Contains NonExistentQueue append]. xfollow.
    all: intros ev Hin Hkind Hev; xpick Hin; xrecall Hev; try discriminate;
      inversion Hev; subst; split; reflexivity.
  - cbn -[Sprintf Contains NonExistentQueue append]. xfollow.
    all: intros ev Hin Hkind Hev; xpick Hin; xrecall Hev; try discriminate;
      inversion Hev; subst; split; reflexivity.
  - destruct sessExists as [| s rest]; cbn -[ids_of_reservations Sprintf]; [intros ? [] |].
    destruct (xanswer xhandle (core (NewAuthenticatedSession region s)) e)
      as [sess [err' |]] eqn:Hs; cbn -[ids_of_reservations Sprintf xanswer].
    + intros ev Hin Hkind Hev; xpick Hin; xrecall Hev; inversion Hev; subst.
      split; reflexivity.
    + destruct (xanswer xhandle _ (xafter xhandle _ e)) as [output [err' |]] eqn:Hd;
        cbn -[ids_of_reservations Sprintf xanswer].
      * intros ev Hin Hkind Hev; xpick Hin; xrecall Hev; discriminate.
      * rewrite xrun_bind, ids_of_reservations_run. unfold xresult, xtrace, xfinal.
        cbn -[Sprintf xanswer instances_of].
        destruct (instances_of (DescribeInstancesOutput.Reservations output)) as [l |];
          [destruct (collect (map Instance.InstanceId l)) |];
          cbn -[Sprintf xanswer];
          intros ev Hin Hkind Hev; xpick Hin; xrecall Hev; discriminate.
  - destruct sessExists as [| s rest]; cbn -[tags_of]; [intros ? [] |].
    destruct (xanswer xhandle (core (NewAuthenticatedSession region s)) e)
      as [sess [err' |]] eqn:Hs; cbn -[tags_of xanswer].
    + intros ev Hin Hkind Hev; xpick Hin; xrecall Hev; inversion Hev; subst.
      split; reflexivity.
    + destruct (xanswer xhandle _ (xafter xhandle _ e)) as [output [err' |]] eqn:Hd;
        cbn -[tags_of xanswer].
      * intros ev Hin Hkind Hev; xpick Hin; xrecall Hev; discriminate.
      * rewrite xrun_bind, tags_of_run. unfold xresult, xtrace, xfinal.
        cbn -[xanswer collect].
        destruct (collect (DescribeTagsOutput.Tags output)); cbn -[xanswer];
          intros ev Hin Hkind Hev; xpick Hin; xrecall Hev; discriminate.
  - cbn -[Sprintf Contains NonExistentQueue append]. xfollow.
    all: intros ev Hin Hkind Hev; xpick Hin; xrecall Hev; try discriminate;
      inversion Hev; subst; split; reflexivity.
  - cbn -[Sprintf Contains NonExistentQueue append]. xfollow.
    all: intros ev Hin Hkind Hev; xpick Hin; xrecall Hev; try discriminate;
      inversion Hev; subst; split; reflexivity.
Qed.

(** X25: the fatal wrappers of the EC2 helpers perform the calls of the
    function they wrap, on the first session argument; they return its value
    when it reports no error and stop the test with its error otherwise. *)
Theorem ec2_wrappers_fatal region name keyPair instanceIDs tagName tagValue instanceID
    imageID s rest e :
  xexec (NewEc2Client region (s :: rest)) e
  = (let r := xexec (NewEc2ClientE region [s]) e in
     (xtrace r, xfinal r, or_fatal (xresult r))) /\
  xexec (ImportEC2KeyPair region name keyPair (s :: rest)) e
  = (let r := xexec (ImportEC2KeyPairE region name keyPair [s]) e in
     (xtrace r, xfinal r, or_fatal (xresult r))) /\
  xexec (CreateAndImportEC2KeyPair region name (s :: rest)) e
  = (let r := xexec (CreateAndImportEC2KeyPairE region name [s]) e in
     (xtrace r, xfinal r, or_fatal (xresult r))) /\
  xexec (GetPublicIpsOfEc2Instances instanceIDs region (s :: rest)) e
  = (let r := xexec (GetPublicIpsOfEc2InstancesE instanceIDs region [s]) e in
     (xtrace r, xfinal r, or_fatal (xresult r))) /\
  xexec (GetEc2InstanceIdsByTag region tagName tagValue (s :: rest)) e
  = (let r := xexec (GetEc2InstanceIdsByTagE region tagName tagValue [s]) e in
     (xtrace r, xfinal r, or_fatal (xresult r))) /\
  xexec (GetTagsForEc2Instance region instanceID (s :: rest)) e
  = (let r := xexec (GetTagsForEc2InstanceE region instanceID [s]) e in
     (xtrace r, xfinal r, or_fatal (xresult r))) /\
  xexec (DeleteAmi region imageID (s :: rest)) e
  = (let r := xexec (DeleteAmiE region imageID [s]) e in
     (xtrace r, xfinal r, or_fatal_unit (xresult r))) /\
  xexec (TerminateInstance region instanceID (s :: rest)) e
  = (let r := xexec (TerminateInstanceE region instanceID [s]) e in
     (xtrace r, xfinal r, or_fatal_unit (xresult r))).
Proof.
  cbv zeta. repeat apply conj.
  - apply (xfatal_wrapper (NewEc2ClientE region)).
  - apply (xfatal_wrapper (ImportEC2KeyPairE region name keyPair)).
  - apply (xfatal_wrapper (CreateAndImportEC2KeyPairE region name)).
  - apply (xfatal_wrapper (GetPublicIpsOfEc2InstancesE instanceIDs region)).
  - apply (xfatal_wrapper (GetEc2InstanceIdsByTagE region tagName tagValue)).
  - apply (xfatal_wrapper (GetTagsForEc2InstanceE region instanceID)).
  - apply (xfatal_wrapper_unit (DeleteAmiE region imageID)).
  - apply (xfatal_wrapper_unit (TerminateInstanceE region instanceID)).
Qed.

End ExtendedProperties.

(** * The scripted worlds at work, again *)

Lemma GetIamCurrentUserArnE_returns_witness :
  let r := Mock.exec (GetIamCurrentUserArnE "us-east-1" [None]) Mock.quiet in
  exists sess out user,
    filter_map session_event (trace r) = [("us-east-1", None, (sess, None))] /\
    filter_map getuser_event (trace r) = [(iam_New sess, (out, None))] /\
    User_ out = Some user /\ Arn user = Some "arn:aws:iam::0:user/tester".
Proof.
  exact (GetIamCurrentUserArnE_returns Mock.handle Mock.now "us-east-1" None []
           Mock.quiet "arn:aws:iam::0:user/tester" None eq_refl).
Defined.

Lemma EnableMfaDeviceE_request_witness :
  let ev := nth 7 (trace Mock.enrollment) (Ev 0 (time_Sleep 0) tt 0) in
  let input := {| AuthenticationCode1 := Some "0"; AuthenticationCode2 := Some "1";
                  SerialNumber_ := Some "arn:aws:iam::0:mfa/otp";
                  UserName := Some "arn:aws:iam::0:user/tester" |} in
  exists client dev s rest sess out user,
    Some (iam_New None) = Some client /\ enable_client ev = Some client /\
    Some (Mock.device (Some "otp")) = Some dev /\ SerialNumber_ input = SerialNumber dev /\
    [None] = s :: rest /\
    filter_map session_event (trace Mock.enrollment) = [("eu-west-1", s, (sess, None))] /\
    filter_map getuser_event (trace Mock.enrollment) = [(iam_New sess, (out, None))] /\
    User_ out = Some user /\ UserName input = Arn user.
Proof.
  apply (EnableMfaDeviceE_request Mock.handle Mock.now "eu-west-1"
           (Some (iam_New None)) (Some (Mock.device (Some "otp"))) [None] Mock.quiet
           (nth 7 (trace Mock.enrollment) (Ev 0 (time_Sleep 0) tt 0))
           30000000004
           {| AuthenticationCode1 := Some "0"; AuthenticationCode2 := Some "1";
              SerialNumber_ := Some "arn:aws:iam::0:mfa/otp";
              UserName := Some "arn:aws:iam::0:user/tester" |}
           None 30000000005).
  - do 7 right. left. reflexivity.
  - reflexivity.
Defined.

Lemma EnableMfaDeviceE_fail_fast_witness :
  let r := Mock.exec (EnableMfaDeviceE "eu-west-1" (Some (iam_New None))
                        (Some (Mock.device (Some "otp"))) [None]) Mock.no_enabling in
  exists ev, trace r = (removelast (trace r) ++ [ev])%list /\
             step_error ev = Some Mock.invalid_code.
Proof.
  exact (proj2 (EnableMfaDeviceE_fail_fast Mock.handle Mock.now "eu-west-1"
                  (Some (iam_New None)) (Some (Mock.device (Some "otp"))) [None]
                  Mock.no_enabling Mock.invalid_code) eq_refl).
Defined.

Lemma CreateMfaDeviceE_then_enable_witness :
  let log := logger_Logf "Creating an MFA device called %s" ["otp"] in
  let create := iam_CreateVirtualMFADevice (iam_New None)
                  {| VirtualMFADeviceName := Some "otp" |} in
  let out := {| VirtualMFADevice_ := Some (Mock.device (Some "otp")) |} in
  let r := Mock.exec (CreateMfaDeviceE "eu-west-1" (Some (iam_New None)) "otp" [None])
             Mock.quiet in
  let r' := Mock.exec (EnableMfaDeviceE "eu-west-1" (Some (iam_New None))
                         (VirtualMFADevice_ out) [None])
              (after Mock.handle create (after Mock.handle log Mock.quiet)) in
  trace r = perform Mock.handle Mock.now log Mock.quiet
            :: perform Mock.handle Mock.now create (after Mock.handle log Mock.quiet)
            :: trace r' /\
  final r = final r' /\
  result r = match result r' with
             | Returned None => Returned (VirtualMFADevice_ out, None)
             | Returned (Some err) => Returned (None, Some err)
             | Aborted p => Aborted p
             end.
Proof.
  exact (CreateMfaDeviceE_then_enable Mock.handle Mock.now "eu-west-1" (iam_New None)
           "otp" None [] Mock.quiet
           {| VirtualMFADevice_ := Some (Mock.device (Some "otp")) |} eq_refl).
Defined.

Lemma CreateMfaDeviceE_takes_40_seconds_witness :
  let r := Mock.exec (CreateMfaDeviceE "eu-west-1" (Some (iam_New None)) "otp" [None])
             Mock.quiet in
  Mock.now Mock.quiet + 40 * Second <= Mock.now (final r) /\
  exists out, filter_map create_answer (trace r) = [(out, None)] /\
              Some (Mock.device (Some "otp")) = VirtualMFADevice_ out.
Proof.
  exact (CreateMfaDeviceE_takes_40_seconds Mock.handle Mock.now "eu-west-1"
           Mock_clock_monotone Mock_sleep_elapses
           (Some (iam_New None)) "otp" [None] Mock.quiet
           (Some (Mock.device (Some "otp"))) eq_refl).
Defined.

Lemma WaitForQueueMessage_nonpositive_timeout_witness :
  let r := Mock.exec (WaitForQueueMessage "eu-west-1" "jobs" 0 [None]) Mock.quiet in
  filter_map receive_request (trace r) = [] /\
  (forall s rest, [None] = s :: rest -> session_granted (trace r) = true ->
     result r = Returned {| ReceiptHandle := ""; MessageBody := "";
                            Error := Some (ReceiveMessageTimeout "jobs" 0) |} /\
     trace r = [perform Mock.handle Mock.now (NewAuthenticatedSession "eu-west-1" s)
                  Mock.quiet]).
Proof.
  apply (WaitForQueueMessage_nonpositive_timeout Mock.handle Mock.now
           "eu-west-1" "jobs" 0 [None] Mock.quiet).
  lia.
Defined.

Lemma WaitForQueueMessage_calls_witness :
  let r := Lab.exec_core (WaitForQueueMessage "eu-west-1" "jobs" 5 [None]) Lab.locked_out in
  result r = Returned {| ReceiptHandle := ""; MessageBody := "";
                         Error := Some Lab.expired |} /\
  trace r = [Ev 0 (NewAuthenticatedSession "eu-west-1" None) (None, Some Lab.expired) 0].
Proof.
  apply (proj2 (WaitForQueueMessage_calls
                  (fun R c => Lab.handle R (core c)) (fun w => Mock.now (Lab.base w))
                  "eu-west-1" "jobs" 5 [None] Lab.locked_out)
           (Ev 0 (NewAuthenticatedSession "eu-west-1" None) (None, Some Lab.expired) 0)
           None Lab.expired).
  - left. reflexivity.
  - reflexivity.
Defined.

Lemma WaitForQueueMessage_timeout_text_witness :
  let r := Mock.exec (WaitForQueueMessage "eu-west-1" "jobs" 5 [None]) Mock.quiet in
  exists resp err,
    result r = Returned resp /\
    Error resp = Some err /\
    error_Error err = "Failed to receive messages on jobs within 5 seconds".
Proof.
  apply (WaitForQueueMessage_timeout_text Mock.handle Mock.now
           "eu-west-1" "jobs" 5 None [] Mock.quiet); reflexivity.
Defined.

Lemma SendMessageToQueueE_send_error_witness :
  let r := Lab.exec (SendMessageToQueueE "eu-west-1" "https://sqs/jobs" "hi" [None])
             Lab.queue_gone in
  xresult r = Returned None /\
  last_event (xtrace r)
  = Some (XEv (core (logger_Logf "WARN: Client has stopped listening on queue https://sqs/jobs"
                                 [])) tt).
Proof.
  apply (proj1 (SendMessageToQueueE_send_error Lab.handle
                  "eu-west-1" "https://sqs/jobs" "hi" [None] Lab.queue_gone
                  (XEv (sqs_SendMessage (sqs_New (Some tt))
                          {| SendMessageInput.MessageBody := Some "hi";
                             SendMessageInput.QueueUrl := Some "https://sqs/jobs" |})
                       ({| SendMessageOutput.MessageId := None |}, Some Lab.gone))
                  {| SendMessageOutput.MessageId := None |} Lab.gone
                  (or_intror (or_intror (or_introl eq_refl))) eq_refl)).
  exists "", ": The specified queue does not exist". reflexivity.
Defined.

Lemma CreateRandomQueueE_name_witness :
  let r := Lab.exec (CreateRandomQueueE "eu-west-1" "jobs" [None]) Lab.fine in
  exists channel,
    filter_map uuid_answer (xtrace r) = [(channel, None)] /\
    Some "jobs-0b1c" = Some ("jobs" ++ "-" ++ channel) /\
    String.prefix "jobs" ("jobs" ++ "-" ++ channel) = true.
Proof.
  apply (CreateRandomQueueE_name Lab.handle "eu-west-1" "jobs" [None] Lab.fine
           (XEv (sqs_CreateQueue (sqs_New (Some tt))
                   {| CreateQueueInput.QueueName := Some "jobs-0b1c" |})
                (Lab.queue Lab.fine))
           {| CreateQueueInput.QueueName := Some "jobs-0b1c" |}).
  - do 3 right. left. reflexivity.
  - reflexivity.
Defined.

Lemma CreateRandomQueueE_returns_witness :
  let r := Lab.exec (CreateRandomQueueE "eu-west-1" "jobs" [None]) Lab.fine in
  exists queue,
    filter_map create_queue_answer (xtrace r) = [(queue, None)] /\
    "https://sqs/jobs-0b1c" = aws_StringValue (CreateQueueOutput.QueueUrl queue).
Proof.
  exact (CreateRandomQueueE_returns Lab.handle "eu-west-1" "jobs" [None] Lab.fine
           "https://sqs/jobs-0b1c" None eq_refl).
Defined.

Lemma sqs_no_session_witness :
  let r := Lab.exec (DeleteQueueE "eu-west-1" "https://sqs/jobs" [None]) Lab.locked_out in
  xresult r = Returned (Some Lab.expired) /\ map xkind_of (xtrace r) = [XLog; XSession].
Proof.
  apply (proj1 (proj2 (sqs_no_session Lab.handle "eu-west-1" "https://sqs/jobs" "jobs"
                         "rh-1" "hi" [None] Lab.locked_out Lab.expired))).
  exists (XEv (core (NewAuthenticatedSession "eu-west-1" None)) (None, Some Lab.expired)).
  split; [right; left; reflexivity | split; reflexivity].
Defined.

Lemma sqs_delete_returns_witness :
  let r := Lab.exec (DeleteQueueE "eu-west-1" "https://sqs/jobs" [None]) Lab.queue_gone in
  exists ev, last_event (xtrace r) = Some ev /\ xstep_error ev = Some Lab.gone /\
    (xkind_of ev = XSession \/
     exists c, ev = XEv (sqs_DeleteQueue c
                           {| DeleteQueueInput.QueueUrl := Some "https://sqs/jobs" |})
                        (tt, Some Lab.gone)).
Proof.
  exact (proj1 (sqs_delete_returns Lab.handle "eu-west-1" "https://sqs/jobs" "rh-1"
                  [None] Lab.queue_gone (Some Lab.gone)) eq_refl).
Defined.

Lemma GetPublicIpsOfEc2InstancesE_session_fatal_witness :
  let r := Lab.exec (GetPublicIpsOfEc2InstancesE ["i-1"] "eu-west-1" [None]) Lab.locked_out in
  xresult r = Aborted (TestFatal Lab.expired) /\ no_operation (xtrace r) = true.
Proof.
  apply (GetPublicIpsOfEc2InstancesE_session_fatal Lab.handle
           ["i-1"] "eu-west-1" [None] Lab.locked_out
           (XEv (core (NewAuthenticatedSession "eu-west-1" None)) (None, Some Lab.expired))
           Lab.expired).
  - left. reflexivity.
  - reflexivity.
  - reflexivity.
Defined.

Lemma GetPublicIpsOfEc2InstancesE_map_witness :
  let r := Lab.exec (GetPublicIpsOfEc2InstancesE ["i-1"; "i-2"] "eu-west-1" [None]) Lab.fine in
  exists ips,
    xresult r = Returned (ips, None) /\
    forall k,
      map_get k ips
      = match find_last (fun i => String.eqb (aws_StringValue (Instance.InstanceId i)) k)
                        [Lab.web; Lab.db] with
        | Some i => Some (aws_StringValue (Instance.PublicIpAddress i))
        | None => None
        end.
Proof.
  apply (proj2 (GetPublicIpsOfEc2InstancesE_map Lab.handle
                  ["i-1"; "i-2"] "eu-west-1" [None] Lab.fine
                  (XEv (ec2_DescribeInstances (ec2_New (Some tt)) (Lab.asked ["i-1"; "i-2"]))
                       (Lab.instances Lab.fine))
                  (Lab.asked ["i-1"; "i-2"]) (fst (Lab.instances Lab.fine))
                  (or_intror (or_introl eq_refl)) eq_refl)).
Defined.

Lemma GetPublicIpOfEc2InstanceE_lookup_witness :
  xresult (Lab.exec (GetPublicIpOfEc2InstanceE "i-3" "eu-west-1" [None]) Lab.fine)
  = Returned ("", Some (IpForEc2InstanceNotFound "i-3" "eu-west-1")).
Proof.
  apply (proj2 (GetPublicIpOfEc2InstanceE_lookup Lab.handle
                  "i-3" "eu-west-1" [None] Lab.fine
                  (XEv (ec2_DescribeInstances (ec2_New (Some tt)) (Lab.asked ["i-3"]))
                       (Lab.instances Lab.fine))
                  (Lab.asked ["i-3"]) (fst (Lab.instances Lab.fine)) [Lab.web; Lab.db]
                  (or_intror (or_introl eq_refl)) eq_refl eq_refl)).
Defined.

Lemma GetEc2InstanceIdsByTagE_ids_witness :
  xresult (Lab.exec (GetEc2InstanceIdsByTagE "eu-west-1" "Name" "web" [None]) Lab.fine)
  = Returned (["i-1"; "i-2"], None).
Proof.
  apply (proj2 (GetEc2InstanceIdsByTagE_ids Lab.handle
                  "eu-west-1" "Name" "web" [None] Lab.fine
                  (XEv (ec2_DescribeInstances (ec2_New (Some tt))
                          {| DescribeInstancesInput.InstanceIds := [];
                             DescribeInstancesInput.Filters :=
                               [Some {| Filter.Name := Some "tag:Name";
                                        Filter.Values := [Some "web"] |}] |})
                       (Lab.instances Lab.fine))
                  _ (fst (Lab.instances Lab.fine))
                  (or_intror (or_introl eq_refl)) eq_refl)).
Defined.

Lemma GetTagsForEc2InstanceE_map_witness :
  let r := Lab.exec (GetTagsForEc2InstanceE "eu-west-1" "i-1" [None]) Lab.fine in
  exists tags,
    xresult r = Returned (tags, None) /\
    forall k,
      map_get k tags
      = match find_last (fun t => String.eqb (aws_StringValue (TagDescription.Key t)) k)
                [{| TagDescription.Key := Some "Name"; TagDescription.Value := Some "web" |};
                 {| TagDescription.Key := Some "Name"; TagDescription.Value := Some "web-2" |}] with
        | Some t => Some (aws_StringValue (TagDescription.Value t))
        | None => None
        end.
Proof.
  apply (proj2 (GetTagsForEc2InstanceE_map Lab.handle
                  "eu-west-1" "i-1" [None] Lab.fine
                  (XEv (ec2_DescribeTags (ec2_New (Some tt))
                          {| DescribeTagsInput.Filters :=
                               [Some {| Filter.Name := Some "resource-type";
                                        Filter.Values := [Some "instance"] |};
                                Some {| Filter.Name := Some "resource-id";
                                        Filter.Values := [Some "i-1"] |}] |})
                       (Lab.tags Lab.fine))
                  _ (fst (Lab.tags Lab.fine))
                  (or_intror (or_introl eq_refl)) eq_refl)).
Defined.

Lemma ImportEC2KeyPairE_returns_witness :
  let r := Lab.exec (ImportEC2KeyPairE "eu-west-1" "deploy" (Some Lab.pair) [None]) Lab.fine in
  exists kp,
    Some Lab.pair = Some kp /\
    filter_map import_request (xtrace r)
    = [{| ImportKeyPairInput.KeyName := Some "deploy";
          ImportKeyPairInput.PublicKeyMaterial := KeyPair.PublicKey kp |}] /\
    Some {| Ec2Keypair.KeyPair := Some Lab.pair; Ec2Keypair.Name := "deploy";
            Ec2Keypair.Region := "eu-west-1" |}
    = Some {| Ec2Keypair.KeyPair := Some Lab.pair; Ec2Keypair.Name := "deploy";
              Ec2Keypair.Region := "eu-west-1" |}.
Proof.
  exact (ImportEC2KeyPairE_returns Lab.handle "eu-west-1" "deploy" (Some Lab.pair) [None]
           Lab.fine
           (Some {| Ec2Keypair.KeyPair := Some Lab.pair; Ec2Keypair.Name := "deploy";
                    Ec2Keypair.Region := "eu-west-1" |})
           None eq_refl).
Defined.

Lemma ec2_no_session_witness :
  let r := Lab.exec (TerminateInstanceE "eu-west-1" "i-1" [None]) Lab.locked_out in
  xresult r = Returned (Some Lab.expired) /\ no_operation (xtrace r) = true.
Proof.
  apply (proj2 (proj2 (proj2 (proj2 (proj2
           (ec2_no_session Lab.handle "eu-west-1" "deploy" (Some Lab.pair)
              {| Ec2Keypair.KeyPair := Some Lab.pair; Ec2Keypair.Name := "deploy";
                 Ec2Keypair.Region := "eu-west-1" |}
              "Name" "web" "i-1" "ami-1" [None] Lab.locked_out Lab.expired)))))).
  exists (XEv (core (NewAuthenticatedSession "eu-west-1" None)) (None, Some Lab.expired)).
  split; [right; left; reflexivity | split; reflexivity].
Defined.

Lemma CreateAndImportEC2KeyPairE_returns_witness :
  let r := Lab.exec (CreateAndImportEC2KeyPairE "eu-west-1" "deploy" [None]) Lab.fine in
  exists kp,
    filter_map keygen_event (xtrace r) = [(2048, (Some kp, None))] /\
    filter_map import_request (xtrace r)
    = [{| ImportKeyPairInput.KeyName := Some "deploy";
          ImportKeyPairInput.PublicKeyMaterial := KeyPair.PublicKey kp |}] /\
    Some {| Ec2Keypair.KeyPair := Some Lab.pair; Ec2Keypair.Name := "deploy";
            Ec2Keypair.Region := "eu-west-1" |}
    = Some {| Ec2Keypair.KeyPair := Some kp; Ec2Keypair.Name := "deploy";
              Ec2Keypair.Region := "eu-west-1" |}.
Proof.
  exact (proj2 (CreateAndImportEC2KeyPairE_returns Lab.handle "eu-west-1" "deploy" [None]
                  Lab.fine)
           (Some {| Ec2Keypair.KeyPair := Some Lab.pair; Ec2Keypair.Name := "deploy";
                    Ec2Keypair.Region := "eu-west-1" |})
           eq_refl).
Defined.
